(** * Archestra backend: a shallow embedding of selected backend modules

    The development follows the TypeScript sources of the backend:
    the database retry wrapper, the secret-encryption key rotation script,
    the SSO provider / interaction / organization models and the
    organization and A2A routes, together with the member, secret, team,
    agent-team and agent-label models and the permission hook of the
    frontend.  Every definition keeps the name of the source function it
    embeds. *)

From Stdlib Require Import Bool Arith ZArith QArith List Lia.
From Stdlib Require Import Ascii String.
From Stdlib Require Import Permutation Sorted.
Import ListNotations.
Close Scope Q_scope.
Open Scope string_scope.

Set Implicit Arguments.
Set Warnings "-register-all".

(* ===================================================================== *)
(** * JavaScript strings and values                                        *)
(* ===================================================================== *)

Module Js.

(** [String.prototype.startsWith]. *)
Fixpoint startsWith (s p : string) {struct p} : bool :=
  match p with
  | EmptyString => true
  | String c p' =>
      match s with
      | EmptyString => false
      | String d s' => Ascii.eqb d c && startsWith s' p'
      end
  end.

(** [String.prototype.includes]: some suffix of [s] starts with [p]. *)
Fixpoint includes (s p : string) : bool :=
  startsWith s p ||
  match s with
  | EmptyString => false
  | String _ s' => includes s' p
  end.

(** [Array.prototype.join] on strings. *)
Fixpoint join (sep : string) (l : list string) : string :=
  match l with
  | [] => ""
  | [x] => x
  | x :: rest => x ++ sep ++ join sep rest
  end.

(** A truthy string is a non-empty one. *)
Definition truthyString (s : string) : bool :=
  match s with EmptyString => false | _ => true end.

(** The JavaScript values an [unknown] caught in a [catch] clause can be.
    An [Error] carries the node-postgres [code], its [message] and its
    [cause], which is itself an arbitrary value. *)
Inductive Value : Type :=
| Undefined
| Null
| Boolean (b : bool)
| Number (n : Z)
| Str (s : string)
| PlainObject
| Error (code : option string) (message : string) (cause : Value).

(** [instanceof Error]. *)
Definition isError (v : Value) : bool :=
  match v with Error _ _ _ => true | _ => false end.

(** JavaScript truthiness, as used by [if (cause)]. *)
Definition truthy (v : Value) : bool :=
  match v with
  | Undefined | Null => false
  | Boolean b => b
  | Number n => negb (Z.eqb n 0)
  | Str s => truthyString s
  | PlainObject => true
  | Error _ _ _ => true
  end.

(** [new Error(message)]. *)
Definition newError (message : string) : Value := Error None message Undefined.

(** [error instanceof Error ? error.message : fallback]. *)
Definition messageOr (fallback : string) (v : Value) : string :=
  match v with Error _ m _ => m | _ => fallback end.

(** JSON documents: what [JSON.parse] yields and what a [jsonb] column
    stores. *)
Inductive Json : Type :=
| JNull
| JBool (b : bool)
| JNumber (n : Z)
| JString (s : string)
| JArray (items : list Json)
| JObject (fields : list (string * Json)).

(** Result of awaiting a promise: it resolves with a value or rejects
    with the thrown JavaScript value. *)
Inductive Outcome (T : Type) : Type :=
| Resolved (v : T)
| Rejected (e : Value).
Arguments Resolved {T} v.
Arguments Rejected {T} e.

End Js.

(* ===================================================================== *)
(** * Database retry wrapper (db-retry)                                    *)
(* ===================================================================== *)

Module DbRetry.
Import Js.

Definition MAX_RETRIES : Z := 3.
Definition MAX_CAUSE_DEPTH : nat := 5.

Definition TRANSIENT_PG_CODES : list string :=
  [ "08000"; "08001"; "08003"; "08004"; "08006";
    "57P01"; "57P02"; "57P03" ].

Definition TRANSIENT_ERROR_PATTERNS : list string :=
  [ "ECONNREFUSED"; "ECONNRESET"; "EPIPE"; "ETIMEDOUT";
    "Connection terminated"; "timeout expired" ].

(** [Set.prototype.has] on a set of strings. *)
Definition has (set : list string) (x : string) : bool :=
  existsb (String.eqb x) set.

(** [pgCode && TRANSIENT_PG_CODES.has(pgCode)]. *)
Definition hasTransientCode (code : option string) : bool :=
  match code with
  | Some pgCode => truthyString pgCode && has TRANSIENT_PG_CODES pgCode
  | None => false
  end.

(** [TRANSIENT_ERROR_PATTERNS.some((pattern) => message.includes(pattern))]. *)
Definition hasTransientPattern (message : string) : bool :=
  existsb (fun pattern => includes message pattern) TRANSIENT_ERROR_PATTERNS.

Fixpoint isTransientDbError (error : Value) (depth : nat) : bool :=
  match error with
  | Error code message cause =>
      if (MAX_CAUSE_DEPTH <? depth)%nat then false
      else if hasTransientCode code then true
      else if hasTransientPattern message then true
      else if truthy cause then isTransientDbError cause (S depth)
      else false
  | _ => false
  end.

(** ** withDbRetry

    [fn] is an effectful thunk: it runs against a world state [W] and
    leaves a new one.  The loop threads the world and counts how many
    times [fn] was invoked.  [calculateBackoff], [sleep] and the logger
    only delay and report; they do not influence control flow. *)
Section WithDbRetry.
Variables W T : Type.
Variable fn : W -> Outcome T * W.

Record Run : Type := mkRun {
  outcome : Outcome T;
  world : W;
  calls : nat
}.

(** [for (attempt; attempt <= maxRetries; attempt++) { try ... }];
    [fuel] bounds the number of iterations still allowed; [None] means
    the bound was too small. *)
Fixpoint retryLoop (maxRetries : Z) (fuel : nat) (attempt : Z)
         (w : W) (n : nat) : option Run :=
  match fuel with
  | O => None
  | S fuel' =>
      if (attempt <=? maxRetries)%Z then
        match fn w with
        | (Resolved v, w') => Some (mkRun (Resolved v) w' (S n))
        | (Rejected error, w') =>
            if isTransientDbError error 0 && (attempt <? maxRetries)%Z
            then retryLoop maxRetries fuel' (attempt + 1) w' (S n)
            else Some (mkRun (Rejected error) w' (S n))
        end
      else
        Some (mkRun (Rejected (newError "withDbRetry: unreachable")) w n)
  end.

(** [options?.maxRetries ?? MAX_RETRIES]. *)
Definition withDbRetry (options : option Z) (w : W) : option Run :=
  let maxRetries := match options with Some m => m | None => MAX_RETRIES end in
  retryLoop maxRetries (S (Z.to_nat (maxRetries + 1))) 0 w 0.

(** The world in which the [k]-th invocation (counting from 0) of [fn]
    starts, when the invocations follow one another. *)
Fixpoint worldBefore (k : nat) (w : W) : W :=
  match k with
  | O => w
  | S k' => worldBefore k' (snd (fn w))
  end.

(** What the [k]-th invocation of [fn] yields. *)
Definition invocation (k : nat) (w : W) : Outcome T :=
  fst (fn (worldBefore k w)).

End WithDbRetry.

(** ** wrapPoolWithRetry

    The pool object as the wrapper sees it: its [query] method and the
    hidden [RETRY_WRAPPED] marker.  An argument of a call is a plain value
    or a callback function. *)
Inductive Arg : Type :=
| Plain (v : Value)
| Callback.

Record Pool (W T : Type) : Type := mkPool {
  query : list Arg -> W -> Outcome T * W;
  retryWrapped : bool
}.

(** [typeof args[args.length - 1] === "function"]. *)
Definition lastIsFunction (args : list Arg) : bool :=
  match last args (Plain Undefined) with
  | Callback => true
  | Plain _ => false
  end.

(** What the promise returned by [withDbRetry] settles to.  The loop
    bound of [withDbRetry] always suffices, so the second case only
    completes the match. *)
Definition settled {W T : Type} (run : option (Run W T)) (w : W) : Outcome T * W :=
  match run with
  | Some r => (outcome r, world r)
  | None => (Rejected (newError "withDbRetry: unreachable"), w)
  end.

(** The pool after the call: [pool.query] replaced and the marker set,
    unless the marker was already there. *)
Definition wrapPoolWithRetry {W T : Type} (pool : Pool W T) : Pool W T :=
  if retryWrapped pool then pool
  else
    let originalQuery := query pool in
    mkPool
      (fun args w =>
         if lastIsFunction args then originalQuery args w
         else settled (withDbRetry (originalQuery args) None w) w)
      true.

End DbRetry.

(* ===================================================================== *)
(** * InteractionModel                                                     *)
(* ===================================================================== *)

Module Interaction.

Inductive Role : Type := user | assistant | tool | system.

(** The [content] payload of an interaction. *)
Record InteractionContent : Type := mkContent {
  role : Role;
  tool_call_id : option string;
  text : string
}.

(** A row of [interactionsTable]. *)
Record Row : Type := mkRow {
  id : string;
  chatId : string;
  content : InteractionContent;
  trusted : bool;
  blocked : bool;
  createdAt : Z
}.

Definition Table : Type := list Row.

(** [db.select().from(interactionsTable).where(cond)]. *)
Definition selectWhere (cond : Row -> bool) (db : Table) : list Row :=
  filter cond db.

(** [and(eq(chatId, chatId), eq(trusted, false))], then
    [untrustedInteractions.length === 0]. *)
Definition checkIfChatIsTrusted (chat : string) (db : Table) : bool :=
  let untrustedInteractions :=
    selectWhere (fun r => String.eqb (chatId r) chat && Bool.eqb (trusted r) false) db in
  Nat.eqb (List.length untrustedInteractions) 0.

(** [.orderBy(asc(createdAt))]: rows in ascending creation time, rows of
    equal time in the order the query met them. *)
Fixpoint insertByCreatedAt (r : Row) (sorted : list Row) : list Row :=
  match sorted with
  | [] => [r]
  | x :: rest =>
      if (createdAt r <=? createdAt x)%Z then r :: x :: rest
      else x :: insertByCreatedAt r rest
  end.

Definition orderByCreatedAt (rows : list Row) : list Row :=
  fold_right insertByCreatedAt [] rows.

Definition findByChatId (chat : string) (db : Table) : list Row :=
  orderByCreatedAt (selectWhere (fun r => String.eqb (chatId r) chat) db).

(** [Set.prototype.add]: a set keeps one copy, in insertion order. *)
Definition setAdd (x : string) (s : list string) : list string :=
  if existsb (String.eqb x) s then s else (s ++ [x])%list.

Definition isTool (r : Role) : bool :=
  match r with tool => true | _ => false end.

(** The loop of [getBlockedToolCallIds] over the interactions read. *)
Fixpoint collectBlocked (interactions : list Row) (blockedToolCallIds : list string)
  : list string :=
  match interactions with
  | [] => blockedToolCallIds
  | interaction :: rest =>
      if blocked interaction && isTool (role (content interaction)) then
        match tool_call_id (content interaction) with
        | Some toolCallId =>
            if Js.truthyString toolCallId
            then collectBlocked rest (setAdd toolCallId blockedToolCallIds)
            else collectBlocked rest blockedToolCallIds
        | None => collectBlocked rest blockedToolCallIds
        end
      else collectBlocked rest blockedToolCallIds
  end.

Definition getBlockedToolCallIds (chat : string) (db : Table) : list string :=
  collectBlocked (findByChatId chat db) [].

End Interaction.

(* ===================================================================== *)
(** * MemberModel                                                          *)
(* ===================================================================== *)

Module Member.

(** A row of [membersTable]. *)
Record Row : Type := mkRow {
  id : string;
  organizationId : string;
  userId : string;
  role : string;
  createdAt : Z
}.

Definition Table : Type := list Row.

(** [db.delete(membersTable).where(cond).returning()]. *)
Definition deleteWhere (cond : Row -> bool) (db : Table) : list Row * Table :=
  (filter cond db, filter (fun r => negb (cond r)) db).

(** [crypto.randomUUID()] and [new Date()] are the arguments [newId] and
    [now]. *)
Definition create (newId : string) (now : Z) (user organization memberRole : string)
           (db : Table) : list Row * Table :=
  let member := mkRow newId organization user memberRole now in
  ([member], (db ++ [member])%list).

Definition getByUserId (user : string) (db : Table) : option Row :=
  hd_error (filter (fun r => String.eqb (userId r) user) db).

Definition deleteByMemberOrUserId (memberIdOrUserId organization : string)
           (db : Table) : option Row * Table :=
  let '(deleted, db1) :=
    deleteWhere (fun r => String.eqb (id r) memberIdOrUserId) db in
  match deleted with
  | [] =>
      if Js.truthyString organization then
        let '(deleted2, db2) :=
          deleteWhere (fun r => String.eqb (userId r) memberIdOrUserId
                                && String.eqb (organizationId r) organization) db1 in
        (hd_error deleted2, db2)
      else (None, db1)
  | first :: _ => (Some first, db1)
  end.

End Member.

(* ===================================================================== *)
(** * SsoProviderModel                                                     *)
(* ===================================================================== *)

Module SsoProvider.
Import Js.

(** A row of [ssoProvidersTable]; nullable text columns are options. *)
Record Row : Type := mkRow {
  id : string;
  issuer : string;
  oidcConfig : option string;
  samlConfig : option string;
  userId : option string;
  providerId : string;
  organizationId : option string;
  domain : string
}.

Definition Table : Type := list Row.

(** [Partial<UpdateSsoProvider>]: the columns a caller may set; [None] is
    an absent key. *)
Record UpdateData : Type := mkUpdate {
  setIssuer : option string;
  setOidcConfig : option (option string);
  setSamlConfig : option (option string);
  setProviderId : option string;
  setDomain : option string
}.

(** The value of one field of an object returned by a query. *)
Inductive Field : Type :=
| FUndefined
| FNull
| FText (s : string)
| FJson (j : Json).

(** A JavaScript object: its own fields, in order. *)
Definition Obj : Type := list (string * Field).

Section Model.
(** [JSON.parse], which may throw. *)
Variable JSON_parse : string -> Outcome Json.

Definition nullable (c : option string) : Field :=
  match c with Some s => FText s | None => FNull end.

(** The columns of the table, as [schema.ssoProvidersTable] lists them. *)
Definition columns : list (string * (Row -> Field)) :=
  [ ("id", fun r => FText (id r));
    ("issuer", fun r => FText (issuer r));
    ("oidcConfig", fun r => nullable (oidcConfig r));
    ("samlConfig", fun r => nullable (samlConfig r));
    ("userId", fun r => nullable (userId r));
    ("providerId", fun r => FText (providerId r));
    ("organizationId", fun r => nullable (organizationId r));
    ("domain", fun r => FText (domain r)) ].

(** [db.select(projection).from(table)]: one object per row, with the
    projected fields only. *)
Definition project (projection : list (string * (Row -> Field))) (r : Row) : Obj :=
  map (fun '(name, col) => (name, col r)) projection.

Definition select (projection : list (string * (Row -> Field)))
           (rows : list Row) : list Obj :=
  map (project projection) rows.

(** SQL [eq(column, value)] on a nullable column: NULL matches nothing. *)
Definition eqNullable (c : option string) (v : string) : bool :=
  match c with Some x => String.eqb x v | None => false end.

(** [and(eq(id, id), eq(organizationId, organizationId))]. *)
Definition ownedBy (p o : string) (r : Row) : bool :=
  String.eqb (id r) p && eqNullable (organizationId r) o.

Definition findAllPublic (db : Table) : list Obj :=
  select [ ("id", fun r => FText (id r));
           ("providerId", fun r => FText (providerId r)) ] db.

(** [config ? JSON.parse(config) : undefined]. *)
Definition parseConfig (c : option string) : Outcome Field :=
  match c with
  | Some s =>
      if truthyString s then
        match JSON_parse s with
        | Resolved j => Resolved (FJson j)
        | Rejected e => Rejected e
        end
      else Resolved FUndefined
  | None => Resolved FUndefined
  end.

(** Object spread followed by an override of one key. *)
Fixpoint setField (name : string) (v : Field) (o : Obj) : Obj :=
  match o with
  | [] => [(name, v)]
  | (k, x) :: rest =>
      if String.eqb k name then (k, v) :: rest
      else (k, x) :: setField name v rest
  end.

(** [{ ...row, oidcConfig: parse(...), samlConfig: parse(...) }]. *)
Definition withParsedConfigs (r : Row) : Outcome Obj :=
  match parseConfig (oidcConfig r) with
  | Rejected e => Rejected e
  | Resolved oidc =>
      match parseConfig (samlConfig r) with
      | Rejected e => Rejected e
      | Resolved saml =>
          Resolved (setField "samlConfig" saml
                      (setField "oidcConfig" oidc (project columns r)))
      end
  end.

Definition findById (p o : string) (db : Table) : Outcome (option Obj) :=
  match filter (ownedBy p o) db with
  | [] => Resolved None
  | ssoProvider :: _ =>
      match withParsedConfigs ssoProvider with
      | Resolved obj => Resolved (Some obj)
      | Rejected e => Rejected e
      end
  end.

Definition orElse {A} (x : option A) (d : A) : A :=
  match x with Some v => v | None => d end.

(** [.set(data)] on one row. *)
Definition applyUpdate (data : UpdateData) (r : Row) : Row :=
  {| id := id r;
     issuer := orElse (setIssuer data) (issuer r);
     oidcConfig := orElse (setOidcConfig data) (oidcConfig r);
     samlConfig := orElse (setSamlConfig data) (samlConfig r);
     userId := userId r;
     providerId := orElse (setProviderId data) (providerId r);
     organizationId := organizationId r;
     domain := orElse (setDomain data) (domain r) |}.

(** [db.update(table).set(data).where(cond).returning()]. *)
Definition updateWhere (cond : Row -> bool) (data : UpdateData)
           (db : Table) : list Row * Table :=
  (map (applyUpdate data) (filter cond db),
   map (fun r => if cond r then applyUpdate data r else r) db).

(** [db.delete(table).where(cond).returning()]. *)
Definition deleteWhere (cond : Row -> bool) (db : Table) : list Row * Table :=
  (filter cond db, filter (fun r => negb (cond r)) db).

(** Whether [data] holds no key with a defined value.  The query
    builder's [.set(data)] throws on such an object before any statement
    is issued. *)
Definition setsNothing (data : UpdateData) : bool :=
  match data with
  | mkUpdate None None None None None => true
  | _ => false
  end.

Definition update (p : string) (data : UpdateData) (o : string)
           (db : Table) : Outcome (option Obj) * Table :=
  match findById p o db with
  | Rejected e => (Rejected e, db)
  | Resolved None => (Resolved None, db)
  | Resolved (Some existingProvider) =>
      if setsNothing data then (Rejected (newError "No values to set"), db)
      else
        let '(returned, db') := updateWhere (ownedBy p o) data db in
        match returned with
        | [] => (Resolved None, db')
        | updatedProvider :: _ =>
            match withParsedConfigs updatedProvider with
            | Resolved obj => (Resolved (Some obj), db')
            | Rejected e => (Rejected e, db')
            end
        end
  end.

Definition delete (p o : string) (db : Table) : Outcome bool * Table :=
  match findById p o db with
  | Rejected e => (Rejected e, db)
  | Resolved None => (Resolved false, db)
  | Resolved (Some existingProvider) =>
      let '(deleted, db') := deleteWhere (ownedBy p o) db in
      (Resolved (Nat.ltb 0 (List.length deleted)), db')
  end.

(** [obj[name]]: the value of an own field, if the object has it. *)
Fixpoint getField (name : string) (o : Obj) : option Field :=
  match o with
  | [] => None
  | (k, x) :: rest => if String.eqb k name then Some x else getField name rest
  end.

(** [rows.map((provider) => ({ ...provider, oidcConfig, samlConfig }))]:
    the first [JSON.parse] that throws rejects the whole call. *)
Fixpoint parseAll (rows : list Row) : Outcome (list Obj) :=
  match rows with
  | [] => Resolved []
  | provider :: rest =>
      match withParsedConfigs provider with
      | Rejected e => Rejected e
      | Resolved obj =>
          match parseAll rest with
          | Rejected e => Rejected e
          | Resolved objs => Resolved (obj :: objs)
          end
      end
  end.

(** [where(eq(organizationId, organizationId))]. *)
Definition inOrganization (o : string) (r : Row) : bool :=
  eqNullable (organizationId r) o.

Definition findAll (o : string) (db : Table) : Outcome (list Obj) :=
  parseAll (filter (inOrganization o) db).

End Model.

End SsoProvider.

(* ===================================================================== *)
(** * OrganizationModel and the organization routes                        *)
(* ===================================================================== *)

Module Organization.
Import Js.

(** A row of [organizationsTable], with the appearance columns. *)
Record Row : Type := mkRow {
  id : string;
  name : string;
  slug : string;
  logo : option string;
  logoType : option string;
  createdAt : Z;
  metadata : option string;
  limitCleanupInterval : option string;
  theme : string;
  customFont : string
}.

Definition Table : Type := list Row.

(** [Partial<UpdateOrganization>]: an outer [None] is an absent key, an
    inner [None] is [null].  [setLogoType] is only ever filled by the
    appearance routes. *)
Record UpdateOrganization : Type := mkUpdate {
  setTheme : option string;
  setCustomFont : option string;
  setLimitCleanupInterval : option (option string);
  setLogo : option (option string);
  setLogoType : option string
}.

Definition orElse {A} (x : option A) (d : A) : A :=
  match x with Some v => v | None => d end.

(** [.set(data)] on one row. *)
Definition applySet (data : UpdateOrganization) (r : Row) : Row :=
  {| id := id r;
     name := name r;
     slug := slug r;
     logo := orElse (setLogo data) (logo r);
     logoType := match setLogoType data with Some t => Some t | None => logoType r end;
     createdAt := createdAt r;
     metadata := metadata r;
     limitCleanupInterval := orElse (setLimitCleanupInterval data) (limitCleanupInterval r);
     theme := orElse (setTheme data) (theme r);
     customFont := orElse (setCustomFont data) (customFont r) |}.

(** [db.update(organizationsTable).set(data).where(eq(id, id)).returning()]. *)
Definition updateById (i : string) (data : UpdateOrganization)
           (db : Table) : list Row * Table :=
  (map (applySet data) (filter (fun r => String.eqb (id r) i) db),
   map (fun r => if String.eqb (id r) i then applySet data r else r) db).

Definition PNG_PREFIX : string := "data:image/png;base64,".

(** [const maxSize = 2.66 * 1024 * 1024], as a rational.  The double the
    source computes lies, like this rational, strictly between 2789212
    and 2789213, so a length (an integer) exceeds the one exactly when
    it exceeds the other. *)
Definition maxSize : Q := (2.66 * 1024 * 1024)%Q.

(** [logo.length > maxSize]. *)
Definition exceedsMaxSize (logo : string) : bool :=
  negb (Qle_bool (inject_Z (Z.of_nat (String.length logo))) maxSize).

(** The organization [select().limit(1)] returns, or a freshly inserted
    default one; [now] is [new Date()].  The select carries no ORDER BY:
    the head of the list stands for the row the database returns in the
    state at hand, and which row that is may change when a row is
    updated.  A table of at most one row leaves no choice. *)
Definition getOrCreateDefaultOrganization (now : Z) (db : Table) : Row * Table :=
  match db with
  | existingOrg :: _ => (existingOrg, db)
  | [] =>
      let createdOrg :=
        {| id := "default-org"; name := "Default Organization"; slug := "default";
           logo := None; logoType := None; createdAt := now; metadata := None;
           limitCleanupInterval := Some "1h"; theme := "cosmic-night";
           customFont := "lato" |} in
      (createdOrg, [createdOrg])
  end.

(** Whether [data] holds no key with a defined value.  The query
    builder's [.set(data)] throws on such an object before any statement
    is issued. *)
Definition setsNothing (data : UpdateOrganization) : bool :=
  match data with
  | mkUpdate None None None None None => true
  | _ => false
  end.

Definition patch (i : string) (data : UpdateOrganization)
           (db : Table) : Outcome (option Row) * Table :=
  let validation :=
    match setLogo data with
    | Some (Some logo) =>
        if truthyString logo then
          if negb (startsWith logo PNG_PREFIX)
          then Some (newError "Logo must be a PNG image in base64 format")
          else if exceedsMaxSize logo
               then Some (newError "Logo must be less than 2MB")
               else None
        else None
    | _ => None
    end in
  match validation with
  | Some e => (Rejected e, db)
  | None =>
      if setsNothing data then (Rejected (newError "No values to set"), db)
      else
        let '(returned, db') := updateById i data db in
        (Resolved (hd_error returned), db')
  end.

Definition getById (i : string) (db : Table) : option Row :=
  hd_error (filter (fun r => String.eqb (id r) i) db).

(** Modelled from the spec: [OrganizationModel.updateAppearance] is
    called by the appearance and logo routes but its body is not part of
    the sources.  Per the spec the appearance routes update the theme,
    font, logo and logo type of the organization and answer with the
    updated record, or fail when there is none. *)
Definition updateAppearance (i : string) (data : UpdateOrganization)
           (db : Table) : option Row * Table :=
  let '(returned, db') := updateById i data db in
  (hd_error returned, db').

(** ** Routes *)

Record User : Type := mkUser { isAdmin : bool }.

Inductive ReplyBody : Type :=
| ErrorResponse (message : string) (type : string)
| LogoUploaded (success : bool) (logo : option string)
| OrganizationBody (organization : Row).

Record Reply : Type := mkReply { status : Z; body : ReplyBody }.

(** [reply.send(payload)] answers 200 unless a status was set. *)
Definition send (payload : ReplyBody) : Reply := mkReply 200 payload.

(** The handlers' [catch (error)] clause. *)
Definition internalError (error : Value) : Reply :=
  mkReply 500 (ErrorResponse (messageOr "Internal server error" error) "api_error").

(** [updatedOrg.logo || null]. *)
Definition logoOrNull (l : option string) : option string :=
  match l with
  | Some s => if truthyString s then Some s else None
  | None => None
  end.

(** POST /api/organization/logo.  [user] is what
    [getUserFromRequest(request)] settles to. *)
Definition uploadLogo (user : Outcome (option User)) (logo : string)
           (now : Z) (db : Table) : Reply * Table :=
  match user with
  | Rejected error => (internalError error, db)
  | Resolved None => (mkReply 401 (ErrorResponse "Unauthorized" "unauthorized"), db)
  | Resolved (Some u) =>
      if negb (isAdmin u) then
        (mkReply 403 (ErrorResponse "Forbidden: Admin access required" "forbidden"), db)
      else if negb (startsWith logo PNG_PREFIX) then
        (mkReply 400 (ErrorResponse "Logo must be a PNG image in base64 format"
                                    "validation_error"), db)
      else if exceedsMaxSize logo then
        (mkReply 400 (ErrorResponse "Logo must be less than 2MB" "validation_error"), db)
      else
        let '(organization, db1) := getOrCreateDefaultOrganization now db in
        let '(updatedOrg, db2) :=
          updateAppearance (id organization)
            (mkUpdate None None None (Some (Some logo)) (Some "custom")) db1 in
        match updatedOrg with
        | None => (mkReply 500 (ErrorResponse "Failed to upload logo" "api_error"), db2)
        | Some o => (send (LogoUploaded true (logoOrNull (Organization.logo o))), db2)
        end
  end.

(** PATCH /api/organization. *)
Definition patchOrganization (organizationId : string) (body : UpdateOrganization)
           (db : Table) : Reply * Table :=
  match patch organizationId body db with
  | (Rejected error, db') => (internalError error, db')
  | (Resolved None, db') =>
      (mkReply 404 (ErrorResponse "Organization not found" "not_found"), db')
  | (Resolved (Some organization), db') => (send (OrganizationBody organization), db')
  end.

(** ** Appearance routes and GET /api/organization *)

Inductive AppearanceBody : Type :=
| AppearanceError (message : string) (type : string)
| Appearance (appearanceTheme appearanceFont appearanceLogoType : string)
             (appearanceLogo : option string)
| Success (success : bool).

Record AppearanceReply : Type :=
  mkAppearanceReply { appearanceStatus : Z; appearanceBody : AppearanceBody }.

(** [a || b] on a string column. *)
Definition orDefault (a b : string) : string :=
  if truthyString a then a else b.

Definition orDefaultOpt (a : option string) (b : string) : string :=
  match a with Some s => orDefault s b | None => b end.

Definition appearanceError (error : Value) : AppearanceReply :=
  mkAppearanceReply 500
    (AppearanceError (messageOr "Internal server error" error) "api_error").

(** GET /api/organization/appearance. *)
Definition getAppearance (user : Outcome (option User)) (now : Z) (db : Table)
  : AppearanceReply * Table :=
  match user with
  | Rejected error => (appearanceError error, db)
  | Resolved None =>
      (mkAppearanceReply 401 (AppearanceError "Unauthorized" "unauthorized"), db)
  | Resolved (Some _) =>
      let '(organization, db1) := getOrCreateDefaultOrganization now db in
      (mkAppearanceReply 200
         (Appearance (orDefault (theme organization) "cosmic-night")
                     (orDefault (customFont organization) "lato")
                     (orDefaultOpt (logoType organization) "default")
                     (logoOrNull (logo organization))),
       db1)
  end.

(** PUT /api/organization/appearance. *)
Definition putAppearance (user : Outcome (option User)) (body : UpdateOrganization)
           (now : Z) (db : Table) : AppearanceReply * Table :=
  match user with
  | Rejected error => (appearanceError error, db)
  | Resolved None =>
      (mkAppearanceReply 401 (AppearanceError "Unauthorized" "unauthorized"), db)
  | Resolved (Some u) =>
      if negb (isAdmin u) then
        (mkAppearanceReply 403
           (AppearanceError "Forbidden: Admin access required" "forbidden"), db)
      else
        let '(organization, db1) := getOrCreateDefaultOrganization now db in
        let '(updatedOrg, db2) := updateAppearance (id organization) body db1 in
        match updatedOrg with
        | None =>
            (mkAppearanceReply 500
               (AppearanceError "Failed to update organization" "api_error"), db2)
        | Some o =>
            (mkAppearanceReply 200
               (Appearance (orDefault (theme o) "cosmic-night")
                           (orDefault (customFont o) "lato")
                           (orDefaultOpt (logoType o) "default")
                           (logo o)),
             db2)
        end
  end.

(** DELETE /api/organization/logo. *)
Definition deleteLogo (user : Outcome (option User)) (now : Z) (db : Table)
  : AppearanceReply * Table :=
  match user with
  | Rejected error => (appearanceError error, db)
  | Resolved None =>
      (mkAppearanceReply 401 (AppearanceError "Unauthorized" "unauthorized"), db)
  | Resolved (Some u) =>
      if negb (isAdmin u) then
        (mkAppearanceReply 403
           (AppearanceError "Forbidden: Admin access required" "forbidden"), db)
      else
        let '(organization, db1) := getOrCreateDefaultOrganization now db in
        let '(updatedOrg, db2) :=
          updateAppearance (id organization)
            (mkUpdate None None None (Some None) (Some "default")) db1 in
        match updatedOrg with
        | None =>
            (mkAppearanceReply 500
               (AppearanceError "Failed to delete logo" "api_error"), db2)
        | Some _ => (mkAppearanceReply 200 (Success true), db2)
        end
  end.

(** GET /api/organization. *)
Definition getOrganization (organizationId : string) (db : Table) : Reply :=
  match getById organizationId db with
  | None => mkReply 404 (ErrorResponse "Organization not found" "not_found")
  | Some organization => send (OrganizationBody organization)
  end.

End Organization.

(* ===================================================================== *)
(** * A2A protocol routes                                                  *)
(* ===================================================================== *)

Module A2A.
Import Js.

Record Prompt : Type := mkPrompt {
  promptId : string;
  agentId : string;
  promptName : string;
  systemPrompt : option string;
  userPrompt : option string;
  version : Z
}.

Record Agent : Type := mkAgent { agentIdOf : string; agentName : string }.

Record User : Type := mkUser { userIdOf : string }.

(** What [validateMCPGatewayToken] resolves a token to. *)
Record TokenAuth : Type := mkTokenAuth {
  organizationId : string;
  userId : option string
}.

(** The request headers the handlers read. *)
Record Request : Type := mkRequest {
  authorization : option string;
  forwardedProto : option string;
  host : option string
}.

(** [A2AMessagePartSchema]: [kind] is the literal "text". *)
Inductive PartKind : Type := text.
Record MessagePart : Type := mkPart { kind : PartKind; partText : string }.

Inductive RpcId : Type := IdString (s : string) | IdNumber (n : Z).

(** [A2AJsonRpcRequestSchema], every optional level as an option. *)
Record Message : Type := mkMessage { parts : option (list MessagePart) }.
Record Params : Type := mkParams { message : option Message }.
Record JsonRpcRequest : Type := mkRpcRequest {
  rpcId : RpcId;
  method : string;
  params : option Params
}.

Inductive MessageRole : Type := roleUser | roleAgent.

Record A2AMessage : Type := mkA2AMessage {
  messageId : string;
  role : MessageRole;
  messageParts : list MessagePart
}.

Record RpcError : Type := mkRpcError { code : Z; errorMessage : string }.

(** [A2AJsonRpcResponseSchema], together with the HTTP status of the
    reply that carries it. *)
Record JsonRpcReply : Type := mkRpcReply {
  status : Z;
  replyId : RpcId;
  result : option A2AMessage;
  error : option RpcError
}.

Record Skill : Type := mkSkill {
  skillId : string;
  skillName : string;
  skillDescription : string;
  tags : list string;
  inputModes : list string;
  outputModes : list string
}.

Record Capabilities : Type := mkCapabilities {
  streaming : bool;
  pushNotifications : bool;
  stateTransitionHistory : bool
}.

(** [A2AAgentCardSchema]; [cardVersion] is [String(prompt.version)], kept
    as the number it prints. *)
Record AgentCard : Type := mkAgentCard {
  cardName : string;
  description : string;
  url : string;
  cardVersion : Z;
  capabilities : Capabilities;
  defaultInputModes : list string;
  defaultOutputModes : list string;
  skills : list Skill
}.

(** A handler either sends a reply or throws an [ApiError]. *)
Inductive Handled (A : Type) : Type :=
| Sent (reply : A)
| ApiError (statusCode : Z) (message : string).
Arguments Sent {A} reply.
Arguments ApiError {A} statusCode message.

(** Modelled from the spec: the error handler that turns a thrown
    [ApiError] into a response is not part of the sources; per the spec
    a missing prompt or agent is answered 404 and a missing or invalid
    token 401, that is, with the status code the error carries.  A sent
    AgentCard is answered 200. *)
Definition responseStatus {A : Type} (h : Handled A) : Z :=
  match h with
  | Sent _ => 200
  | ApiError statusCode _ => statusCode
  end.

Definition responseMessage {A : Type} (h : Handled A) : option string :=
  match h with
  | Sent _ => None
  | ApiError _ message => Some message
  end.

(** [a || b] on optional strings: the first truthy one. *)
Definition orString (a : option string) (b : string) : string :=
  match a with
  | Some s => if truthyString s then s else b
  | None => b
  end.

Definition truthyOpt (a : option string) : bool :=
  match a with Some s => truthyString s | None => false end.

Section Routes.
(** The collaborators of the routes: model lookups, the MCP gateway
    token utilities and the LLM execution services. *)
Variable endpoint : string.
Variable defaultModel : string.
Variable PromptModel_findById : string -> option Prompt.
Variable AgentModel_findById : string -> option Agent.
Variable UserModel_getById : string -> option User.
Variable extractBearerToken : Request -> option string.
Variable validateMCPGatewayToken : string -> string -> option TokenAuth.
Variables Tools Model : Type.
Variable getChatMcpTools : string -> string -> string -> bool -> Outcome Tools.
Variable createLLMModelForAgent : string -> string -> string -> string -> Outcome Model.
(** [streamText(...)] followed by the awaits of its text, usage and
    finish reason. *)
Variable streamText : Model -> option string -> string -> Tools -> Outcome string.
(** The generated [msg-<time>-<random>] identifier. *)
Variable newMessageId : string.

(** GET {endpoint}/:promptId/.well-known/agent.json *)
Definition getAgentCard (request : Request) (pid : string) : Handled AgentCard :=
  match PromptModel_findById pid with
  | None => ApiError 404 "Prompt not found"
  | Some prompt =>
      match AgentModel_findById (agentId prompt) with
      | None => ApiError 404 "Agent not found for prompt"
      | Some agent =>
          match extractBearerToken request with
          | None =>
              ApiError 401 "Authorization header required. Use: Bearer <archestra_token>"
          | Some token =>
              match validateMCPGatewayToken (agentIdOf agent) token with
              | None => ApiError 401 "Invalid or unauthorized token"
              | Some _ =>
                  let protocol := orString (forwardedProto request) "http" in
                  let hostName := orString (host request) "localhost:9000" in
                  let baseUrl := protocol ++ "://" ++ hostName in
                  Sent {| cardName := promptName prompt;
                          description :=
                            orString (systemPrompt prompt)
                                     (orString (userPrompt prompt) "");
                          url := baseUrl ++ endpoint ++ "/" ++ promptId prompt;
                          cardVersion := version prompt;
                          capabilities := mkCapabilities false false false;
                          defaultInputModes := ["text"];
                          defaultOutputModes := ["text"];
                          skills :=
                            [ {| skillId := promptId prompt ++ "-skill";
                                 skillName := promptName prompt;
                                 skillDescription :=
                                   orString (userPrompt prompt) "";
                                 tags := [];
                                 inputModes := ["text"];
                                 outputModes := ["text"] |} ] |}
              end
          end
      end
  end.

(** [reply.send({ jsonrpc: "2.0", id, error: { code, message } })]. *)
Definition sendError (i : RpcId) (c : Z) (m : string) : JsonRpcReply :=
  mkRpcReply 200 i None (Some (mkRpcError c m)).

(** [reply.send({ jsonrpc: "2.0", id, result })]. *)
Definition sendResult (i : RpcId) (m : A2AMessage) : JsonRpcReply :=
  mkRpcReply 200 i (Some m) None.

(** [params?.message?.parts?.filter(kind === "text").map(text).join("\n") || ""]. *)
Definition userMessageOf (body : JsonRpcRequest) : string :=
  match params body with
  | Some p =>
      match message p with
      | Some m =>
          match parts m with
          | Some ps =>
              join (String "010"%char "")
                   (map partText
                        (filter (fun p => match kind p with text => true end) ps))
          | None => ""
          end
      | None => ""
      end
  | None => ""
  end.

(** The combined system prompt: both fields, when truthy, joined by a
    blank line. *)
Definition buildSystemPrompt (prompt : Prompt) : option string :=
  let systemPromptParts :=
    if truthyOpt (systemPrompt prompt) then [orString (systemPrompt prompt) ""] else [] in
  let userPromptParts :=
    if truthyOpt (userPrompt prompt) then [orString (userPrompt prompt) ""] else [] in
  match (systemPromptParts ++ userPromptParts)%list with
  | [] => None
  | allParts => Some (join (String "010"%char (String "010"%char "")) allParts)
  end.

(** The body of the [try] block: what it resolves to or throws. *)
Definition execute (prompt : Prompt) (agent : Agent) (uid org userMessage : string)
  : Outcome string :=
  match getChatMcpTools (agentName agent) (agentIdOf agent) uid true with
  | Rejected e => Rejected e
  | Resolved mcpTools =>
      match createLLMModelForAgent org uid (agentIdOf agent) defaultModel with
      | Rejected e => Rejected e
      | Resolved model =>
          streamText model (buildSystemPrompt prompt) userMessage mcpTools
      end
  end.

(** POST {endpoint}/:promptId *)
Definition executeMessage (request : Request) (pid : string)
           (body : JsonRpcRequest) : JsonRpcReply :=
  let i := rpcId body in
  match PromptModel_findById pid with
  | None => sendError i (-32602) "Prompt not found"
  | Some prompt =>
      match AgentModel_findById (agentId prompt) with
      | None => sendError i (-32602) "Agent not found for prompt"
      | Some agent =>
          match extractBearerToken request with
          | None =>
              sendError i (-32600)
                "Authorization header required. Use: Bearer <archestra_token>"
          | Some token =>
              match validateMCPGatewayToken (agentIdOf agent) token with
              | None => sendError i (-32600) "Invalid or unauthorized token"
              | Some tokenAuth =>
                  let resolvedUser :=
                    match userId tokenAuth with
                    | Some uid =>
                        if truthyString uid then
                          match UserModel_getById uid with
                          | Some _ => Some uid
                          | None => None
                          end
                        else Some "system"
                    | None => Some "system"
                    end in
                  match resolvedUser with
                  | None => sendError i (-32600) "User not found for token"
                  | Some uid =>
                      let userMessage := userMessageOf body in
                      if negb (truthyString userMessage) then
                        sendError i (-32602) "No message content provided"
                      else
                        match execute prompt agent uid (organizationId tokenAuth)
                                      userMessage with
                        | Resolved finalText =>
                            sendResult i
                              {| messageId := newMessageId;
                                 role := roleAgent;
                                 messageParts := [mkPart text finalText] |}
                        | Rejected e =>
                            sendError i (-32603) (messageOr "Internal error" e)
                        end
                  end
              end
          end
      end
  end.

End Routes.

End A2A.

(* ===================================================================== *)
(** * Secret encryption (utils/crypto)                                     *)
(* ===================================================================== *)

Module Crypto.
Import Js.

(** The primitives the module obtains from the runtime: key derivation,
    an authenticated cipher, the base64url codec and the JSON codec.
    [cipherDecrypt] answers [None] when the authentication tag does not
    verify. *)
Class Runtime : Type := {
  Key : Type;
  deriveKey : string -> Key;
  cipherEncrypt : Key -> string -> string -> string * string;
  cipherDecrypt : Key -> string -> string -> string -> option string;
  base64url : string -> string;
  base64urlDecode : string -> string;
  JSON_stringify : Json -> string;
  JSON_parse : string -> Outcome Json
}.

(** [String.prototype.split] on a one-character separator. *)
Fixpoint split (sep : ascii) (s : string) : list string :=
  match s with
  | EmptyString => [""]
  | String c rest =>
      if Ascii.eqb c sep then "" :: split sep rest
      else match split sep rest with
           | segment :: segments => String c segment :: segments
           | [] => [String c ""]
           end
  end.

Definition colon : ascii := ":"%char.

Section WithRuntime.
Context {runtime : Runtime}.

(** Modelled from the spec: [deriveKeyFromSecret] is not part of the
    sources; it deterministically derives the symmetric key from the
    secret string. *)
Definition deriveKeyFromSecret (secret : string) : Key := deriveKey secret.

(** Modelled from the spec: [encryptSecretValueWithKey] is not part of the
    sources.  It serializes the object to JSON, encrypts it under [key]
    with the initialization vector drawn for this call and returns
    [{ __encrypted: "v1:<iv>:<authTag>:<ciphertext>" }], every component
    base64url-encoded. *)
Definition envelope (iv authTag ciphertext : string) : string :=
  "v1:" ++ base64url iv ++ ":" ++ base64url authTag ++ ":" ++ base64url ciphertext.

Definition encryptSecretValueWithKey (plaintext : Json) (key : Key) (iv : string) : Json :=
  let '(ciphertext, authTag) := cipherEncrypt key iv (JSON_stringify plaintext) in
  JObject [("__encrypted", JString (envelope iv authTag ciphertext))].

(** Modelled from the spec: [decryptSecretValueWithKey] is not part of the
    sources.  It splits the string into exactly four colon-delimited
    parts; any other shape, or a version tag other than [v1], fails with
    "Invalid encrypted secret format"; a ciphertext or tag that does not
    verify raises an error. *)
Definition decryptEnvelope (s : string) (key : Key) : Outcome Json :=
  match split colon s with
  | [version; iv; authTag; ciphertext] =>
      if String.eqb version "v1" then
        match cipherDecrypt key (base64urlDecode iv) (base64urlDecode authTag)
                            (base64urlDecode ciphertext) with
        | Some plaintext => JSON_parse plaintext
        | None => Rejected (newError "Unsupported state or unable to authenticate data")
        end
      else Rejected (newError "Invalid encrypted secret format")
  | _ => Rejected (newError "Invalid encrypted secret format")
  end.

Definition decryptSecretValueWithKey (wrapper : Json) (key : Key) : Outcome Json :=
  match wrapper with
  | JObject [("__encrypted", JString s)] => decryptEnvelope s key
  | _ => Rejected (newError "Invalid encrypted secret format")
  end.

(** Modelled from the spec: [isEncryptedSecret] is not part of the
    sources.  It is true only for values of the exact shape
    [{ __encrypted: string }] whose string begins with [v1:]. *)
Definition isEncryptedSecret (value : Json) : bool :=
  match value with
  | JObject [(field, JString s)] => String.eqb field "__encrypted" && startsWith s "v1:"
  | _ => false
  end.

(** Modelled from the spec: the ambient-key wrappers [encryptSecretValue]
    and [decryptSecretValue] are not part of the sources.  They use the
    key derived from the configured [ARCHESTRA_AUTH_SECRET] and fail with
    "ARCHESTRA_AUTH_SECRET is required" when none is configured. *)
Definition getKey (configSecret : option string) : Outcome Key :=
  match configSecret with
  | Some secret =>
      if truthyString secret then Resolved (deriveKeyFromSecret secret)
      else Rejected (newError "ARCHESTRA_AUTH_SECRET is required")
  | None => Rejected (newError "ARCHESTRA_AUTH_SECRET is required")
  end.

Definition encryptSecretValue (configSecret : option string) (plaintext : Json)
           (iv : string) : Outcome Json :=
  match getKey configSecret with
  | Resolved key => Resolved (encryptSecretValueWithKey plaintext key iv)
  | Rejected e => Rejected e
  end.

Definition decryptSecretValue (configSecret : option string) (wrapper : Json)
  : Outcome Json :=
  match getKey configSecret with
  | Resolved key => decryptSecretValueWithKey wrapper key
  | Rejected e => Rejected e
  end.

End WithRuntime.

End Crypto.

(* ===================================================================== *)
(** * Key rotation script (rotate-secret-encryption-key)                   *)
(* ===================================================================== *)

Module Rotate.
Import Js Crypto.

(** A row of [secretsTable]. *)
Record Row : Type := mkRow {
  id : string;
  name : string;
  secret : Json
}.

(** What the database sees of a run: the statements, in order. *)
Inductive Event : Type :=
| Select
| Begin
| Update (rowId : string)
| Commit
| Rollback.

Record Database : Type := mkDatabase {
  secretsTable : list Row;
  statements : list Event
}.

Record Counts : Type := mkCounts {
  total : nat;
  reEncrypted : nat;
  newlyEncrypted : nat
}.

(** [tx.update(secretsTable).set({ secret }).where(eq(id, rowId))]. *)
Definition setSecret (rowId : string) (encrypted : Json) (table : list Row) : list Row :=
  map (fun r => if String.eqb (id r) rowId then mkRow (id r) (name r) encrypted else r)
      table.

Section WithRuntime.
Context {runtime : Runtime}.

(** The [dryRun] loop over the rows read: decrypt to verify, count. *)
Fixpoint verifyRows (oldKey : Key) (rows : list Row) (re nw : nat)
  : Outcome (nat * nat) :=
  match rows with
  | [] => Resolved (re, nw)
  | row :: rest =>
      if isEncryptedSecret (secret row) then
        match decryptSecretValueWithKey (secret row) oldKey with
        | Rejected e => Rejected e
        | Resolved _ => verifyRows oldKey rest (S re) nw
        end
      else verifyRows oldKey rest re (S nw)
  end.

(** The loop inside the transaction.  [ivs n] is the initialization vector
    of the [n]-th encryption of the run; [table] and [log] are the state
    of the transaction so far. *)
Fixpoint rotateRows (oldKey newKey : Key) (ivs : nat -> string) (n : nat)
         (rows : list Row) (table : list Row) (log : list Event) (re nw : nat)
  : Outcome (nat * nat) * list Row * list Event :=
  match rows with
  | [] => (Resolved (re, nw), table, log)
  | row :: rest =>
      let step (plaintext : Json) (re' nw' : nat) :=
        let encrypted := encryptSecretValueWithKey plaintext newKey (ivs n) in
        rotateRows oldKey newKey ivs (S n) rest
                   (setSecret (id row) encrypted table)
                   (log ++ [Update (id row)])%list re' nw' in
      if isEncryptedSecret (secret row) then
        match decryptSecretValueWithKey (secret row) oldKey with
        | Rejected e => (Rejected e, table, log)
        | Resolved plaintext => step plaintext (S re) nw
        end
      else step (secret row) re (S nw)
  end.

(** [db.transaction(callback)]: the callback's writes are kept when it
    returns and undone when it throws, and the error is rethrown. *)
Definition transaction {A : Type}
           (callback : list Row -> list Event -> Outcome A * list Row * list Event)
           (db : Database) : Outcome A * Database :=
  match callback (secretsTable db) (statements db ++ [Begin])%list with
  | (Resolved a, table', log') => (Resolved a, mkDatabase table' (log' ++ [Commit])%list)
  | (Rejected e, _, log') => (Rejected e, mkDatabase (secretsTable db) (log' ++ [Rollback])%list)
  end.

Definition rotateSecretEncryptionKey (oldSecret newSecret : string) (dryRun : bool)
           (ivs : nat -> string) (db : Database) : Outcome Counts * Database :=
  if String.eqb oldSecret newSecret then
    (Rejected (newError "Old and new secrets are identical — nothing to rotate."), db)
  else
    let oldKey := deriveKeyFromSecret oldSecret in
    let newKey := deriveKeyFromSecret newSecret in
    let rows := secretsTable db in
    let db1 := mkDatabase (secretsTable db) (statements db ++ [Select])%list in
    if dryRun then
      match verifyRows oldKey rows 0 0 with
      | Rejected e => (Rejected e, db1)
      | Resolved (re, nw) => (Resolved (mkCounts (List.length rows) re nw), db1)
      end
    else
      match transaction (fun table log => rotateRows oldKey newKey ivs 0 rows table log 0 0)
                        db1 with
      | (Rejected e, db2) => (Rejected e, db2)
      | (Resolved (re, nw), db2) =>
          (Resolved (mkCounts (List.length rows) re nw), db2)
      end.

End WithRuntime.

(** ** The command-line entry point *)

(** The environment variables the script reads. *)
Record Env : Type := mkEnv {
  OLD_ARCHESTRA_AUTH_SECRET : option string;
  ARCHESTRA_AUTH_SECRET : option string;
  DRY_RUN : option string
}.

(** [process.env.DRY_RUN === "true"]. *)
Definition dryRunOf (env : Env) : bool :=
  match DRY_RUN env with
  | Some value => String.eqb value "true"
  | None => false
  end.

(** The block run when the file is the entry script: the exit code and
    the database it leaves.  [initializeDatabase] is what the call of that
    name settles to; what is written to the console is left out. *)
Definition main {runtime : Runtime} (argv : list string) (env : Env)
           (initializeDatabase : Outcome unit) (ivs : nat -> string)
           (db : Database) : Z * Database :=
  if existsb (String.eqb "--help") argv || existsb (String.eqb "-h") argv
  then (0%Z, db)
  else
    match OLD_ARCHESTRA_AUTH_SECRET env with
    | None => (1%Z, db)
    | Some oldSecret =>
        if negb (truthyString oldSecret) then (1%Z, db)
        else
          match ARCHESTRA_AUTH_SECRET env with
          | None => (1%Z, db)
          | Some newSecret =>
              if negb (truthyString newSecret) then (1%Z, db)
              else
                match initializeDatabase with
                | Rejected _ => (1%Z, db)
                | Resolved _ =>
                    match rotateSecretEncryptionKey oldSecret newSecret (dryRunOf env)
                                                    ivs db with
                    | (Resolved _, db') => (0%Z, db')
                    | (Rejected _, db') => (1%Z, db')
                    end
                end
          end
    end.

End Rotate.

(* ===================================================================== *)
(** * SecretModel                                                          *)
(* ===================================================================== *)

Module SecretModel.
Import Js Crypto Rotate.

(** JavaScript truthiness of a JSON value, as in [input.secret ? ... : ...]. *)
Definition truthyJson (value : Json) : bool :=
  match value with
  | JNull => false
  | JBool b => b
  | JNumber n => negb (Z.eqb n 0)
  | JString s => truthyString s
  | JArray _ => true
  | JObject _ => true
  end.

(** [UpdateSecret]: the columns an update may set. *)
Record UpdateSecret : Type := mkUpdateSecret {
  setName : option string;
  setSecretValue : option Json
}.

(** Whether [values] holds no key with a defined value.  The query
    builder's [.set(values)] throws on such an object before any
    statement is issued. *)
Definition setsNothing (values : UpdateSecret) : bool :=
  match values with
  | mkUpdateSecret None None => true
  | _ => false
  end.

(** [.set(values)] on one row. *)
Definition applyValues (values : UpdateSecret) (r : Row) : Row :=
  mkRow (id r)
        (match setName values with Some n => n | None => name r end)
        (match setSecretValue values with Some s => s | None => secret r end).

Section WithRuntime.
Context {runtime : Runtime}.
(** The configured [ARCHESTRA_AUTH_SECRET]. *)
Variable configSecret : option string.

(** [decryptSecretRow] on a row that is there. *)
Definition decryptRow (r : Row) : Outcome Row :=
  if isEncryptedSecret (secret r) then
    match decryptSecretValue configSecret (secret r) with
    | Resolved plaintext => Resolved (mkRow (id r) (name r) plaintext)
    | Rejected e => Rejected e
    end
  else Resolved r.

(** [if (!row) return row], then as above. *)
Definition decryptSecretRow (row : option Row) : Outcome (option Row) :=
  match row with
  | None => Resolved None
  | Some r =>
      match decryptRow r with
      | Resolved decrypted => Resolved (Some decrypted)
      | Rejected e => Rejected e
      end
  end.

Definition findById (i : string) (table : list Row) : Outcome (option Row) :=
  decryptSecretRow (hd_error (filter (fun r => String.eqb (id r) i) table)).

Definition findByName (n : string) (table : list Row) : Outcome (option Row) :=
  decryptSecretRow (hd_error (filter (fun r => String.eqb (name r) n) table)).

(** [rows.map((row) => decryptSecretRow(row))]: the first row that fails
    to decrypt throws. *)
Fixpoint decryptRows (rows : list Row) : Outcome (list Row) :=
  match rows with
  | [] => Resolved []
  | row :: rest =>
      match decryptRow row with
      | Rejected e => Rejected e
      | Resolved decrypted =>
          match decryptRows rest with
          | Rejected e => Rejected e
          | Resolved others => Resolved (decrypted :: others)
          end
      end
  end.

Definition findByIds (ids : list string) (table : list Row) : Outcome (list Row) :=
  match ids with
  | [] => Resolved []
  | _ => decryptRows (filter (fun r => existsb (String.eqb (id r)) ids) table)
  end.

(** [iv] is the initialization vector drawn if the secret is encrypted. *)
Definition update (i : string) (input : UpdateSecret) (iv : string)
           (table : list Row) : Outcome (option Row) * list Row :=
  let values :=
    match setSecretValue input with
    | Some value =>
        if truthyJson value then
          match encryptSecretValue configSecret value iv with
          | Resolved encrypted => Resolved (mkUpdateSecret (setName input) (Some encrypted))
          | Rejected e => Rejected e
          end
        else Resolved input
    | None => Resolved input
    end in
  match values with
  | Rejected e => (Rejected e, table)
  | Resolved values =>
      if setsNothing values then (Rejected (newError "No values to set"), table)
      else
        (decryptSecretRow
           (hd_error (map (applyValues values)
                          (filter (fun r => String.eqb (id r) i) table))),
         map (fun r => if String.eqb (id r) i then applyValues values r else r) table)
  end.

(** [result.rowCount !== null && result.rowCount > 0]. *)
Definition delete (i : string) (table : list Row) : bool * list Row :=
  (negb (Nat.eqb (List.length (filter (fun r => String.eqb (id r) i) table)) 0),
   filter (fun r => negb (String.eqb (id r) i)) table).

End WithRuntime.

End SecretModel.

(* ===================================================================== *)
(** * TeamModel and AgentTeamModel                                         *)
(* ===================================================================== *)

Module TeamModel.

(** A row of [teamMembersTable]. *)
Record TeamMember : Type := mkTeamMember {
  id : string;
  teamId : string;
  userId : string;
  role : string;
  createdAt : Z
}.

Definition getTeamMembers (t : string) (members : list TeamMember) : list TeamMember :=
  filter (fun m => String.eqb (teamId m) t) members.

Definition removeMember (t u : string) (members : list TeamMember)
  : bool * list TeamMember :=
  (negb (Nat.eqb (List.length
                    (filter (fun m => String.eqb (teamId m) t && String.eqb (userId m) u)
                            members)) 0),
   filter (fun m => negb (String.eqb (teamId m) t && String.eqb (userId m) u)) members).

(** [!!membership] on the first matching row. *)
Definition isUserInTeam (t u : string) (members : list TeamMember) : bool :=
  match hd_error (firstn 1 (filter (fun m => String.eqb (teamId m) t
                                             && String.eqb (userId m) u) members)) with
  | Some _ => true
  | None => false
  end.

Definition getUserTeamIds (u : string) (members : list TeamMember) : list string :=
  map teamId (filter (fun m => String.eqb (userId m) u) members).

End TeamModel.

Module AgentTeamModel.

(** A row of [agentTeamsTable]. *)
Record AgentTeam : Type := mkAgentTeam {
  agentId : string;
  teamId : string
}.

(** A row of [mcpServerTeamsTable]. *)
Record McpServerTeam : Type := mkMcpServerTeam {
  mcpServerId : string;
  serverTeamId : string
}.

(** The tables the model reads; of [agentsTable] only the id column. *)
Record Database : Type := mkDatabase {
  agentsTable : list string;
  teamMembersTable : list TeamModel.TeamMember;
  agentTeamsTable : list AgentTeam;
  mcpServerTeamsTable : list McpServerTeam
}.

(** [inArray(column, values)]. *)
Definition inArray (x : string) (values : list string) : bool :=
  existsb (String.eqb x) values.

Definition getUserAccessibleAgentIds (u : string) (isAgentAdmin : bool)
           (db : Database) : list string :=
  if isAgentAdmin then agentsTable db
  else
    let teamIds :=
      map TeamModel.teamId
          (filter (fun m => String.eqb (TeamModel.userId m) u) (teamMembersTable db)) in
    match teamIds with
    | [] => []
    | _ => map agentId (filter (fun a => inArray (teamId a) teamIds) (agentTeamsTable db))
    end.

Definition userHasAgentAccess (u a : string) (isAgentAdmin : bool)
           (db : Database) : bool :=
  if isAgentAdmin then true
  else
    let teamIds :=
      map TeamModel.teamId
          (filter (fun m => String.eqb (TeamModel.userId m) u) (teamMembersTable db)) in
    match teamIds with
    | [] => false
    | _ =>
        let agentTeam :=
          firstn 1 (filter (fun r => String.eqb (agentId r) a && inArray (teamId r) teamIds)
                           (agentTeamsTable db)) in
        (0 <? List.length agentTeam)%nat
    end.

Definition getTeamsForAgent (a : string) (db : Database) : list string :=
  map teamId (filter (fun r => String.eqb (agentId r) a) (agentTeamsTable db)).

Definition removeTeamFromAgent (a t : string) (db : Database) : bool * Database :=
  (negb (Nat.eqb (List.length
                    (filter (fun r => String.eqb (agentId r) a && String.eqb (teamId r) t)
                            (agentTeamsTable db))) 0),
   mkDatabase (agentsTable db) (teamMembersTable db)
              (filter (fun r => negb (String.eqb (agentId r) a && String.eqb (teamId r) t))
                      (agentTeamsTable db))
              (mcpServerTeamsTable db)).

(** [from(agentTeamsTable).innerJoin(mcpServerTeamsTable, eq(teamId, teamId))]. *)
Definition innerJoin (agentTeams : list AgentTeam) (serverTeams : list McpServerTeam)
  : list (AgentTeam * McpServerTeam) :=
  flat_map (fun r =>
              map (fun s => (r, s))
                  (filter (fun s => String.eqb (teamId r) (serverTeamId s)) serverTeams))
           agentTeams.

Definition agentAndMcpServerShareTeam (a s : string) (db : Database) : bool :=
  let result :=
    firstn 1 (map (fun row => teamId (fst row))
                  (filter (fun row => String.eqb (agentId (fst row)) a
                                      && String.eqb (mcpServerId (snd row)) s)
                          (innerJoin (agentTeamsTable db) (mcpServerTeamsTable db)))) in
  (0 <? List.length result)%nat.

End AgentTeamModel.

(* ===================================================================== *)
(** * AgentLabelModel                                                      *)
(* ===================================================================== *)

Module AgentLabelModel.
Import Js.

(** Rows of [labelKeysTable], [labelValuesTable], [agentLabelsTable] and
    [mcpCatalogLabelsTable]. *)
Record LabelKey : Type := mkLabelKey { keyRowId : string; key : string }.

Record LabelValue : Type := mkLabelValue { valueRowId : string; value : string }.

Record AgentLabel : Type := mkAgentLabel {
  agentId : string;
  keyId : string;
  valueId : string
}.

Record McpCatalogLabel : Type := mkMcpCatalogLabel {
  catalogId : string;
  catalogKeyId : string;
  catalogValueId : string
}.

Record Database : Type := mkDatabase {
  labelKeysTable : list LabelKey;
  labelValuesTable : list LabelValue;
  agentLabelsTable : list AgentLabel;
  mcpCatalogLabelsTable : list McpCatalogLabel
}.

(** [.leftJoin(right, on)]: every left row with each right row that
    matches it, or once with nulls when none does. *)
Definition leftJoin {A B : Type} (on : A -> B -> bool) (left : list A) (right : list B)
  : list (A * option B) :=
  flat_map (fun a =>
              match filter (on a) right with
              | [] => [(a, None)]
              | matches => map (fun b => (a, Some b)) matches
              end)
           left.

(** [isNull(column)] on a column of a left-joined table. *)
Definition isNull {B : Type} (joined : option B) : bool :=
  match joined with None => true | Some _ => false end.

(** [.insert(labelKeysTable).values({ key }).onConflictDoNothing({ target: key })]
    followed by the select of the row with the key; [newId] is the id
    the database gives to an inserted row. *)
Definition getOrCreateKey (k : string) (newId : string) (keys : list LabelKey)
  : Outcome string * list LabelKey :=
  let keys' :=
    if existsb (fun r => String.eqb (key r) k) keys then keys
    else (keys ++ [mkLabelKey newId k])%list in
  match hd_error (firstn 1 (filter (fun r => String.eqb (key r) k) keys')) with
  | Some result => (Resolved (keyRowId result), keys')
  | None =>
      (Rejected (newError "Cannot read properties of undefined (reading 'id')"), keys')
  end.

Definition orphanedKeys (db : Database) : list string :=
  map (fun row => keyRowId (fst (fst row)))
      (filter (fun row => isNull (snd (fst row)) && isNull (snd row))
              (leftJoin (fun row c => String.eqb (keyRowId (fst row)) (catalogKeyId c))
                        (leftJoin (fun k l => String.eqb (keyRowId k) (keyId l))
                                  (labelKeysTable db) (agentLabelsTable db))
                        (mcpCatalogLabelsTable db))).

Definition orphanedValues (db : Database) : list string :=
  map (fun row => valueRowId (fst (fst row)))
      (filter (fun row => isNull (snd (fst row)) && isNull (snd row))
              (leftJoin (fun row c => String.eqb (valueRowId (fst row)) (catalogValueId c))
                        (leftJoin (fun v l => String.eqb (valueRowId v) (valueId l))
                                  (labelValuesTable db) (agentLabelsTable db))
                        (mcpCatalogLabelsTable db))).

(** [delete(table).where(inArray(id, ids))], guarded by [ids.length > 0]:
    the row count and the rows left. *)
Definition deleteIn {A : Type} (rowId : A -> string) (ids : list string) (table : list A)
  : nat * list A :=
  match ids with
  | [] => (0, table)
  | _ =>
      (List.length (filter (fun r => existsb (String.eqb (rowId r)) ids) table),
       filter (fun r => negb (existsb (String.eqb (rowId r)) ids)) table)
  end.

(** The counts [{ deletedKeys, deletedValues }] and the database left. *)
Definition pruneKeysAndValues (db : Database) : (nat * nat) * Database :=
  let keyIds := orphanedKeys db in
  let valueIds := orphanedValues db in
  let '(deletedKeys, keys') := deleteIn keyRowId keyIds (labelKeysTable db) in
  let '(deletedValues, values') := deleteIn valueRowId valueIds (labelValuesTable db) in
  ((deletedKeys, deletedValues),
   mkDatabase keys' values' (agentLabelsTable db) (mcpCatalogLabelsTable db)).

End AgentLabelModel.

(* ===================================================================== *)
(** * Permission hooks (auth.hook)                                         *)
(* ===================================================================== *)

Module AuthHook.

(** A [Record<Resource, Action[]>]: own properties in insertion order.
    An action is [undefined] when the permission holds no colon. *)
Definition PermissionMap : Type := list (string * list (option string)).

(** [acc[resource] = actions]. *)
Fixpoint assign (acc : PermissionMap) (resource : string) (actions : list (option string))
  : PermissionMap :=
  match acc with
  | [] => [(resource, actions)]
  | (r, a) :: rest =>
      if String.eqb r resource then (r, actions) :: rest
      else (r, a) :: assign rest resource actions
  end.

(** [acc[resource]]. *)
Fixpoint get (acc : PermissionMap) (resource : string) : option (list (option string)) :=
  match acc with
  | [] => None
  | (r, a) :: rest => if String.eqb r resource then Some a else get rest resource
  end.

(** [const [resource, action] = permission.split(":")]. *)
Definition resourceOf (permission : string) : string :=
  hd "" (Crypto.split Crypto.colon permission).

Definition actionOf (permission : string) : option string :=
  nth_error (Crypto.split Crypto.colon permission) 1.

(** The [permissionMap] that [useHasPermissions] hands to
    [authClient.organization.hasPermission]. *)
Definition permissionMap (permissions : list string) : PermissionMap :=
  fold_left (fun acc permission =>
               assign acc (resourceOf permission) [actionOf permission])
            permissions [].

End AuthHook.

(* ===================================================================== *)
(** * Properties                                                           *)
(* ===================================================================== *)

Module JsFacts.
Import Js.

Lemma startsWith_app : forall p r, startsWith (p ++ r) p = true.
Proof.
  induction p as [|c p IH]; intro r; simpl; [reflexivity|].
  rewrite Ascii.eqb_refl. simpl. apply IH.
Qed.

Lemma startsWith_inv : forall p s,
    startsWith s p = true -> exists r, s = p ++ r.
Proof.
  induction p as [|c p IH]; intros s H.
  - exists s. reflexivity.
  - destruct s as [|d s]; simpl in H; [discriminate|].
    apply andb_true_iff in H. destruct H as [Hc Hs].
    apply Ascii.eqb_eq in Hc. subst d.
    destruct (IH _ Hs) as [r ->]. exists r. reflexivity.
Qed.

Lemma startsWith_spec : forall s p,
    startsWith s p = true <-> exists r, s = p ++ r.
Proof.
  intros s p. split.
  - apply startsWith_inv.
  - intros [r ->]. apply startsWith_app.
Qed.

Lemma includes_spec : forall s p,
    includes s p = true <-> exists a b, s = a ++ p ++ b.
Proof.
  induction s as [|c s IH]; intro p.
  - simpl. rewrite orb_false_r. split.
    + intro H. apply startsWith_inv in H. destruct H as [r Hr].
      exists "", r. exact Hr.
    + intros [a [b H]]. destruct a; simpl in H.
      * rewrite H. apply startsWith_app.
      * discriminate.
  - change (includes (String c s) p)
      with (startsWith (String c s) p || includes s p).
    rewrite orb_true_iff. split.
    + intros [H|H].
      * apply startsWith_inv in H. destruct H as [r Hr].
        exists "", r. exact Hr.
      * apply IH in H. destruct H as [a [b ->]].
        exists (String c a), b. reflexivity.
    + intros [a [b H]]. destruct a as [|d a]; simpl in H.
      * left. rewrite H. apply startsWith_app.
      * right. injection H as _ ->. apply IH. exists a, b. reflexivity.
Qed.

End JsFacts.

Module ListFacts.

Lemma filter_all : forall (A : Type) (f : A -> bool) (l : list A),
    (forall x, In x l -> f x = true) -> filter f l = l.
Proof.
  intros A f l H. induction l as [|a l IH]; cbn; [reflexivity|].
  rewrite (H a (or_introl eq_refl)). f_equal. apply IH.
  intros x Hx. apply H. right. exact Hx.
Qed.

Lemma filter_nil_none : forall (A : Type) (f : A -> bool) (l : list A),
    filter f l = [] -> forall x, In x l -> f x = false.
Proof.
  intros A f l H x Hx. destruct (f x) eqn:Hf; [|reflexivity].
  assert (In x (filter f l)) by (apply filter_In; split; assumption).
  rewrite H in H0. contradiction.
Qed.

End ListFacts.

Module DbRetryFacts.
Import Js JsFacts DbRetry.

(** The [k]-th error of the cause chain of [v]: [v] itself for [k = 0],
    the cause of the [k-1]-th error otherwise, as long as the chain runs
    through [Error] values. *)
Fixpoint causeAt (v : Value) (k : nat) : option Value :=
  match v with
  | Error _ _ cause =>
      match k with
      | O => Some v
      | S k' => causeAt cause k'
      end
  | _ => None
  end.

(** An error carries a transient marker when its code is one of the
    eight SQLSTATE codes or its message contains one of the six
    substrings. *)
Definition carriesTransientMarker (e : Value) : Prop :=
  match e with
  | Error code message _ =>
      (exists c, code = Some c /\
         In c ["08000"; "08001"; "08003"; "08004"; "08006";
               "57P01"; "57P02"; "57P03"])
      \/
      (exists p, In p ["ECONNREFUSED"; "ECONNRESET"; "EPIPE"; "ETIMEDOUT";
                       "Connection terminated"; "timeout expired"] /\
         exists a b, message = a ++ p ++ b)
  | _ => False
  end.

Lemma has_In : forall set x, has set x = true <-> In x set.
Proof.
  intros set x. unfold has. rewrite existsb_exists. split.
  - intros [y [Hy Heq]]. apply String.eqb_eq in Heq. subst y. exact Hy.
  - intro H. exists x. split; [exact H | apply String.eqb_refl].
Qed.

Lemma hasTransientCode_spec : forall code,
    hasTransientCode code = true <->
    exists c, code = Some c /\ In c TRANSIENT_PG_CODES.
Proof.
  intros [c|]; unfold hasTransientCode.
  - rewrite andb_true_iff, has_In. split.
    + intros [_ H]. exists c. split; [reflexivity | exact H].
    + intros [c' [Hc H]]. injection Hc as <-. split; [|exact H].
      simpl in H.
      repeat (destruct H as [H|H]; [subst c; reflexivity|]).
      contradiction.
  - split; [discriminate|]. intros [c [H _]]. discriminate.
Qed.

Lemma hasTransientPattern_spec : forall message,
    hasTransientPattern message = true <->
    exists p, In p TRANSIENT_ERROR_PATTERNS /\
              exists a b, message = a ++ p ++ b.
Proof.
  intro message. unfold hasTransientPattern. rewrite existsb_exists.
  split; intros [p [Hp H]]; exists p; (split; [exact Hp|]);
    apply includes_spec; exact H.
Qed.

Lemma marker_decides : forall code message cause,
    carriesTransientMarker (Error code message cause) <->
    hasTransientCode code = true \/ hasTransientPattern message = true.
Proof.
  intros. rewrite hasTransientCode_spec, hasTransientPattern_spec.
  reflexivity.
Qed.

Lemma causeAt_isError : forall v k e, causeAt v k = Some e -> isError v = true.
Proof. intros [] k e H; simpl in H; try discriminate; reflexivity. Qed.

Lemma isError_truthy : forall v, isError v = true -> truthy v = true.
Proof. intros [] H; simpl in *; try discriminate; reflexivity. Qed.

(** The recursion at depth [d] finds a marker exactly when one sits on
    the chain at a position [k] with [d + k] within the permitted depth. *)
Lemma isTransientDbError_depth : forall v d,
    isTransientDbError v d = true <->
    exists k e, d + k <= MAX_CAUSE_DEPTH /\ causeAt v k = Some e /\
                carriesTransientMarker e.
Proof.
  induction v as [ | | b | n | s | | code message cause IH]; intro d;
    try (simpl; split; [discriminate | intros [k [e [_ [H _]]]]; discriminate]).
  cbn [isTransientDbError].
  destruct (Nat.ltb_spec MAX_CAUSE_DEPTH d) as [Hd|Hd].
  - split; [discriminate|]. intros [k [e [Hk _]]]. lia.
  - destruct (hasTransientCode code) eqn:Hcode.
    { split; [|reflexivity]. intros _.
      exists 0, (Error code message cause).
      split; [lia|]. split; [reflexivity|].
      apply marker_decides. left. exact Hcode. }
    destruct (hasTransientPattern message) eqn:Hpat.
    { split; [|reflexivity]. intros _.
      exists 0, (Error code message cause).
      split; [lia|]. split; [reflexivity|].
      apply marker_decides. right. exact Hpat. }
    split.
    + destruct (truthy cause); [|discriminate].
      intro H. apply IH in H. destruct H as [k [e [Hk [Hc Hm]]]].
      exists (S k), e. split; [lia|]. split; assumption.
    + intros [k [e [Hk [Hc Hm]]]]. destruct k as [|k]; simpl in Hc.
      * injection Hc as <-. apply marker_decides in Hm.
        destruct Hm; congruence.
      * rewrite (isError_truthy _ (causeAt_isError _ _ Hc)).
        apply IH. exists k, e. split; [lia|]. split; assumption.
Qed.

(** C4.  [isTransientDbError(v)] is true exactly when [v] is an Error
    whose cause chain carries, at most 5 causes down, one of the eight
    SQLSTATE codes or a message containing one of the six substrings.
    It is false for every value that is not an Error, for chains with no
    marker at all, and for chains whose markers all sit more than 5
    causes down. *)
Theorem isTransientDbError_spec : forall v : Value,
    (isTransientDbError v 0 = true <->
     exists k e, k <= 5 /\ causeAt v k = Some e /\ carriesTransientMarker e)
    /\ (isError v = false -> isTransientDbError v 0 = false)
    /\ ((forall k e, causeAt v k = Some e -> ~ carriesTransientMarker e) ->
        isTransientDbError v 0 = false)
    /\ ((forall k e, causeAt v k = Some e -> carriesTransientMarker e -> 5 < k) ->
        isTransientDbError v 0 = false).
Proof.
  intro v.
  assert (Hiff : isTransientDbError v 0 = true <->
                 exists k e, k <= 5 /\ causeAt v k = Some e /\
                             carriesTransientMarker e)
    by (rewrite isTransientDbError_depth; reflexivity).
  split; [exact Hiff|]. split; [|split].
  - destruct v; simpl; intro H; try reflexivity; discriminate.
  - intro Hnone. apply not_true_is_false. intro Ht.
    apply Hiff in Ht. destruct Ht as [k [e [_ [Hc Hm]]]].
    exact (Hnone k e Hc Hm).
  - intro Hdeep. apply not_true_is_false. intro Ht.
    apply Hiff in Ht. destruct Ht as [k [e [Hk [Hc Hm]]]].
    specialize (Hdeep k e Hc Hm). lia.
Qed.

(** A driver error wrapped [n] times by the query layer. *)
Fixpoint wrapped (n : nat) (inner : Value) : Value :=
  match n with
  | O => inner
  | S n' => Error None "Failed query" (wrapped n' inner)
  end.

Lemma isTransientDbError_spec_witness :
  isTransientDbError (Str "ECONNREFUSED") 0 = false
  /\ isTransientDbError (wrapped 5 (Error (Some "57P01") "shutdown" Undefined)) 0 = true
  /\ isTransientDbError (wrapped 6 (Error None "read ECONNRESET" Undefined)) 0 = false.
Proof.
  split; [|split].
  - apply (proj1 (proj2 (isTransientDbError_spec (Str "ECONNREFUSED")))).
    reflexivity.
  - apply (proj1 (isTransientDbError_spec _)).
    exists 5, (Error (Some "57P01") "shutdown" Undefined).
    split; [lia|]. split; [reflexivity|].
    left. exists "57P01". split; [reflexivity|]. simpl. tauto.
  - apply (proj2 (proj2 (proj2 (isTransientDbError_spec _)))).
    intros k e Hc Hm.
    do 6 (destruct k as [|k];
          [ simpl in Hc; injection Hc as <-; apply marker_decides in Hm;
            destruct Hm as [Hm|Hm]; vm_compute in Hm; discriminate | ]).
    lia.
Defined.

(** ** withDbRetry *)
Section RetryFacts.
Variables W T : Type.
Variable fn : W -> Outcome T * W.
Variable maxRetries : Z.

Lemma worldBefore_succ : forall k w,
    worldBefore fn (S k) w = worldBefore fn k (snd (fn w)).
Proof. reflexivity. Qed.

Lemma invocation_succ : forall k w,
    invocation fn (S k) w = invocation fn k (snd (fn w)).
Proof. reflexivity. Qed.



End RetryFacts.



(** Sample thunks over a world that counts the queries sent so far. *)
Definition econnrefused : Value :=
  Error (Some "ECONNREFUSED") "connect ECONNREFUSED 127.0.0.1:5432" Undefined.

Definition alwaysRefused (w : nat) : Outcome string * nat :=
  (Rejected econnrefused, S w).
Definition refusedOnce (w : nat) : Outcome string * nat :=
  match w with
  | O => (Rejected econnrefused, S w)
  | _ => (Resolved "row", S w)
  end.


(** ** More on the retry wrapper *)

Lemma isTransientDbError_too_deep : forall v d,
    MAX_CAUSE_DEPTH < d -> isTransientDbError v d = false.
Proof.
  intros v d Hd. destruct v; try reflexivity. cbn [isTransientDbError].
  destruct (Nat.ltb_spec MAX_CAUSE_DEPTH d); [reflexivity | lia].
Qed.

Lemma isTransientDbError_falsy : forall v d,
    truthy v = false -> isTransientDbError v d = false.
Proof. intros v d H. destruct v; try reflexivity. discriminate H. Qed.

(** An error whose own code and message carry no marker is classified as
    its cause is one level deeper: wrapping by the query layer costs
    exactly one level of the permitted depth. *)
Theorem isTransientDbError_wrapper :
  forall (code : option string) (message : string) (cause : Value) (d : nat),
    hasTransientCode code = false ->
    hasTransientPattern message = false ->
    isTransientDbError (Error code message cause) d = isTransientDbError cause (S d).
Proof.
  intros code message cause d Hcode Hpat. cbn [isTransientDbError].
  rewrite Hcode, Hpat.
  destruct (Nat.ltb_spec MAX_CAUSE_DEPTH d) as [Hd|Hd].
  - symmetry. apply isTransientDbError_too_deep. lia.
  - destruct (truthy cause) eqn:Ht; [reflexivity|].
    symmetry. apply isTransientDbError_falsy. exact Ht.
Qed.

Lemma isTransientDbError_wrapper_witness :
  isTransientDbError (Error (Some "23505") "Failed query: insert" econnrefused) 0
  = isTransientDbError econnrefused 1.
Proof.
  apply isTransientDbError_wrapper; reflexivity.
Defined.

Section RetryRuns.
Variables W T : Type.
Variable fn : W -> Outcome T * W.
Variable maxRetries : Z.

(** Where and why the loop stops: after [k] transient rejections, at an
    invocation that resolves, rejects with a non-transient error, or is
    the last one the budget allows. *)
Lemma retryLoop_run : forall fuel attempt w n,
    (0 <= attempt <= maxRetries)%Z ->
    (maxRetries - attempt < Z.of_nat fuel)%Z ->
    exists k r,
      (attempt + Z.of_nat k <= maxRetries)%Z
      /\ retryLoop fn maxRetries fuel attempt w n = Some r
      /\ calls r = n + k + 1
      /\ (forall j, j < k -> exists e,
             invocation fn j w = Rejected e /\ isTransientDbError e 0 = true)
      /\ outcome r = invocation fn k w
      /\ world r = worldBefore fn (S k) w
      /\ match outcome r with
         | Resolved _ => True
         | Rejected e =>
             isTransientDbError e 0 = false \/ (attempt + Z.of_nat k = maxRetries)%Z
         end.
Proof.
  induction fuel as [|fuel IH]; intros attempt w n Hatt Hfuel; [lia|].
  cbn [retryLoop].
  destruct (Z.leb_spec attempt maxRetries) as [_|Hgt]; [|lia].
  destruct (fn w) as [o w'] eqn:Hfn.
  assert (Hinv0 : invocation fn 0 w = o) by (unfold invocation; cbn; rewrite Hfn; reflexivity).
  assert (Hw1 : worldBefore fn 1 w = w') by (cbn; rewrite Hfn; reflexivity).
  destruct o as [v|e].
  - exists 0. eexists. split; [lia|]. split; [reflexivity|]. cbn [calls outcome world].
    split; [lia|]. split; [intros j Hj; lia|]. split; [symmetry; exact Hinv0|].
    split; [symmetry; exact Hw1 | exact I].
  - destruct (isTransientDbError e 0) eqn:Ht; cbn [andb].
    + destruct (Z.ltb_spec attempt maxRetries) as [Hlt|Hge].
      * destruct (IH (attempt + 1)%Z w' (S n)) as [k [r [Hk [Hr [Hc [Hrej [Ho [Hw Hstop]]]]]]]];
          [lia | lia |].
        exists (S k), r. split; [lia|]. split; [exact Hr|]. split; [lia|].
        split.
        { intros j Hj. destruct j as [|j].
          - exists e. split; [exact Hinv0 | exact Ht].
          - rewrite invocation_succ, Hfn. apply Hrej. lia. }
        split; [rewrite invocation_succ, Hfn; exact Ho|].
        split; [rewrite worldBefore_succ, Hfn; exact Hw|].
        destruct (outcome r); [exact I|].
        destruct Hstop as [Hs|Hs]; [left; exact Hs | right; lia].
      * exists 0. eexists. split; [lia|]. split; [reflexivity|]. cbn [calls outcome world].
        split; [lia|]. split; [intros j Hj; lia|]. split; [symmetry; exact Hinv0|].
        split; [symmetry; exact Hw1 | right; lia].
    + exists 0. eexists. split; [lia|]. split; [reflexivity|]. cbn [calls outcome world].
      split; [lia|]. split; [intros j Hj; lia|]. split; [symmetry; exact Hinv0|].
      split; [symmetry; exact Hw1 | left; exact Ht].
Qed.

End RetryRuns.

(** The budget in force: the given [maxRetries], else [MAX_RETRIES]. *)
Definition budget (options : option Z) : Z :=
  match options with Some m => m | None => MAX_RETRIES end.

(** Whatever [fn] does, with a budget of at least 0 the call makes
    between 1 and budget + 1 invocations; all but the last rejected with a
    transient error; it settles as the last invocation did, in the world
    that invocation left; and it stopped there because that invocation
    resolved, rejected with a non-transient error, or used up the budget. *)
Theorem withDbRetry_run :
  forall (W T : Type) (fn : W -> Outcome T * W) (options : option Z) (w0 : W),
    (0 <= budget options)%Z ->
    exists k r,
      withDbRetry fn options w0 = Some r
      /\ calls r = k + 1
      /\ (Z.of_nat (calls r) <= budget options + 1)%Z
      /\ (forall j, j < k -> exists e,
             invocation fn j w0 = Rejected e /\ isTransientDbError e 0 = true)
      /\ outcome r = invocation fn k w0
      /\ world r = worldBefore fn (S k) w0
      /\ match outcome r with
         | Resolved _ => True
         | Rejected e =>
             isTransientDbError e 0 = false \/ Z.of_nat k = budget options
         end.
Proof.
  intros W T fn options w0 Hb. unfold withDbRetry. fold (budget options).
  destruct (@retryLoop_run W T fn (budget options)
              (S (Z.to_nat (budget options + 1))) 0%Z w0 0)
    as [k [r [Hk [Hr [Hc [Hrej [Ho [Hw Hstop]]]]]]]]; [lia | lia |].
  exists k, r. split; [exact Hr|]. split; [lia|]. split; [lia|].
  split; [exact Hrej|]. split; [exact Ho|]. split; [exact Hw|].
  destruct (outcome r); [exact I|].
  destruct Hstop as [Hs|Hs]; [left; exact Hs | right; lia].
Qed.

Lemma withDbRetry_run_witness :
  exists k r,
    withDbRetry refusedOnce None 0 = Some r
    /\ calls r = k + 1
    /\ (Z.of_nat (calls r) <= budget None + 1)%Z
    /\ (forall j, j < k -> exists e,
           invocation refusedOnce j 0 = Rejected e /\ isTransientDbError e 0 = true)
    /\ outcome r = invocation refusedOnce k 0
    /\ world r = worldBefore refusedOnce (S k) 0
    /\ match outcome r with
       | Resolved _ => True
       | Rejected e => isTransientDbError e 0 = false \/ Z.of_nat k = budget None
       end.
Proof.
  apply (withDbRetry_run refusedOnce None 0). discriminate.
Defined.

(** With a negative budget the loop body never runs: [fn] is not invoked
    at all and the call rejects with the "unreachable" error, the world
    untouched. *)
Theorem withDbRetry_negative_budget :
  forall (W T : Type) (fn : W -> Outcome T * W) (maxRetries : Z) (w0 : W),
    (maxRetries < 0)%Z ->
    withDbRetry fn (Some maxRetries) w0
    = Some (mkRun (Rejected (newError "withDbRetry: unreachable")) w0 0).
Proof.
  intros W T fn maxRetries w0 Hneg. unfold withDbRetry. cbn [retryLoop].
  destruct (Z.leb_spec 0 maxRetries) as [Hle|_]; [lia | reflexivity].
Qed.

Lemma withDbRetry_negative_budget_witness :
  withDbRetry alwaysRefused (Some (-1)%Z) 0
  = Some (mkRun (Rejected (newError "withDbRetry: unreachable")) 0 0).
Proof.
  apply withDbRetry_negative_budget. reflexivity.
Defined.

(** ** wrapPoolWithRetry *)

(** A query method that also counts, in the world, how often it ran. *)
Definition counting {W T : Type} (q : list Arg -> W -> Outcome T * W)
           (args : list Arg) (state : W * nat) : Outcome T * (W * nat) :=
  let '(o, w') := q args (fst state) in (o, (w', S (snd state))).

Lemma wrapPoolWithRetry_marks : forall (W T : Type) (pool : Pool W T),
    retryWrapped (wrapPoolWithRetry pool) = true.
Proof.
  intros W T pool. unfold wrapPoolWithRetry.
  destruct (retryWrapped pool) eqn:H; [exact H | reflexivity].
Qed.

Lemma wrapPoolWithRetry_again : forall (W T : Type) (pool : Pool W T) (n : nat),
    Nat.iter (S n) wrapPoolWithRetry pool = wrapPoolWithRetry pool.
Proof.
  intros W T pool n. induction n as [|n IH]; [reflexivity|].
  change (Nat.iter (S (S n)) wrapPoolWithRetry pool)
    with (wrapPoolWithRetry (Nat.iter (S n) wrapPoolWithRetry pool)).
  rewrite IH. unfold wrapPoolWithRetry at 1.
  rewrite wrapPoolWithRetry_marks. reflexivity.
Qed.

Lemma retryLoop_counts :
  forall (W T : Type) (q : list Arg -> W -> Outcome T * W) (args : list Arg)
         (maxRetries : Z) (fuel : nat) (attempt : Z) (state : W * nat) (n : nat)
         (r : Run (W * nat) T),
    retryLoop (counting q args) maxRetries fuel attempt state n = Some r ->
    snd (world r) + n = snd state + calls r.
Proof.
  intros W T q args maxRetries fuel.
  induction fuel as [|fuel IH]; intros attempt state n r H; [discriminate H|].
  cbn [retryLoop] in H.
  destruct (attempt <=? maxRetries)%Z.
  - unfold counting at 1 in H. destruct (q args (fst state)) as [o w'].
    destruct o as [v|e].
    + injection H as <-. cbn. lia.
    + destruct (isTransientDbError e 0 && (attempt <? maxRetries)%Z).
      * apply IH in H. cbn in H. lia.
      * injection H as <-. cbn. lia.
  - injection H as <-. cbn. lia.
Qed.

(** However often [wrapPoolWithRetry] is applied to a pool, the retry
    logic is installed once: a callback-style call runs the pool's own
    query exactly once, and a promise-style call runs it at least once and
    at most [MAX_RETRIES + 1 = 4] times. *)
Theorem wrapPoolWithRetry_once :
  forall (W T : Type) (q : list Arg -> W -> Outcome T * W) (n : nat)
         (args : list Arg) (w : W),
    Nat.iter (S n) wrapPoolWithRetry (mkPool (counting q) false)
    = wrapPoolWithRetry (mkPool (counting q) false)
    /\ (lastIsFunction args = true ->
        query (Nat.iter (S n) wrapPoolWithRetry (mkPool (counting q) false)) args (w, 0)
        = (fst (q args w), (snd (q args w), 1)))
    /\ (lastIsFunction args = false ->
        1 <= snd (snd (query (Nat.iter (S n) wrapPoolWithRetry
                                       (mkPool (counting q) false)) args (w, 0)))
        <= 4).
Proof.
  intros W T q n args w. rewrite wrapPoolWithRetry_again.
  split; [reflexivity|]. split.
  - intro Hcb. cbn. rewrite Hcb. unfold counting. cbn.
    destruct (q args w); reflexivity.
  - intro Hp. cbn [wrapPoolWithRetry retryWrapped query]. rewrite Hp.
    unfold withDbRetry.
    destruct (@retryLoop_run (W * nat) T (counting q args) MAX_RETRIES
                (S (Z.to_nat (MAX_RETRIES + 1))) 0%Z (w, 0) 0)
      as [k [r [Hk [Hr [Hc _]]]]]; [unfold MAX_RETRIES; lia | unfold MAX_RETRIES; lia |].
    rewrite Hr. cbn [settled snd].
    apply retryLoop_counts in Hr.
    cbn in Hr, Hc. unfold MAX_RETRIES in Hk. lia.
Qed.

Lemma wrapPoolWithRetry_once_witness :
  query (Nat.iter 2 wrapPoolWithRetry
                  (mkPool (counting (fun _ w => alwaysRefused w)) false))
        [Plain (Str "SELECT 1"); Callback] (0, 0)
  = (Rejected econnrefused, (1, 1))
  /\ 1 <= snd (snd (query (Nat.iter 2 wrapPoolWithRetry
                                    (mkPool (counting (fun _ w => alwaysRefused w)) false))
                          [Plain (Str "SELECT 1")] (0, 0)))
     <= 4.
Proof.
  split.
  - apply (proj1 (proj2 (wrapPoolWithRetry_once (fun _ w => alwaysRefused w) 1
                           [Plain (Str "SELECT 1"); Callback] 0))).
    reflexivity.
  - apply (proj2 (proj2 (wrapPoolWithRetry_once (fun _ w => alwaysRefused w) 1
                           [Plain (Str "SELECT 1")] 0))).
    reflexivity.
Defined.

End DbRetryFacts.

Module InteractionFacts.
Import Interaction.

Lemma length_filter_zero : forall (A : Type) (f : A -> bool) (l : list A),
    Nat.eqb (List.length (filter f l)) 0 = true <->
    forall x, In x l -> f x = false.
Proof.
  intros A f l. rewrite Nat.eqb_eq. induction l as [|a l IH]; simpl.
  - split; [intros _ x [] | reflexivity].
  - destruct (f a) eqn:Ha; simpl.
    + split; [discriminate|]. intro H.
      specialize (H a (or_introl eq_refl)). congruence.
    + rewrite IH. split.
      * intros H x [<-|Hx]; [exact Ha | exact (H x Hx)].
      * intros H x Hx. apply H. right. exact Hx.
Qed.

(** C6.  [checkIfChatIsTrusted(c)] is true exactly when no interaction
    of chat [c] has [trusted = false]; so it is true for a chat without
    interactions and false as soon as one interaction of [c], whatever
    its role and its blocked flag, is untrusted. *)
Theorem checkIfChatIsTrusted_spec : forall (c : string) (db : Table),
    (checkIfChatIsTrusted c db = true <->
     forall r, In r db -> chatId r = c -> trusted r <> false)
    /\ ((forall r, In r db -> chatId r <> c) -> checkIfChatIsTrusted c db = true)
    /\ (forall r, In r db -> chatId r = c -> trusted r = false ->
                  checkIfChatIsTrusted c db = false).
Proof.
  intros c db.
  assert (Hiff : checkIfChatIsTrusted c db = true <->
                 forall r, In r db -> chatId r = c -> trusted r <> false).
  { unfold checkIfChatIsTrusted, selectWhere. rewrite length_filter_zero.
    split.
    - intros H r Hr Hc Ht. specialize (H r Hr).
      rewrite Hc, String.eqb_refl, Ht in H. discriminate.
    - intros H r Hr. destruct (String.eqb_spec (chatId r) c) as [Hc|Hc];
        [|reflexivity].
      specialize (H r Hr Hc). destruct (trusted r); [reflexivity|congruence]. }
  split; [exact Hiff|]. split.
  - intro H. apply Hiff. intros r Hr Hc. exfalso. exact (H r Hr Hc).
  - intros r Hr Hc Ht. apply not_true_is_false. intro Hyes.
    exact (proj1 Hiff Hyes r Hr Hc Ht).
Qed.

Definition sampleChat : Table :=
  [ mkRow "i1" "chat-1" (mkContent user None "Hello") true false 1;
    mkRow "i2" "chat-1" (mkContent tool (Some "call_123") "untrusted data") false true 2;
    mkRow "i3" "chat-2" (mkContent assistant None "Hi there") true false 3 ].

Lemma checkIfChatIsTrusted_spec_witness :
  checkIfChatIsTrusted "chat-3" sampleChat = true
  /\ checkIfChatIsTrusted "chat-1" sampleChat = false.
Proof.
  split.
  - apply (proj1 (proj2 (checkIfChatIsTrusted_spec "chat-3" sampleChat))).
    intros r Hr. simpl in Hr.
    repeat (destruct Hr as [<-|Hr]; [discriminate|]). contradiction.
  - apply (proj2 (proj2 (checkIfChatIsTrusted_spec "chat-1" sampleChat))
             (mkRow "i2" "chat-1" (mkContent tool (Some "call_123") "untrusted data")
                    false true 2)).
    + simpl. tauto.
    + reflexivity.
    + reflexivity.
Defined.

(** ** findByChatId and getBlockedToolCallIds *)

Lemma insertByCreatedAt_perm : forall r l,
    Permutation (r :: l) (insertByCreatedAt r l).
Proof.
  intros r l. induction l as [|x l IH]; cbn; [reflexivity|].
  destruct (createdAt r <=? createdAt x)%Z; [reflexivity|].
  rewrite perm_swap. apply perm_skip. exact IH.
Qed.

Lemma orderByCreatedAt_perm : forall l, Permutation l (orderByCreatedAt l).
Proof.
  induction l as [|r l IH]; cbn; [constructor|].
  rewrite <- insertByCreatedAt_perm. apply perm_skip. exact IH.
Qed.

Definition earlier (a b : Row) : Prop := (createdAt a <= createdAt b)%Z.

Lemma insertByCreatedAt_sorted : forall r l,
    StronglySorted earlier l -> StronglySorted earlier (insertByCreatedAt r l).
Proof.
  intros r l Hs. induction Hs as [|x l Hs IH Hall]; cbn.
  - constructor; constructor.
  - destruct (Z.leb_spec (createdAt r) (createdAt x)) as [Hlt|Hge].
    + constructor; [constructor; assumption|].
      constructor; [unfold earlier; lia|].
      eapply Forall_impl; [|exact Hall]. unfold earlier. intros a Ha. lia.
    + constructor; [exact IH|].
      eapply Permutation_Forall; [apply insertByCreatedAt_perm|].
      constructor; [unfold earlier; lia | exact Hall].
Qed.

Lemma orderByCreatedAt_sorted : forall l, StronglySorted earlier (orderByCreatedAt l).
Proof.
  induction l as [|r l IH]; cbn; [constructor|].
  apply insertByCreatedAt_sorted. exact IH.
Qed.

Lemma findByChatId_In : forall (c : string) (db : Table) (r : Row),
    In r (findByChatId c db) <-> In r db /\ chatId r = c.
Proof.
  intros c db r. unfold findByChatId, selectWhere. split.
  - intro H. apply (Permutation_in _ (Permutation_sym (orderByCreatedAt_perm _))) in H.
    apply filter_In in H. destruct H as [Hin Hc].
    split; [exact Hin | apply String.eqb_eq; exact Hc].
  - intros [Hin Hc]. apply (Permutation_in _ (orderByCreatedAt_perm _)).
    apply filter_In. split; [exact Hin | apply String.eqb_eq; exact Hc].
Qed.

(** [findByChatId(c)] returns the interactions of chat [c], each as often
    as the table holds it and none of another chat, in ascending order of
    creation time. *)
Theorem findByChatId_sorted_chat : forall (c : string) (db : Table),
    Permutation (filter (fun r => String.eqb (chatId r) c) db) (findByChatId c db)
    /\ StronglySorted earlier (findByChatId c db)
    /\ (forall r, In r (findByChatId c db) <-> In r db /\ chatId r = c).
Proof.
  intros c db. split; [|split].
  - unfold findByChatId, selectWhere. apply orderByCreatedAt_perm.
  - unfold findByChatId, selectWhere. apply orderByCreatedAt_sorted.
  - intro r. apply findByChatId_In.
Qed.

Lemma setAdd_In : forall x y s, In y (setAdd x s) <-> y = x \/ In y s.
Proof.
  intros x y s. unfold setAdd.
  destruct (existsb (String.eqb x) s) eqn:Hx.
  - split; [intro H; right; exact H|]. intros [->|H]; [|exact H].
    apply existsb_exists in Hx. destruct Hx as [z [Hz Heq]].
    apply String.eqb_eq in Heq. subst z. exact Hz.
  - rewrite in_app_iff. cbn. split.
    + intros [H|[H|[]]]; [right; exact H | left; symmetry; exact H].
    + intros [->|H]; [right; left; reflexivity | left; exact H].
Qed.

Lemma setAdd_NoDup : forall x s, NoDup s -> NoDup (setAdd x s).
Proof.
  intros x s Hs. unfold setAdd.
  destruct (existsb (String.eqb x) s) eqn:Hx; [exact Hs|].
  apply NoDup_app; [exact Hs | constructor; [intros [] | constructor] |].
  intros y Hy Hin. destruct Hin as [Heq|[]]. subst y.
  assert (existsb (String.eqb x) s = true)
    by (apply existsb_exists; exists x; split; [exact Hy | apply String.eqb_refl]).
  congruence.
Qed.

(** An interaction that contributes its tool call id to the blocked set. *)
Definition contributes (r : Row) (t : string) : Prop :=
  blocked r = true /\ role (content r) = tool
  /\ tool_call_id (content r) = Some t /\ t <> "".

Lemma collectBlocked_spec : forall interactions acc,
    NoDup acc ->
    NoDup (collectBlocked interactions acc)
    /\ forall t, In t (collectBlocked interactions acc) <->
                 In t acc \/ exists r, In r interactions /\ contributes r t.
Proof.
  induction interactions as [|r rest IH]; intros acc Hacc.
  - cbn. split; [exact Hacc|]. intro t. split; [intro H; left; exact H|].
    intros [H|[r [[] _]]]. exact H.
  - assert (Hskip : (forall t, ~ contributes r t) ->
              NoDup (collectBlocked rest acc)
              /\ forall t, In t (collectBlocked rest acc) <->
                           In t acc \/ exists x, In x (r :: rest) /\ contributes x t).
    { intro Hno. destruct (IH acc Hacc) as [Hnd Hin]. split; [exact Hnd|].
      intro t. rewrite Hin. split.
      - intros [H|[x [Hx Hc]]]; [left; exact H | right; exists x; split; [right; exact Hx | exact Hc]].
      - intros [H|[x [[<-|Hx] Hc]]];
          [left; exact H | exfalso; exact (Hno t Hc) | right; exists x; split; assumption]. }
    cbn [collectBlocked].
    destruct (blocked r) eqn:Hb; cbn [andb];
      [|apply Hskip; intros t [H _]; congruence].
    destruct (role (content r)) eqn:Hrole; cbn [isTool];
      try (apply Hskip; intros t [_ [H _]]; congruence).
    destruct (tool_call_id (content r)) as [t0|] eqn:Hid;
      [|apply Hskip; intros t [_ [_ [H _]]]; congruence].
    destruct (Js.truthyString t0) eqn:Ht0.
    + destruct (IH (setAdd t0 acc) (setAdd_NoDup t0 Hacc)) as [Hnd Hin].
      split; [exact Hnd|]. intro t. rewrite Hin, setAdd_In. split.
      * intros [[->|H]|[x [Hx Hc]]].
        -- right. exists r. split; [left; reflexivity|].
           unfold contributes. repeat split; try assumption.
           intros ->. discriminate Ht0.
        -- left. exact H.
        -- right. exists x. split; [right; exact Hx | exact Hc].
      * intros [H|[x [[<-|Hx] Hc]]].
        -- left. right. exact H.
        -- left. left. destruct Hc as [_ [_ [Hc _]]]. congruence.
        -- right. exists x. split; assumption.
    + apply Hskip. intros t [_ [_ [H Hne]]].
      assert (t = t0) by congruence. subst t.
      destruct t0; [apply Hne; reflexivity | discriminate Ht0].
Qed.

(** [getBlockedToolCallIds(c)] holds a tool call id exactly when some
    interaction of chat [c] is blocked, has role "tool" and carries that
    (non-empty) id; an id carried by several such interactions is held
    once. *)
Theorem getBlockedToolCallIds_spec : forall (c : string) (db : Table),
    NoDup (getBlockedToolCallIds c db)
    /\ forall t, In t (getBlockedToolCallIds c db) <->
                 exists r, In r db /\ chatId r = c /\ blocked r = true
                           /\ role (content r) = tool
                           /\ tool_call_id (content r) = Some t /\ t <> "".
Proof.
  intros c db. unfold getBlockedToolCallIds.
  destruct (collectBlocked_spec (findByChatId c db) (@NoDup_nil string)) as [Hnd Hin].
  split; [exact Hnd|]. intro t. rewrite Hin.
  pose proof (findByChatId_In c db) as Hmem. split.
  - intros [[]|[r [Hr [Hb [Hrole [Hid Hne]]]]]].
    apply Hmem in Hr. destruct Hr as [Hr Hc].
    exists r. repeat split; assumption.
  - intros [r [Hr [Hc [Hb [Hrole [Hid Hne]]]]]]. right. exists r.
    split; [apply Hmem; split; assumption|]. repeat split; assumption.
Qed.

Lemma findByChatId_sorted_chat_witness :
  In (mkRow "i1" "chat-1" (mkContent user None "Hello") true false 1)
     (findByChatId "chat-1" sampleChat).
Proof.
  apply (proj2 (proj2 (proj2 (@findByChatId_sorted_chat "chat-1" sampleChat))
                      (mkRow "i1" "chat-1" (mkContent user None "Hello") true false 1))).
  split; [left; reflexivity | reflexivity].
Defined.

Lemma getBlockedToolCallIds_spec_witness :
  In "call_123" (getBlockedToolCallIds "chat-1" sampleChat).
Proof.
  apply (proj2 (proj2 (@getBlockedToolCallIds_spec "chat-1" sampleChat) "call_123")).
  exists (mkRow "i2" "chat-1" (mkContent tool (Some "call_123") "untrusted data")
                false true 2).
  split; [right; left; reflexivity|].
  repeat (split; [reflexivity|]). discriminate.
Defined.

End InteractionFacts.

Module SsoProviderFacts.
Import Js SsoProvider.

Lemma filter_none : forall (A : Type) (f : A -> bool) (l : list A),
    (forall x, In x l -> f x = false) -> filter f l = [].
Proof.
  intros A f l H. induction l as [|a l IH]; simpl; [reflexivity|].
  rewrite (H a (or_introl eq_refl)). apply IH.
  intros x Hx. apply H. right. exact Hx.
Qed.

Lemma ownedBy_foreign : forall p o (db : Table),
    (forall r, In r db -> id r = p -> organizationId r <> Some o) ->
    forall r, In r db -> ownedBy p o r = false.
Proof.
  intros p o db H r Hr. unfold ownedBy.
  destruct (String.eqb_spec (id r) p) as [Hid|Hid]; [|reflexivity].
  specialize (H r Hr Hid). unfold eqNullable.
  destruct (organizationId r) as [x|]; [|reflexivity].
  destruct (String.eqb_spec x o) as [->|Hx]; [|reflexivity].
  exfalso. apply H. reflexivity.
Qed.

(** C5.  [findAllPublic] yields, row by row, an object whose only fields
    are [id] and [providerId] (no config blob, issuer, domain or
    organizationId); and when the row of provider [p] does not carry
    organization [o], [findById] resolves to null, [update] to null and
    [delete] to false, each leaving the table as it was. *)
Theorem ssoProvider_public_and_isolation :
  forall (JSON_parse : string -> Outcome Json) (db : Table),
    Forall2 (fun r obj =>
               obj = [("id", FText (id r)); ("providerId", FText (providerId r))])
            db (findAllPublic db)
    /\ (forall obj, In obj (findAllPublic db) ->
          map fst obj = ["id"; "providerId"] /\
          forall k, In k ["oidcConfig"; "samlConfig"; "issuer"; "domain";
                          "organizationId"] ->
                    getField k obj = None)
    /\ (forall p o data,
          (forall r, In r db -> id r = p -> organizationId r <> Some o) ->
          findById JSON_parse p o db = Resolved None
          /\ update JSON_parse p data o db = (Resolved None, db)
          /\ delete JSON_parse p o db = (Resolved false, db)).
Proof.
  intros JSON_parse db. split; [|split].
  - unfold findAllPublic, select. induction db as [|r db IH]; simpl.
    + constructor.
    + constructor; [reflexivity | exact IH].
  - intros obj Hin. unfold findAllPublic, select in Hin.
    apply in_map_iff in Hin. destruct Hin as [r [<- _]].
    split; [reflexivity|].
    intros k Hk. simpl in Hk.
    repeat (destruct Hk as [<-|Hk]; [reflexivity|]). contradiction.
  - intros p o data Hforeign.
    assert (Hfind : findById JSON_parse p o db = Resolved None).
    { unfold findById.
      rewrite (@filter_none _ _ _ (@ownedBy_foreign p o db Hforeign)). reflexivity. }
    split; [exact Hfind|]. split.
    + unfold update. rewrite Hfind. reflexivity.
    + unfold delete. rewrite Hfind. reflexivity.
Qed.

Definition sampleProviders : Table :=
  [ mkRow "p1" "https://idp.a.example" (Some "{}") None None "okta-a" (Some "orgA") "a.example";
    mkRow "p2" "https://idp.b.example" None (Some "{}") None "saml-b" (Some "orgB") "b.example";
    mkRow "p3" "https://idp.c.example" None None None "orphan" None "c.example" ].

Definition renameIssuer : UpdateData :=
  mkUpdate (Some "https://evil.example") None None None None.

Lemma ssoProvider_public_and_isolation_witness :
  findById (fun _ => Resolved JNull) "p1" "orgB" sampleProviders = Resolved None
  /\ update (fun _ => Resolved JNull) "p1" renameIssuer "orgB" sampleProviders
     = (Resolved None, sampleProviders)
  /\ delete (fun _ => Resolved JNull) "p1" "orgB" sampleProviders
     = (Resolved false, sampleProviders).
Proof.
  apply (proj2 (proj2 (ssoProvider_public_and_isolation
                         (fun _ => Resolved JNull) sampleProviders))).
  intros r Hr Hid. simpl in Hr.
  repeat (destruct Hr as [<-|Hr]; [discriminate|]). contradiction.
Defined.

(** ** findAll, and the reach of update and delete *)

Section MoreModel.
Variable JSON_parse : string -> Outcome Json.

Lemma withParsedConfigs_fields : forall r obj,
    withParsedConfigs JSON_parse r = Resolved obj ->
    getField "id" obj = Some (FText (id r))
    /\ getField "organizationId" obj = Some (nullable (organizationId r))
    /\ getField "providerId" obj = Some (FText (providerId r)).
Proof.
  intros r obj H. unfold withParsedConfigs in H.
  destruct (parseConfig JSON_parse (oidcConfig r)) as [oidc|e]; [|discriminate H].
  destruct (parseConfig JSON_parse (samlConfig r)) as [saml|e]; [|discriminate H].
  injection H as <-. repeat split; reflexivity.
Qed.

Lemma eqNullable_true : forall c o, eqNullable c o = true <-> c = Some o.
Proof.
  intros [x|] o; cbn.
  - rewrite String.eqb_eq. split; [intros ->; reflexivity | congruence].
  - split; discriminate.
Qed.

Lemma parseAll_resolved : forall rows objs,
    parseAll JSON_parse rows = Resolved objs <->
    Forall2 (fun r obj => withParsedConfigs JSON_parse r = Resolved obj) rows objs.
Proof.
  induction rows as [|r rows IH]; intro objs; cbn [parseAll].
  - split.
    + intro H. injection H as <-. constructor.
    + intro H. inversion H. reflexivity.
  - destruct (withParsedConfigs JSON_parse r) as [obj|e] eqn:Hr.
    + destruct (parseAll JSON_parse rows) as [rest|e] eqn:Hrest.
      * split.
        -- intro H. injection H as <-. constructor; [exact Hr | apply IH; reflexivity].
        -- intro H. inversion H as [|a b la lb Hab Hl]; subst.
           apply IH in Hl. congruence.
      * split; [discriminate|]. intro H. inversion H as [|a b la lb Hab Hl]; subst.
        apply IH in Hl. discriminate Hl.
    + split; [discriminate|]. intro H. inversion H; subst. congruence.
Qed.

End MoreModel.

(** [findAll(o)] only ever looks at the providers of organization [o]:
    rows of other organizations change neither whether it succeeds nor
    what it returns.  When every config of those providers parses it
    succeeds, and what it returns is one object per provider of [o], in
    table order, each carrying that provider's id and organization [o]. *)
Theorem findAll_tenant_isolation :
  forall (JSON_parse : string -> Outcome Json) (o : string) (db : Table),
    findAll JSON_parse o db = findAll JSON_parse o (filter (inOrganization o) db)
    /\ ((forall r, In r db -> organizationId r = Some o ->
                   exists obj, withParsedConfigs JSON_parse r = Resolved obj) ->
        exists objs, findAll JSON_parse o db = Resolved objs)
    /\ (forall objs, findAll JSON_parse o db = Resolved objs ->
          Forall2 (fun r obj =>
                     organizationId r = Some o
                     /\ getField "id" obj = Some (FText (id r))
                     /\ getField "organizationId" obj = Some (FText o))
                  (filter (inOrganization o) db) objs).
Proof.
  intros JSON_parse o db. split; [|split].
  - unfold findAll. f_equal. symmetry. apply ListFacts.filter_all.
    intros r Hr. apply filter_In in Hr. exact (proj2 Hr).
  - intro Hall. unfold findAll.
    assert (Hrows : forall r, In r (filter (inOrganization o) db) ->
                              exists obj, withParsedConfigs JSON_parse r = Resolved obj).
    { intros r Hr. apply filter_In in Hr. destruct Hr as [Hr Ho].
      apply (Hall r Hr). apply eqNullable_true. exact Ho. }
    induction (filter (inOrganization o) db) as [|r rows IH]; cbn [parseAll].
    + eexists. reflexivity.
    + destruct (Hrows r (or_introl eq_refl)) as [obj ->].
      destruct IH as [objs ->]; [intros x Hx; apply Hrows; right; exact Hx|].
      eexists. reflexivity.
  - intros objs H. unfold findAll in H. apply parseAll_resolved in H.
    assert (Hin : forall r, In r (filter (inOrganization o) db) ->
                            organizationId r = Some o).
    { intros r Hr. apply filter_In in Hr. apply eqNullable_true. exact (proj2 Hr). }
    induction H as [|r obj rows objs Hr H IH]; constructor.
    + pose proof (Hin r (or_introl eq_refl)) as Ho.
      destruct (withParsedConfigs_fields _ _ Hr) as [Hid [Horg _]].
      split; [exact Ho|]. split; [exact Hid|]. rewrite Horg, Ho. reflexivity.
    + apply IH. intros x Hx. apply Hin. right. exact Hx.
Qed.

Lemma findAll_tenant_isolation_witness :
  exists objs, findAll (fun _ => Resolved JNull) "orgA" sampleProviders = Resolved objs.
Proof.
  apply (proj1 (proj2 (findAll_tenant_isolation (fun _ => Resolved JNull) "orgA"
                         sampleProviders))).
  intros r Hr Ho. cbn in Hr.
  repeat (destruct Hr as [<-|Hr]; [eexists; reflexivity|]). contradiction.
Defined.

(** [update] and [delete] reach only the provider addressed by id and
    organization.  [update] keeps every row in place and leaves each row
    that is not that provider as it was.  [delete] removes nothing else
    either; when it answers true, the provider was there and a lookup
    afterwards finds nothing. *)
Theorem update_delete_scoped :
  forall (JSON_parse : string -> Outcome Json) (p o : string) (data : UpdateData)
         (db : Table),
    Forall2 (fun r r' => r' = r
                         \/ (ownedBy p o r = true /\ r' = applyUpdate data r))
            db (snd (update JSON_parse p data o db))
    /\ (forall r, In r db -> ownedBy p o r = false ->
                  In r (snd (delete JSON_parse p o db)))
    /\ (forall r, In r (snd (delete JSON_parse p o db)) -> In r db)
    /\ (fst (delete JSON_parse p o db) = Resolved true ->
        (exists r, In r db /\ id r = p /\ organizationId r = Some o)
        /\ findById JSON_parse p o (snd (delete JSON_parse p o db)) = Resolved None).
Proof.
  intros JSON_parse p o data db.
  assert (Hsame : Forall2 (fun r r' : Row => r' = r
                             \/ (ownedBy p o r = true /\ r' = applyUpdate data r)) db db).
  { induction db; constructor; auto. }
  assert (Hupd : Forall2 (fun r r' : Row => r' = r
                            \/ (ownedBy p o r = true /\ r' = applyUpdate data r))
                         db (map (fun r => if ownedBy p o r then applyUpdate data r else r) db)).
  { clear Hsame. induction db as [|r db IH]; cbn; constructor; [|exact IH].
    destruct (ownedBy p o r); [right; split; reflexivity | left; reflexivity]. }
  split; [|split; [|split]].
  - unfold update. destruct (findById JSON_parse p o db) as [[existing|]|e];
      cbn [snd]; try exact Hsame.
    destruct (setsNothing data); [exact Hsame|].
    unfold updateWhere.
    destruct (map (applyUpdate data) (filter (ownedBy p o) db)) as [|updated rest];
      [exact Hupd|].
    destruct (withParsedConfigs JSON_parse updated); exact Hupd.
  - intros r Hr Hno. unfold delete.
    destruct (findById JSON_parse p o db) as [[existing|]|e]; cbn [snd]; try exact Hr.
    unfold deleteWhere. cbn [snd]. apply filter_In. split; [exact Hr|].
    rewrite Hno. reflexivity.
  - intros r. unfold delete.
    destruct (findById JSON_parse p o db) as [[existing|]|e]; cbn [snd]; try (intro H; exact H).
    unfold deleteWhere. cbn [snd]. intro H. apply filter_In in H. exact (proj1 H).
  - unfold delete. destruct (findById JSON_parse p o db) as [[existing|]|e] eqn:Hfind;
      cbn [fst snd]; try discriminate.
    unfold deleteWhere. cbn [fst snd]. intro Hlen. split.
    + destruct (filter (ownedBy p o) db) as [|r rest] eqn:Hf; [discriminate Hlen|].
      assert (Hin : In r (filter (ownedBy p o) db)) by (rewrite Hf; left; reflexivity).
      apply filter_In in Hin. destruct Hin as [Hin Hown].
      unfold ownedBy in Hown. apply andb_true_iff in Hown. destruct Hown as [Hid Horg].
      exists r. split; [exact Hin|]. split; [apply String.eqb_eq; exact Hid|].
      apply eqNullable_true. exact Horg.
    + unfold findById. rewrite filter_none; [reflexivity|].
      intros r Hr. apply filter_In in Hr. apply negb_true_iff. exact (proj2 Hr).
Qed.

Lemma update_delete_scoped_witness :
  (exists r, In r sampleProviders /\ id r = "p1" /\ organizationId r = Some "orgA")
  /\ findById (fun _ => Resolved JNull) "p1" "orgA"
              (snd (delete (fun _ => Resolved JNull) "p1" "orgA" sampleProviders))
     = Resolved None.
Proof.
  apply (proj2 (proj2 (proj2 (update_delete_scoped (fun _ => Resolved JNull) "p1" "orgA"
                                renameIssuer sampleProviders)))).
  reflexivity.
Defined.

End SsoProviderFacts.

Module MemberFacts.
Import Member.

(** [deleteByMemberOrUserId(x, org)].  When a member has id [x], the
    members with that id are removed, whatever their organization, and
    the first is returned.  Otherwise, with a non-empty [org], the members
    with user id [x] in organization [org] are removed and the first, if
    any, is returned; with an empty [org] nothing is removed.  A member
    whose id is not [x] and who is not user [x] of organization [org] is
    never removed. *)
Theorem deleteByMemberOrUserId_spec :
  forall (x org : string) (db : Table),
    ((exists r, In r db /\ id r = x) ->
     snd (deleteByMemberOrUserId x org db)
     = filter (fun r => negb (String.eqb (id r) x)) db
     /\ exists r, fst (deleteByMemberOrUserId x org db) = Some r
                  /\ In r db /\ id r = x)
    /\ ((forall r, In r db -> id r <> x) -> org <> "" ->
        snd (deleteByMemberOrUserId x org db)
        = filter (fun r => negb (String.eqb (userId r) x
                                 && String.eqb (organizationId r) org)) db
        /\ fst (deleteByMemberOrUserId x org db)
           = hd_error (filter (fun r => String.eqb (userId r) x
                                        && String.eqb (organizationId r) org) db))
    /\ ((forall r, In r db -> id r <> x) -> org = "" ->
        deleteByMemberOrUserId x org db = (None, db))
    /\ (forall r, In r db -> id r <> x ->
                  userId r <> x \/ organizationId r <> org ->
                  In r (snd (deleteByMemberOrUserId x org db))).
Proof.
  intros x org db.
  assert (Hnone : (forall r, In r db -> id r <> x) ->
                  filter (fun r => String.eqb (id r) x) db = []
                  /\ filter (fun r => negb (String.eqb (id r) x)) db = db).
  { intro H. split.
    - apply SsoProviderFacts.filter_none. intros r Hr.
      apply String.eqb_neq. exact (H r Hr).
    - apply ListFacts.filter_all. intros r Hr.
      apply negb_true_iff, String.eqb_neq. exact (H r Hr). }
  split; [|split; [|split]].
  - intros [r [Hr Hid]]. unfold deleteByMemberOrUserId, deleteWhere.
    destruct (filter (fun r0 => String.eqb (id r0) x) db) as [|first rest] eqn:Hf.
    + exfalso. pose proof (ListFacts.filter_nil_none _ _ Hf r Hr) as Hn. cbv beta in Hn.
      rewrite Hid, String.eqb_refl in Hn. discriminate Hn.
    + cbn [fst snd]. split; [reflexivity|]. exists first. split; [reflexivity|].
      assert (Hin : In first (filter (fun r0 => String.eqb (id r0) x) db))
        by (rewrite Hf; left; reflexivity).
      apply filter_In in Hin. destruct Hin as [Hin Heq].
      split; [exact Hin | apply String.eqb_eq; exact Heq].
  - intros Hno Horg. destruct (Hnone Hno) as [Hf Hk].
    unfold deleteByMemberOrUserId, deleteWhere. rewrite Hf, Hk.
    destruct org; [contradiction Horg; reflexivity|]. cbn. split; reflexivity.
  - intros Hno ->. destruct (Hnone Hno) as [Hf Hk].
    unfold deleteByMemberOrUserId, deleteWhere. rewrite Hf, Hk. reflexivity.
  - intros r Hr Hid Hother. unfold deleteByMemberOrUserId, deleteWhere.
    assert (Hkeep : In r (filter (fun r0 => negb (String.eqb (id r0) x)) db)).
    { apply filter_In. split; [exact Hr|].
      apply negb_true_iff, String.eqb_neq. exact Hid. }
    destruct (filter (fun r0 => String.eqb (id r0) x) db) as [|first rest];
      [|exact Hkeep].
    destruct (Js.truthyString org); [|exact Hkeep].
    cbn [snd]. apply filter_In. split; [exact Hkeep|].
    apply negb_true_iff, andb_false_iff.
    destruct Hother as [Hu|Ho]; [left | right]; apply String.eqb_neq; assumption.
Qed.

Definition sampleMembers : Table :=
  [ mkRow "m1" "orgA" "u1" "admin" 1;
    mkRow "m2" "orgA" "u2" "member" 2;
    mkRow "m3" "orgB" "u2" "member" 3 ].

Lemma deleteByMemberOrUserId_spec_witness :
  (snd (deleteByMemberOrUserId "m3" "orgA" sampleMembers)
   = filter (fun r => negb (String.eqb (id r) "m3")) sampleMembers
   /\ exists r, fst (deleteByMemberOrUserId "m3" "orgA" sampleMembers) = Some r
                /\ In r sampleMembers /\ id r = "m3")
  /\ (snd (deleteByMemberOrUserId "u2" "orgA" sampleMembers)
      = filter (fun r => negb (String.eqb (userId r) "u2"
                               && String.eqb (organizationId r) "orgA")) sampleMembers
      /\ fst (deleteByMemberOrUserId "u2" "orgA" sampleMembers)
         = hd_error (filter (fun r => String.eqb (userId r) "u2"
                                      && String.eqb (organizationId r) "orgA")
                            sampleMembers))
  /\ deleteByMemberOrUserId "u2" "" sampleMembers = (None, sampleMembers)
  /\ In (mkRow "m3" "orgB" "u2" "member" 3)
        (snd (deleteByMemberOrUserId "u2" "orgA" sampleMembers)).
Proof.
  assert (Hno : forall r, In r sampleMembers -> id r <> "u2").
  { intros r Hr. cbn in Hr.
    repeat (destruct Hr as [<-|Hr]; [discriminate|]). contradiction. }
  split; [|split; [|split]].
  - apply (proj1 (deleteByMemberOrUserId_spec "m3" "orgA" sampleMembers)).
    exists (mkRow "m3" "orgB" "u2" "member" 3). split; [cbn; tauto | reflexivity].
  - apply (proj1 (proj2 (deleteByMemberOrUserId_spec "u2" "orgA" sampleMembers)) Hno).
    discriminate.
  - apply (proj1 (proj2 (proj2 (deleteByMemberOrUserId_spec "u2" "" sampleMembers))) Hno).
    reflexivity.
  - apply (proj2 (proj2 (proj2 (deleteByMemberOrUserId_spec "u2" "orgA" sampleMembers)))).
    + cbn. tauto.
    + discriminate.
    + right. discriminate.
Defined.

End MemberFacts.

Module OrganizationFacts.
Import Js JsFacts Organization.

Lemma exceedsMaxSize_spec : forall logo,
    exceedsMaxSize logo = false <->
    (inject_Z (Z.of_nat (String.length logo)) <= 2.66 * 1024 * 1024)%Q.
Proof.
  intro logo. unfold exceedsMaxSize. rewrite negb_false_iff.
  apply Qle_bool_iff.
Qed.

Lemma exceedsMaxSize_true : forall logo,
    exceedsMaxSize logo = true <->
    (2.66 * 1024 * 1024 < inject_Z (Z.of_nat (String.length logo)))%Q.
Proof.
  intro logo. rewrite <- not_false_iff_true, exceedsMaxSize_spec.
  split.
  - apply Qnot_le_lt.
  - apply Qlt_not_le.
Qed.

(** In whole characters the limit is 2789212. *)
Lemma exceedsMaxSize_chars : forall logo,
    exceedsMaxSize logo = false <->
    (Z.of_nat (String.length logo) <= 2789212)%Z.
Proof.
  intro logo. unfold exceedsMaxSize. rewrite negb_false_iff.
  unfold Qle_bool, maxSize. cbn. rewrite Z.leb_le.
  lia.
Qed.

Lemma prefixed_truthy : forall rest, truthyString (PNG_PREFIX ++ rest) = true.
Proof. reflexivity. Qed.

Lemma updateById_head : forall data r rest,
    updateById (id r) data (r :: rest) =
    (applySet data r ::
       map (applySet data) (filter (fun x => String.eqb (id x) (id r)) rest),
     applySet data r ::
       map (fun x => if String.eqb (id x) (id r) then applySet data x else x) rest).
Proof.
  intros data r rest. unfold updateById. simpl.
  rewrite String.eqb_refl. reflexivity.
Qed.

(** C8.  For an admin caller of POST /api/organization/logo: a logo
    that starts with the PNG data-URI prefix and is not longer than
    2.66 * 1024 * 1024 characters is answered with 200 and is stored: the
    organization the handler updated, looked up by its id, holds that
    logo with logo type "custom" afterwards, as does every row of that
    id.  A logo without the prefix, or longer than the limit, is
    answered with 400 [validation_error] and the table is left as it
    was. *)
Theorem uploadLogo_validation :
  forall (u : User) (logo : string) (now : Z) (db : Table),
    isAdmin u = true ->
    ((exists rest, logo = "data:image/png;base64," ++ rest) ->
     (inject_Z (Z.of_nat (String.length logo)) <= 2.66 * 1024 * 1024)%Q ->
     fst (uploadLogo (Resolved (Some u)) logo now db)
       = mkReply 200 (LogoUploaded true (Some logo))
     /\ (exists stored,
            getById (id (fst (getOrCreateDefaultOrganization now db)))
                    (snd (uploadLogo (Resolved (Some u)) logo now db))
            = Some stored
            /\ Organization.logo stored = Some logo
            /\ logoType stored = Some "custom")
     /\ (forall r,
            In r (snd (uploadLogo (Resolved (Some u)) logo now db)) ->
            id r = id (fst (getOrCreateDefaultOrganization now db)) ->
            Organization.logo r = Some logo /\ logoType r = Some "custom"))
    /\ ((~ (exists rest, logo = "data:image/png;base64," ++ rest) \/
         (2.66 * 1024 * 1024 < inject_Z (Z.of_nat (String.length logo)))%Q) ->
        status (fst (uploadLogo (Resolved (Some u)) logo now db)) = 400%Z
        /\ (exists message,
               body (fst (uploadLogo (Resolved (Some u)) logo now db))
               = ErrorResponse message "validation_error")
        /\ snd (uploadLogo (Resolved (Some u)) logo now db) = db).
Proof.
  intros u logo now db Hadmin. split.
  - intros [rest Hrest] Hsize.
    apply exceedsMaxSize_spec in Hsize.
    assert (Hpre : startsWith logo PNG_PREFIX = true)
      by (apply startsWith_spec; exists rest; exact Hrest).
    assert (Htruthy : truthyString logo = true)
      by (rewrite Hrest; apply prefixed_truthy).
    assert (Hrows : forall (i : string) (table : Table) (r : Row),
              In r (map (fun x => if String.eqb (id x) i
                                  then applySet (mkUpdate None None None (Some (Some logo))
                                                          (Some "custom")) x
                                  else x) table) ->
              id r = i ->
              Organization.logo r = Some logo /\ logoType r = Some "custom").
    { intros i table r Hr Hid. apply in_map_iff in Hr. destruct Hr as [x [Hx _]].
      destruct (String.eqb_spec (id x) i) as [_|Hne].
      - subst r. split; reflexivity.
      - subst r. contradiction. }
    unfold uploadLogo. rewrite Hadmin, Hpre, Hsize. cbn [negb].
    destruct db as [|r db].
    + cbn. rewrite Htruthy. split; [reflexivity|]. split.
      * eexists. split; [reflexivity|]. split; reflexivity.
      * intros x [<-|[]] _. split; reflexivity.
    + cbn [getOrCreateDefaultOrganization fst]. unfold updateAppearance.
      rewrite updateById_head. cbn [hd_error fst snd applySet Organization.logo
                                    setLogo orElse logoOrNull].
      rewrite Htruthy. split; [reflexivity|]. split.
      * unfold getById. cbn [filter id]. rewrite String.eqb_refl. cbn [hd_error].
        eexists. split; [reflexivity|]. split; reflexivity.
      * intros x [<-|Hx] Hid; [split; reflexivity|].
        exact (Hrows (id r) db x Hx Hid).
  - intros Hbad. unfold uploadLogo. rewrite Hadmin. cbn [negb].
    destruct (startsWith logo PNG_PREFIX) eqn:Hpre; cbn [negb].
    + destruct Hbad as [Hno|Hlong].
      * exfalso. apply Hno. apply startsWith_spec in Hpre. exact Hpre.
      * apply exceedsMaxSize_true in Hlong. rewrite Hlong. cbn.
        split; [reflexivity|]. split; [eexists; reflexivity | reflexivity].
    + cbn. split; [reflexivity|]. split; [eexists; reflexivity | reflexivity].
Qed.

Definition adminUser : User := mkUser true.

Definition acmeOrg : Row :=
  mkRow "org-1" "Acme" "acme" None None 0 None (Some "1h") "cosmic-night" "lato".

Lemma uploadLogo_validation_witness :
  (fst (uploadLogo (Resolved (Some adminUser)) "data:image/png;base64,iVBORw0KGgo=" 7 [acmeOrg])
     = mkReply 200 (LogoUploaded true (Some "data:image/png;base64,iVBORw0KGgo="))
   /\ (exists stored,
          getById (id (fst (getOrCreateDefaultOrganization 7 [acmeOrg])))
                  (snd (uploadLogo (Resolved (Some adminUser))
                                   "data:image/png;base64,iVBORw0KGgo=" 7 [acmeOrg]))
          = Some stored
          /\ Organization.logo stored = Some "data:image/png;base64,iVBORw0KGgo="
          /\ logoType stored = Some "custom")
   /\ (forall r,
          In r (snd (uploadLogo (Resolved (Some adminUser))
                                "data:image/png;base64,iVBORw0KGgo=" 7 [acmeOrg])) ->
          id r = id (fst (getOrCreateDefaultOrganization 7 [acmeOrg])) ->
          Organization.logo r = Some "data:image/png;base64,iVBORw0KGgo="
          /\ logoType r = Some "custom"))
  /\ (status (fst (uploadLogo (Resolved (Some adminUser))
                              "data:image/jpeg;base64,AAAA" 7 [acmeOrg])) = 400%Z
      /\ (exists message,
             body (fst (uploadLogo (Resolved (Some adminUser))
                                   "data:image/jpeg;base64,AAAA" 7 [acmeOrg]))
             = ErrorResponse message "validation_error")
      /\ snd (uploadLogo (Resolved (Some adminUser))
                         "data:image/jpeg;base64,AAAA" 7 [acmeOrg]) = [acmeOrg]).
Proof.
  split.
  - apply (proj1 (uploadLogo_validation adminUser
                    "data:image/png;base64,iVBORw0KGgo=" 7 [acmeOrg] eq_refl)).
    + exists "iVBORw0KGgo=". reflexivity.
    + apply Qle_bool_iff. reflexivity.
  - apply (proj2 (uploadLogo_validation adminUser
                    "data:image/jpeg;base64,AAAA" 7 [acmeOrg] eq_refl)).
    left. intros [rest H]. simpl in H. discriminate H.
Defined.

Lemma setsNothing_spec : forall data,
    setsNothing data = true <-> data = mkUpdate None None None None None.
Proof.
  intros [[t|] [f|] [c|] [l|] [k|]]; cbn; split; intro H;
    try reflexivity; discriminate H.
Qed.

Lemma setsNothing_false : forall data,
    data <> mkUpdate None None None None None -> setsNothing data = false.
Proof.
  intros data Hsets. apply not_true_is_false. intro H.
  apply Hsets. apply setsNothing_spec. exact H.
Qed.

(** C9.  PATCH /api/organization with a non-empty logo that lacks the
    PNG prefix or is longer than 2.66 * 1024 * 1024 characters:
    [OrganizationModel.patch] throws before any update and the route
    answers 500 [api_error] with the thrown message, the table being
    left as it was.  A logo that is [null] or absent is not validated:
    when the data set some field the update statement runs with the data
    as given, a [null] logo being written as [null] and an absent one
    leaving the logo as it was; when the data set no field at all the
    query builder throws "No values to set" and the route answers 500,
    the table again left as it was. *)
Theorem patch_logo_validation :
  forall (organizationId : string) (data : UpdateOrganization) (db : Table),
    (forall logo,
        setLogo data = Some (Some logo) -> logo <> "" ->
        (~ (exists rest, logo = "data:image/png;base64," ++ rest) \/
         (2.66 * 1024 * 1024 < inject_Z (Z.of_nat (String.length logo)))%Q) ->
        exists message,
          patch organizationId data db = (Rejected (newError message), db)
          /\ patchOrganization organizationId data db
             = (mkReply 500 (ErrorResponse message "api_error"), db))
    /\ ((setLogo data = Some None \/ setLogo data = None) ->
        (data <> mkUpdate None None None None None ->
         patch organizationId data db
           = (Resolved (hd_error (fst (updateById organizationId data db))),
              map (fun r => if String.eqb (id r) organizationId
                            then applySet data r else r) db)
         /\ forall r, Organization.logo (applySet data r)
                      = match setLogo data with
                        | Some written => written
                        | None => Organization.logo r
                        end)
        /\ (data = mkUpdate None None None None None ->
            patch organizationId data db = (Rejected (newError "No values to set"), db)
            /\ patchOrganization organizationId data db
               = (mkReply 500 (ErrorResponse "No values to set" "api_error"), db))).
Proof.
  intros organizationId data db. split.
  - intros logo Hlogo Hne Hbad.
    assert (Htruthy : truthyString logo = true)
      by (destruct logo; [contradiction Hne; reflexivity | reflexivity]).
    unfold patchOrganization, patch. rewrite Hlogo, Htruthy.
    destruct (startsWith logo PNG_PREFIX) eqn:Hpre; cbn [negb].
    + destruct Hbad as [Hno|Hlong].
      * exfalso. apply Hno. apply startsWith_spec in Hpre. exact Hpre.
      * apply exceedsMaxSize_true in Hlong. rewrite Hlong.
        eexists. split; reflexivity.
    + eexists. split; reflexivity.
  - intros Hnone. split.
    + intro Hsets. split.
      * unfold patch. rewrite (setsNothing_false Hsets).
        destruct Hnone as [-> | ->]; reflexivity.
      * intro r. unfold applySet. cbn [Organization.logo].
        destruct (setLogo data); reflexivity.
    + intros ->. split; reflexivity.
Qed.

Lemma patch_logo_validation_witness :
  (exists message,
      patch "org-1" (mkUpdate None None None (Some (Some "javascript:alert(1)")) None)
            [acmeOrg]
      = (Rejected (newError message), [acmeOrg])
      /\ patchOrganization "org-1"
           (mkUpdate None None None (Some (Some "javascript:alert(1)")) None) [acmeOrg]
         = (mkReply 500 (ErrorResponse message "api_error"), [acmeOrg]))
  /\ (patch "org-1" (mkUpdate None None None (Some None) None) [acmeOrg]
      = (Resolved (hd_error (fst (updateById "org-1"
                     (mkUpdate None None None (Some None) None) [acmeOrg]))),
         map (fun r => if String.eqb (id r) "org-1"
                       then applySet (mkUpdate None None None (Some None) None) r
                       else r) [acmeOrg])
      /\ forall r, Organization.logo
                     (applySet (mkUpdate None None None (Some None) None) r)
                   = None)
  /\ (patch "org-1" (mkUpdate None None None None None) [acmeOrg]
      = (Rejected (newError "No values to set"), [acmeOrg])
      /\ patchOrganization "org-1" (mkUpdate None None None None None) [acmeOrg]
         = (mkReply 500 (ErrorResponse "No values to set" "api_error"), [acmeOrg])).
Proof.
  split; [|split].
  - apply (proj1 (patch_logo_validation "org-1"
                    (mkUpdate None None None (Some (Some "javascript:alert(1)")) None)
                    [acmeOrg]) "javascript:alert(1)").
    + reflexivity.
    + discriminate.
    + left. intros [rest H]. simpl in H. discriminate H.
  - apply (proj1 (proj2 (patch_logo_validation "org-1"
                           (mkUpdate None None None (Some None) None) [acmeOrg])
                        (or_introl eq_refl))).
    discriminate.
  - apply (proj2 (proj2 (patch_logo_validation "org-1"
                           (mkUpdate None None None None None) [acmeOrg])
                        (or_intror eq_refl))).
    reflexivity.
Defined.

(** ** The other organization routes *)

(** The three routes that change the appearance answer a caller who is
    not an authenticated admin with 401 (no user), 403 (not an admin) or
    500 (the user lookup threw), and leave the table as it was. *)
Theorem appearance_routes_admin_only :
  forall (user : Outcome (option User)) (body : UpdateOrganization) (logo : string)
         (now : Z) (db : Table),
    (forall u, user = Resolved (Some u) -> isAdmin u = false) ->
    let refused :=
      match user with
      | Rejected _ => 500%Z
      | Resolved None => 401%Z
      | Resolved (Some _) => 403%Z
      end in
    (appearanceStatus (fst (putAppearance user body now db)) = refused
     /\ snd (putAppearance user body now db) = db)
    /\ (status (fst (uploadLogo user logo now db)) = refused
        /\ snd (uploadLogo user logo now db) = db)
    /\ (appearanceStatus (fst (deleteLogo user now db)) = refused
        /\ snd (deleteLogo user now db) = db).
Proof.
  intros user body logo now db Hnot.
  destruct user as [[u|]|e]; cbn.
  - rewrite (Hnot u eq_refl). cbn. repeat split.
  - repeat split.
  - repeat split.
Qed.

Lemma appearance_routes_admin_only_witness :
  (appearanceStatus (fst (putAppearance (Resolved (Some (mkUser false)))
                                        (mkUpdate (Some "ocean") None None None None)
                                        7 [acmeOrg])) = 403%Z
   /\ snd (putAppearance (Resolved (Some (mkUser false)))
                         (mkUpdate (Some "ocean") None None None None) 7 [acmeOrg])
      = [acmeOrg])
  /\ (status (fst (uploadLogo (Resolved (Some (mkUser false)))
                              "data:image/png;base64,AAAA" 7 [acmeOrg])) = 403%Z
      /\ snd (uploadLogo (Resolved (Some (mkUser false)))
                         "data:image/png;base64,AAAA" 7 [acmeOrg]) = [acmeOrg])
  /\ (appearanceStatus (fst (deleteLogo (Resolved (Some (mkUser false))) 7 [acmeOrg]))
      = 403%Z
      /\ snd (deleteLogo (Resolved (Some (mkUser false))) 7 [acmeOrg]) = [acmeOrg]).
Proof.
  apply (@appearance_routes_admin_only
           (Resolved (Some (mkUser false)))
           (mkUpdate (Some "ocean") None None None None)
           "data:image/png;base64,AAAA" 7 [acmeOrg]).
  intros u Hu. injection Hu as <-. reflexivity.
Defined.

(** [getOrCreateDefaultOrganization] never touches an organization that
    exists: on a non-empty table it returns the first row and changes
    nothing.  On an empty table it inserts the "default-org" row.  Either
    way the organization it returns is the first row afterwards, and a
    second call returns the same organization without inserting again. *)
Theorem getOrCreateDefaultOrganization_idempotent :
  forall (now later : Z) (db : Table),
    hd_error (snd (getOrCreateDefaultOrganization now db))
    = Some (fst (getOrCreateDefaultOrganization now db))
    /\ getOrCreateDefaultOrganization later (snd (getOrCreateDefaultOrganization now db))
       = getOrCreateDefaultOrganization now db
    /\ (db <> [] -> snd (getOrCreateDefaultOrganization now db) = db)
    /\ (db = [] ->
        id (fst (getOrCreateDefaultOrganization now db)) = "default-org"
        /\ slug (fst (getOrCreateDefaultOrganization now db)) = "default"
        /\ snd (getOrCreateDefaultOrganization now db)
           = [fst (getOrCreateDefaultOrganization now db)]).
Proof.
  intros now later db. destruct db as [|r db]; cbn.
  - split; [reflexivity|]. split; [reflexivity|]. split.
    + intro H. contradiction H. reflexivity.
    + intros _. repeat split.
  - split; [reflexivity|]. split; [reflexivity|]. split.
    + intros _. reflexivity.
    + discriminate.
Qed.

Lemma getOrCreateDefaultOrganization_idempotent_witness :
  snd (getOrCreateDefaultOrganization 5 [acmeOrg]) = [acmeOrg]
  /\ id (fst (getOrCreateDefaultOrganization 5 [])) = "default-org".
Proof.
  split.
  - apply (proj1 (proj2 (proj2 (getOrCreateDefaultOrganization_idempotent 5 6 [acmeOrg])))).
    discriminate.
  - apply (proj2 (proj2 (proj2 (getOrCreateDefaultOrganization_idempotent 5 6 [])))).
    reflexivity.
Defined.

(** What GET /api/organization/appearance shows for an organization row. *)
Definition shown (r : Row) : AppearanceBody :=
  Appearance (orDefault (theme r) "cosmic-night") (orDefault (customFont r) "lato")
             (orDefaultOpt (logoType r) "default") (logoOrNull (Organization.logo r)).

Lemma getAppearance_first : forall viewer later r rest,
    fst (getAppearance (Resolved (Some viewer)) later (r :: rest))
    = mkAppearanceReply 200 (shown r).
Proof. reflexivity. Qed.

(** The life of a logo, seen through GET /api/organization/appearance,
    in a deployment with at most one organization (so that the route's
    unordered lookup of the organization has one answer).  After an
    admin uploaded an acceptable logo the appearance shows it with logo
    type "custom"; after an admin deleted the logo it shows no logo and
    logo type "default".  Theme and font are what they were before, in
    both cases, and there is still exactly one organization. *)
Theorem logo_lifecycle :
  forall (admin viewer : User) (logo : string) (now later : Z) (db : Table),
    (List.length db <= 1)%nat ->
    isAdmin admin = true ->
    (exists rest, logo = "data:image/png;base64," ++ rest) ->
    (inject_Z (Z.of_nat (String.length logo)) <= 2.66 * 1024 * 1024)%Q ->
    let before := fst (getOrCreateDefaultOrganization now db) in
    fst (getAppearance (Resolved (Some viewer)) later
                       (snd (uploadLogo (Resolved (Some admin)) logo now db)))
    = mkAppearanceReply 200
        (Appearance (orDefault (theme before) "cosmic-night")
                    (orDefault (customFont before) "lato") "custom" (Some logo))
    /\ List.length (snd (uploadLogo (Resolved (Some admin)) logo now db)) = 1
    /\ fst (deleteLogo (Resolved (Some admin)) now db)
       = mkAppearanceReply 200 (Success true)
    /\ fst (getAppearance (Resolved (Some viewer)) later
                          (snd (deleteLogo (Resolved (Some admin)) now db)))
       = mkAppearanceReply 200
           (Appearance (orDefault (theme before) "cosmic-night")
                       (orDefault (customFont before) "lato") "default" None)
    /\ List.length (snd (deleteLogo (Resolved (Some admin)) now db)) = 1.
Proof.
  intros admin viewer logo now later db Hone Hadmin [rest Hrest] Hsize before.
  apply exceedsMaxSize_spec in Hsize.
  assert (Hpre : startsWith logo PNG_PREFIX = true)
    by (apply startsWith_spec; exists rest; exact Hrest).
  assert (Htruthy : truthyString logo = true)
    by (rewrite Hrest; apply prefixed_truthy).
  unfold uploadLogo, deleteLogo. rewrite Hadmin, Hpre, Hsize. cbn [negb].
  subst before. destruct db as [|r [|r' db]].
  - cbn. rewrite Htruthy. repeat split.
  - cbn [getOrCreateDefaultOrganization fst]. unfold updateAppearance.
    rewrite !updateById_head. cbn [hd_error fst snd filter map List.length].
    rewrite !getAppearance_first. unfold shown, applySet. cbn.
    rewrite Htruthy. repeat split.
  - cbn [List.length] in Hone. lia.
Qed.

Lemma logo_lifecycle_witness :
  fst (getAppearance (Resolved (Some (mkUser false))) 9
                     (snd (uploadLogo (Resolved (Some adminUser))
                                      "data:image/png;base64,iVBORw0KGgo=" 7 [acmeOrg])))
  = mkAppearanceReply 200
      (Appearance "cosmic-night" "lato" "custom" (Some "data:image/png;base64,iVBORw0KGgo="))
  /\ List.length (snd (uploadLogo (Resolved (Some adminUser))
                                  "data:image/png;base64,iVBORw0KGgo=" 7 [acmeOrg])) = 1
  /\ fst (deleteLogo (Resolved (Some adminUser)) 7 [acmeOrg])
     = mkAppearanceReply 200 (Success true)
  /\ fst (getAppearance (Resolved (Some (mkUser false))) 9
                        (snd (deleteLogo (Resolved (Some adminUser)) 7 [acmeOrg])))
     = mkAppearanceReply 200 (Appearance "cosmic-night" "lato" "default" None)
  /\ List.length (snd (deleteLogo (Resolved (Some adminUser)) 7 [acmeOrg])) = 1.
Proof.
  apply (@logo_lifecycle adminUser (mkUser false) "data:image/png;base64,iVBORw0KGgo="
                         7 9 [acmeOrg]).
  - cbn. lia.
  - reflexivity.
  - exists "iVBORw0KGgo=". reflexivity.
  - apply Qle_bool_iff. reflexivity.
Defined.

(** A logo the validation of [patch] lets through: none, [null], the
    empty string, or a PNG data URI of at most 2789212 characters. *)
Definition logoAccepted (data : UpdateOrganization) : Prop :=
  match setLogo data with
  | Some (Some l) =>
      l = "" \/ ((exists rest, l = PNG_PREFIX ++ rest)
                 /\ (Z.of_nat (String.length l) <= 2789212)%Z)
  | _ => True
  end.

Lemma patch_accepted : forall i data db,
    data <> mkUpdate None None None None None ->
    logoAccepted data ->
    patch i data db
    = (Resolved (hd_error (fst (updateById i data db))), snd (updateById i data db)).
Proof.
  intros i data db Hsets Hok. unfold patch, logoAccepted in *.
  rewrite (setsNothing_false Hsets).
  destruct (setLogo data) as [[l|]|]; try reflexivity.
  destruct Hok as [->|[Hpre Hsize]]; [reflexivity|].
  apply JsFacts.startsWith_spec in Hpre. apply exceedsMaxSize_chars in Hsize.
  rewrite Hpre, Hsize. destruct (truthyString l); reflexivity.
Qed.

Lemma patch_table : forall i data db,
    snd (patch i data db) = db \/ snd (patch i data db) = snd (updateById i data db).
Proof.
  intros i data db. unfold patch.
  destruct (match setLogo data with
            | Some (Some logo) =>
                if truthyString logo
                then if negb (startsWith logo PNG_PREFIX)
                     then Some (newError "Logo must be a PNG image in base64 format")
                     else if exceedsMaxSize logo
                          then Some (newError "Logo must be less than 2MB")
                          else None
                else None
            | _ => None
            end); [left; reflexivity|].
  destruct (setsNothing data); [left | right]; reflexivity.
Qed.

Lemma patchOrganization_table : forall i data db,
    snd (patchOrganization i data db) = snd (patch i data db).
Proof.
  intros i data db. unfold patchOrganization.
  destruct (patch i data db) as [[[o|]|e] db']; reflexivity.
Qed.

Lemma updateById_others : forall i data db,
    Forall2 (fun r r' => id r' = id r /\ (id r <> i -> r' = r))
            db (snd (updateById i data db)).
Proof.
  intros i data db. unfold updateById. cbn [snd].
  induction db as [|r db IH]; cbn; constructor; [|exact IH].
  destruct (String.eqb_spec (id r) i) as [Heq|Hne].
  - split; [reflexivity | intro H; contradiction].
  - split; [reflexivity | reflexivity].
Qed.

Lemma updateById_absent : forall i data db,
    getById i db = None -> updateById i data db = ([], db).
Proof.
  intros i data db Hnone. unfold getById in Hnone. unfold updateById.
  destruct (filter (fun r => String.eqb (id r) i) db) as [|x xs] eqn:Hf;
    [|discriminate Hnone].
  cbn [map].
  pose proof (ListFacts.filter_nil_none _ _ Hf) as Hno. clear Hf Hnone.
  assert (Hmap : map (fun r => if String.eqb (id r) i then applySet data r else r) db = db).
  { induction db as [|r db IH]; [reflexivity|]. cbn [map].
    rewrite (Hno r (or_introl eq_refl)). f_equal.
    apply IH. intros x Hx. apply Hno. right. exact Hx. }
  rewrite Hmap. reflexivity.
Qed.

Lemma getById_updated : forall i data db,
    getById i (snd (updateById i data db)) = option_map (applySet data) (getById i db)
    /\ hd_error (fst (updateById i data db)) = option_map (applySet data) (getById i db).
Proof.
  intros i data db. unfold getById, updateById. cbn [fst snd].
  assert (H : filter (fun r => String.eqb (id r) i)
                     (map (fun r => if String.eqb (id r) i then applySet data r else r) db)
              = map (applySet data) (filter (fun r => String.eqb (id r) i) db)).
  { induction db as [|r db IH]; [reflexivity|]. cbn [map filter].
    destruct (String.eqb (id r) i) eqn:Hr.
    - cbn [applySet id]. rewrite Hr. cbn [map]. f_equal. exact IH.
    - rewrite Hr. exact IH. }
  rewrite H. destruct (filter (fun r => String.eqb (id r) i) db); split; reflexivity.
Qed.

(** PATCH /api/organization changes the addressed organization only:
    every row keeps its place and its id, and a row with another id is
    left as it was.  When no organization has the id the table is
    unchanged, and a request that sets some field and carries an
    accepted logo is answered 404.  When one has, such a request is
    answered with that organization as updated, and a
    GET /api/organization afterwards answers the same. *)
Theorem patch_then_get :
  forall (i : string) (data : UpdateOrganization) (db : Table),
    Forall2 (fun r r' => id r' = id r /\ (id r <> i -> r' = r))
            db (snd (patchOrganization i data db))
    /\ (getById i db = None ->
        snd (patchOrganization i data db) = db
        /\ (data <> mkUpdate None None None None None -> logoAccepted data ->
            fst (patchOrganization i data db)
            = mkReply 404 (ErrorResponse "Organization not found" "not_found")))
    /\ (forall r, getById i db = Some r ->
          data <> mkUpdate None None None None None -> logoAccepted data ->
          fst (patchOrganization i data db) = mkReply 200 (OrganizationBody (applySet data r))
          /\ getOrganization i (snd (patchOrganization i data db))
             = mkReply 200 (OrganizationBody (applySet data r))).
Proof.
  intros i data db. split; [|split].
  - rewrite patchOrganization_table.
    destruct (patch_table i data db) as [-> | ->].
    + induction db; constructor; auto.
    + apply updateById_others.
  - intro Hnone. split.
    + rewrite patchOrganization_table.
      destruct (patch_table i data db) as [-> | ->]; [reflexivity|].
      rewrite (@updateById_absent i data db Hnone). reflexivity.
    + intros Hsets Hok. unfold patchOrganization.
      rewrite (@patch_accepted i data db Hsets Hok), (@updateById_absent i data db Hnone).
      reflexivity.
  - intros r Hr Hsets Hok. unfold patchOrganization, getOrganization.
    rewrite (@patch_accepted i data db Hsets Hok).
    destruct (getById_updated i data db) as [Hget Hhd].
    rewrite Hhd, Hr. cbn [option_map fst snd]. rewrite Hget, Hr. split; reflexivity.
Qed.

Lemma patch_then_get_witness :
  (snd (patchOrganization "org-9" (mkUpdate (Some "ocean") None None None None) [acmeOrg])
   = [acmeOrg]
   /\ fst (patchOrganization "org-9" (mkUpdate (Some "ocean") None None None None) [acmeOrg])
      = mkReply 404 (ErrorResponse "Organization not found" "not_found"))
  /\ (fst (patchOrganization "org-1" (mkUpdate (Some "ocean") None None None None) [acmeOrg])
      = mkReply 200 (OrganizationBody
                       (applySet (mkUpdate (Some "ocean") None None None None) acmeOrg))
      /\ getOrganization "org-1"
           (snd (patchOrganization "org-1" (mkUpdate (Some "ocean") None None None None)
                                   [acmeOrg]))
         = mkReply 200 (OrganizationBody
                          (applySet (mkUpdate (Some "ocean") None None None None) acmeOrg))).
Proof.
  assert (Hsets : mkUpdate (Some "ocean") None None None None
                  <> mkUpdate None None None None None) by discriminate.
  split.
  - destruct (proj1 (proj2 (patch_then_get "org-9"
                              (mkUpdate (Some "ocean") None None None None) [acmeOrg]))
                    eq_refl) as [Htable Hreply].
    split; [exact Htable | apply Hreply; [exact Hsets | exact I]].
  - apply (proj2 (proj2 (patch_then_get "org-1"
                           (mkUpdate (Some "ocean") None None None None) [acmeOrg]))
             acmeOrg eq_refl Hsets I).
Defined.

End OrganizationFacts.

Module A2AFacts.
Import Js A2A.

Section RoutesFacts.
Variable endpoint : string.
Variable defaultModel : string.
Variable PromptModel_findById : string -> option Prompt.
Variable AgentModel_findById : string -> option Agent.
Variable UserModel_getById : string -> option User.
Variable extractBearerToken : Request -> option string.
Variable validateMCPGatewayToken : string -> string -> option TokenAuth.
Variables Tools Model : Type.
Variable getChatMcpTools : string -> string -> string -> bool -> Outcome Tools.
Variable createLLMModelForAgent : string -> string -> string -> string -> Outcome Model.
Variable streamText : Model -> option string -> string -> Tools -> Outcome string.
Variable newMessageId : string.

Local Abbreviation agentCard :=
  (getAgentCard endpoint PromptModel_findById AgentModel_findById
                extractBearerToken validateMCPGatewayToken).

Local Abbreviation rpc :=
  (executeMessage defaultModel PromptModel_findById AgentModel_findById
                  UserModel_getById extractBearerToken validateMCPGatewayToken
                  getChatMcpTools createLLMModelForAgent streamText newMessageId).

Local Abbreviation run :=
  (execute defaultModel getChatMcpTools createLLMModelForAgent streamText).

(** C10.  The AgentCard handler looks the prompt and the agent up
    before it looks at the bearer token: an unknown prompt is answered
    404 "Prompt not found" for every request, with or without an
    Authorization header, and a 401 only comes back when both the
    prompt and its owning agent exist. *)
Theorem getAgentCard_lookup_before_token :
  forall (request : Request) (pid : string),
    (PromptModel_findById pid = None ->
     agentCard request pid = ApiError 404 "Prompt not found"
     /\ agentCard (mkRequest None (forwardedProto request) (host request)) pid
        = ApiError 404 "Prompt not found"
     /\ responseStatus (agentCard request pid) = 404%Z)
    /\ (responseStatus (agentCard request pid) = 401%Z ->
        exists prompt agent,
          PromptModel_findById pid = Some prompt
          /\ AgentModel_findById (agentId prompt) = Some agent).
Proof.
  intros request pid. split.
  - intro Hmissing. unfold getAgentCard. rewrite Hmissing.
    repeat split; reflexivity.
  - unfold getAgentCard.
    destruct (PromptModel_findById pid) as [prompt|]; [|cbn; discriminate].
    destruct (AgentModel_findById (agentId prompt)) as [agent|] eqn:Ha;
      [|cbn; discriminate].
    intros _. exists prompt, agent. split; [reflexivity | exact Ha].
Qed.

(** The identity the execution runs under: the token's user when the
    token is user-scoped and that user exists, "system" for a team or
    organization token. *)
Definition callerOf (auth : TokenAuth) (uid : string) : Prop :=
  match userId auth with
  | Some u =>
      if truthyString u
      then uid = u /\ exists usr, UserModel_getById u = Some usr
      else uid = "system"
  | None => uid = "system"
  end.




(** A reply carries a result or an error, never both and never neither;
    and a result is only ever sent to a caller whose bearer token the
    gateway accepted for the agent that owns the prompt, whose message
    has text, and after the execution returned: the result is then the
    execution's text in one text part of an agent message. *)
Theorem executeMessage_result_authorized :
  forall (request : Request) (pid : string) (body : JsonRpcRequest),
    ((result (rpc request pid body) = None /\ error (rpc request pid body) <> None)
     \/ (result (rpc request pid body) <> None /\ error (rpc request pid body) = None))
    /\ (forall m, result (rpc request pid body) = Some m ->
          exists prompt agent token auth uid finalText,
            PromptModel_findById pid = Some prompt
            /\ AgentModel_findById (agentId prompt) = Some agent
            /\ extractBearerToken request = Some token
            /\ validateMCPGatewayToken (agentIdOf agent) token = Some auth
            /\ callerOf auth uid
            /\ userMessageOf body <> ""
            /\ run prompt agent uid (organizationId auth) (userMessageOf body)
               = Resolved finalText
            /\ m = mkA2AMessage newMessageId roleAgent [mkPart text finalText]).
Proof.
  intros request pid body. unfold executeMessage.
  destruct (PromptModel_findById pid) as [prompt|] eqn:Hp;
    [|split; [left; split; [reflexivity | discriminate] | discriminate]].
  destruct (AgentModel_findById (agentId prompt)) as [agent|] eqn:Ha;
    [|split; [left; split; [reflexivity | discriminate] | discriminate]].
  destruct (extractBearerToken request) as [token|] eqn:Ht;
    [|split; [left; split; [reflexivity | discriminate] | discriminate]].
  destruct (validateMCPGatewayToken (agentIdOf agent) token) as [auth|] eqn:Hv;
    [|split; [left; split; [reflexivity | discriminate] | discriminate]].
  assert (Hcaller : forall uid,
            match userId auth with
            | Some u => if truthyString u
                        then match UserModel_getById u with
                             | Some _ => Some u
                             | None => None
                             end
                        else Some "system"
            | None => Some "system"
            end = Some uid -> callerOf auth uid).
  { intros uid. unfold callerOf. destruct (userId auth) as [u|].
    - destruct (truthyString u).
      + destruct (UserModel_getById u) as [usr|] eqn:Hu; [|discriminate].
        intro H. injection H as <-. split; [reflexivity | exists usr; reflexivity].
      + intro H. injection H as <-. reflexivity.
    - intro H. injection H as <-. reflexivity. }
  destruct (match userId auth with
            | Some u => if truthyString u
                        then match UserModel_getById u with
                             | Some _ => Some u
                             | None => None
                             end
                        else Some "system"
            | None => Some "system"
            end) as [uid|];
    [|split; [left; split; [reflexivity | discriminate] | discriminate]].
  destruct (truthyString (userMessageOf body)) eqn:Hmsg; cbn [negb];
    [|split; [left; split; [reflexivity | discriminate] | discriminate]].
  destruct (execute defaultModel getChatMcpTools createLLMModelForAgent streamText
                    prompt agent uid (organizationId auth) (userMessageOf body))
    as [finalText|e] eqn:Hrun;
    [|split; [left; split; [reflexivity | discriminate] | discriminate]].
  split; [right; split; [discriminate | reflexivity]|].
  intros m Hm. cbn in Hm. injection Hm as <-.
  exists prompt, agent, token, auth, uid, finalText.
  repeat (split; [first [reflexivity | assumption | apply Hcaller; reflexivity]|]).
  split.
  - intro Hempty. rewrite Hempty in Hmsg. discriminate Hmsg.
  - split; [exact Hrun | reflexivity].
Qed.

(** An AgentCard is disclosed exactly to a caller whose bearer token the
    gateway accepted for the agent that owns the prompt.  The card then
    names the prompt, its url is the request's protocol and host (http
    and localhost:9000 when the headers are missing or empty) followed by
    the endpoint and the prompt id, and it advertises one skill.  Every
    other request is answered 404 or 401. *)
Theorem getAgentCard_disclosure :
  forall (request : Request) (pid : string),
    (forall card, agentCard request pid = Sent card ->
       exists prompt agent token auth,
         PromptModel_findById pid = Some prompt
         /\ AgentModel_findById (agentId prompt) = Some agent
         /\ extractBearerToken request = Some token
         /\ validateMCPGatewayToken (agentIdOf agent) token = Some auth
         /\ cardName card = promptName prompt
         /\ url card = (orString (forwardedProto request) "http" ++ "://"
                        ++ orString (host request) "localhost:9000")
                       ++ endpoint ++ "/" ++ promptId prompt
         /\ map skillId (skills card) = [promptId prompt ++ "-skill"])
    /\ (forall prompt agent token auth,
          PromptModel_findById pid = Some prompt ->
          AgentModel_findById (agentId prompt) = Some agent ->
          extractBearerToken request = Some token ->
          validateMCPGatewayToken (agentIdOf agent) token = Some auth ->
          exists card, agentCard request pid = Sent card)
    /\ ((exists card, agentCard request pid = Sent card)
        \/ responseStatus (agentCard request pid) = 404%Z
        \/ responseStatus (agentCard request pid) = 401%Z).
Proof.
  intros request pid. unfold getAgentCard. split; [|split].
  - intros card.
    destruct (PromptModel_findById pid) as [prompt|]; [|discriminate].
    destruct (AgentModel_findById (agentId prompt)) as [agent|] eqn:Ha; [|discriminate].
    destruct (extractBearerToken request) as [token|]; [|discriminate].
    destruct (validateMCPGatewayToken (agentIdOf agent) token) as [auth|] eqn:Hv;
      [|discriminate].
    intro H. injection H as <-. exists prompt, agent, token, auth.
    cbn [cardName url skills map skillId].
    repeat (split; [first [reflexivity | assumption]|]).
    split; reflexivity.
  - intros prompt agent token auth -> -> -> ->. eexists. reflexivity.
  - destruct (PromptModel_findById pid) as [prompt|]; [|right; left; reflexivity].
    destruct (AgentModel_findById (agentId prompt)) as [agent|];
      [|right; left; reflexivity].
    destruct (extractBearerToken request) as [token|]; [|right; right; reflexivity].
    destruct (validateMCPGatewayToken (agentIdOf agent) token) as [auth|];
      [|right; right; reflexivity].
    left. eexists. reflexivity.
Qed.

End RoutesFacts.

(** A small deployment: one prompt owned by one agent, one accepted
    organization token. *)
Definition samplePrompts (pid : string) : option Prompt :=
  if String.eqb pid "prompt-1"
  then Some (mkPrompt "prompt-1" "agent-1" "Helper" (Some "You are helpful") None 1)
  else None.

Definition sampleAgents (aid : string) : option Agent :=
  if String.eqb aid "agent-1" then Some (mkAgent "agent-1" "Helper agent") else None.

Definition sampleUsers (uid : string) : option User :=
  if String.eqb uid "user-1" then Some (mkUser "user-1") else None.

Definition sampleExtract (request : Request) : option string :=
  match authorization request with
  | Some header =>
      if startsWith header "Bearer "
      then Some (String.substring 7 (String.length header - 7) header)
      else None
  | None => None
  end.

Definition sampleValidate (aid token : string) : option TokenAuth :=
  if String.eqb aid "agent-1" && String.eqb token "archestra_good"
  then Some (mkTokenAuth "org-1" None)
  else None.

Definition sampleTools (_ _ _ : string) (_ : bool) : Outcome unit := Resolved tt.
Definition sampleModel (_ _ _ _ : string) : Outcome unit := Resolved tt.
Definition sampleStream (_ : unit) (_ : option string) (prompt : string) (_ : unit)
  : Outcome string := Resolved ("echo: " ++ prompt).

Definition anonymous : Request := mkRequest None None (Some "archestra.test").
Definition bearer : Request :=
  mkRequest (Some "Bearer archestra_good") None (Some "archestra.test").

Definition sampleCard : Request -> string -> Handled AgentCard :=
  getAgentCard "/v1/a2a" samplePrompts sampleAgents sampleExtract sampleValidate.


Definition helloBody : JsonRpcRequest :=
  mkRpcRequest (IdNumber 2) "message/send"
               (Some (mkParams (Some (mkMessage (Some [mkPart text "hi"]))))).

Lemma getAgentCard_lookup_before_token_witness :
  (sampleCard anonymous "prompt-404" = ApiError 404 "Prompt not found"
   /\ sampleCard (mkRequest None (forwardedProto anonymous) (host anonymous)) "prompt-404"
      = ApiError 404 "Prompt not found"
   /\ responseStatus (sampleCard anonymous "prompt-404") = 404%Z)
  /\ (exists prompt agent,
         samplePrompts "prompt-1" = Some prompt
         /\ sampleAgents (agentId prompt) = Some agent).
Proof.
  split.
  - apply (proj1 (getAgentCard_lookup_before_token
                    "/v1/a2a" samplePrompts sampleAgents sampleExtract sampleValidate
                    anonymous "prompt-404")).
    reflexivity.
  - apply (proj2 (getAgentCard_lookup_before_token
                    "/v1/a2a" samplePrompts sampleAgents sampleExtract sampleValidate
                    anonymous "prompt-1")).
    reflexivity.
Defined.


Lemma executeMessage_result_authorized_witness :
  exists prompt agent token auth uid finalText,
    samplePrompts "prompt-1" = Some prompt
    /\ sampleAgents (agentId prompt) = Some agent
    /\ sampleExtract bearer = Some token
    /\ sampleValidate (agentIdOf agent) token = Some auth
    /\ callerOf sampleUsers auth uid
    /\ userMessageOf helloBody <> ""
    /\ execute "gpt-4o" sampleTools sampleModel sampleStream
               prompt agent uid (organizationId auth) (userMessageOf helloBody)
       = Resolved finalText
    /\ mkA2AMessage "msg-1" roleAgent [mkPart text "echo: hi"]
       = mkA2AMessage "msg-1" roleAgent [mkPart text finalText].
Proof.
  apply (proj2 (@executeMessage_result_authorized
                  "gpt-4o" samplePrompts sampleAgents sampleUsers sampleExtract
                  sampleValidate unit unit sampleTools sampleModel sampleStream "msg-1"
                  bearer "prompt-1" helloBody)).
  reflexivity.
Defined.

Lemma getAgentCard_disclosure_witness :
  exists card, sampleCard bearer "prompt-1" = Sent card.
Proof.
  apply (proj1 (proj2 (@getAgentCard_disclosure
                         "/v1/a2a" samplePrompts sampleAgents sampleExtract sampleValidate
                         bearer "prompt-1"))
           (mkPrompt "prompt-1" "agent-1" "Helper" (Some "You are helpful") None 1)
           (mkAgent "agent-1" "Helper agent") "archestra_good" (mkTokenAuth "org-1" None));
    reflexivity.
Defined.

End A2AFacts.

Module CryptoFacts.
Import Js JsFacts Crypto.

(** Whether the character occurs in the string. *)
Fixpoint occurs (c : ascii) (s : string) : bool :=
  match s with
  | EmptyString => false
  | String d rest => Ascii.eqb d c || occurs c rest
  end.

(** The base64url alphabet: letters, digits, [-] and [_]. *)
Definition isBase64urlChar (c : ascii) : bool :=
  let n := nat_of_ascii c in
  ((65 <=? n)%nat && (n <=? 90)%nat) || ((97 <=? n)%nat && (n <=? 122)%nat)
  || ((48 <=? n)%nat && (n <=? 57)%nat) || (n =? 45)%nat || (n =? 95)%nat.

Fixpoint allBase64url (s : string) : bool :=
  match s with
  | EmptyString => true
  | String c rest => isBase64urlChar c && allBase64url rest
  end.

(** The contracts of the runtime primitives: authenticated decryption
    under the same key, vector and tag returns the plaintext; base64url
    decoding inverts encoding; encodings stay within the alphabet. *)
Class RuntimeLaws (runtime : Runtime) : Prop := {
  cipher_correct : forall key iv m,
      cipherDecrypt key iv (snd (cipherEncrypt key iv m)) (fst (cipherEncrypt key iv m))
      = Some m;
  base64url_inverse : forall b, base64urlDecode (base64url b) = b;
  base64url_alphabet : forall b, allBase64url (base64url b) = true
}.

(** An object is JSON-serializable when the JSON codec gives it back. *)
Definition serializable {runtime : Runtime} (P : Json) : Prop :=
  JSON_parse (JSON_stringify P) = Resolved P.

(** The [__encrypted] string of a wrapper. *)
Definition encryptedString (wrapper : Json) : option string :=
  match wrapper with
  | JObject [("__encrypted", JString s)] => Some s
  | _ => None
  end.

Lemma split_free : forall sep a, occurs sep a = false -> split sep a = [a].
Proof.
  intros sep a. induction a as [|c a IH]; simpl; intro H; [reflexivity|].
  apply orb_false_iff in H. destruct H as [Hc Ha].
  rewrite Hc, (IH Ha). reflexivity.
Qed.

Lemma split_app : forall sep a rest,
    occurs sep a = false ->
    split sep (a ++ String sep rest) = a :: split sep rest.
Proof.
  intros sep a rest. induction a as [|c a IH]; simpl; intro H.
  - rewrite Ascii.eqb_refl. reflexivity.
  - apply orb_false_iff in H. destruct H as [Hc Ha].
    rewrite Hc, (IH Ha). reflexivity.
Qed.

Lemma base64url_no_colon : forall s, allBase64url s = true -> occurs colon s = false.
Proof.
  induction s as [|c s IH]; simpl; intro H; [reflexivity|].
  apply andb_true_iff in H. destruct H as [Hc Hs].
  rewrite (IH Hs), orb_false_r.
  destruct (Ascii.eqb_spec c colon) as [->|_]; [|reflexivity].
  discriminate Hc.
Qed.

Section Envelope.
Context {runtime : Runtime} {laws : RuntimeLaws runtime}.

Lemma split_envelope : forall iv authTag ciphertext,
    split colon (envelope iv authTag ciphertext)
    = ["v1"; base64url iv; base64url authTag; base64url ciphertext].
Proof.
  intros iv authTag ciphertext. unfold envelope.
  change ("v1:" ++ base64url iv ++ ":" ++ base64url authTag ++ ":" ++ base64url ciphertext)
    with ("v1" ++ String colon
            (base64url iv ++ String colon
               (base64url authTag ++ String colon (base64url ciphertext)))).
  rewrite split_app by reflexivity.
  rewrite split_app by (apply base64url_no_colon, base64url_alphabet).
  rewrite split_app by (apply base64url_no_colon, base64url_alphabet).
  rewrite split_free by (apply base64url_no_colon, base64url_alphabet).
  reflexivity.
Qed.

Lemma decrypt_encrypt : forall P key iv,
    decryptSecretValueWithKey (encryptSecretValueWithKey P key iv) key
    = JSON_parse (JSON_stringify P).
Proof.
  intros P key iv. unfold encryptSecretValueWithKey.
  pose proof (cipher_correct key iv (JSON_stringify P)) as Hc.
  destruct (cipherEncrypt key iv (JSON_stringify P)) as [ciphertext authTag].
  simpl in Hc. cbn [decryptSecretValueWithKey String.eqb Ascii.eqb Bool.eqb].
  unfold decryptEnvelope. rewrite split_envelope.
  cbn [String.eqb Ascii.eqb Bool.eqb]. rewrite !base64url_inverse, Hc. reflexivity.
Qed.

Lemma envelope_iv_injective : forall iv1 tag1 ct1 iv2 tag2 ct2,
    envelope iv1 tag1 ct1 = envelope iv2 tag2 ct2 -> iv1 = iv2.
Proof.
  intros iv1 tag1 ct1 iv2 tag2 ct2 H.
  apply (f_equal (split colon)) in H. rewrite !split_envelope in H.
  injection H as Hiv _ _.
  apply (f_equal base64urlDecode) in Hiv. rewrite !base64url_inverse in Hiv.
  exact Hiv.
Qed.

End Envelope.

(** C2.  Decrypting what was encrypted gives the object back, for every
    JSON-serializable object (the empty object and nested ones included),
    with the key of the configured secret as with an explicit key; and
    two encryptions of the same object, each with the initialization
    vector drawn afresh for it, have different [__encrypted] strings. *)
Theorem encrypt_decrypt_roundtrip :
  forall (runtime : Runtime) (laws : RuntimeLaws runtime) (P : Json),
    (forall secret, secret <> "" ->
       (serializable P ->
        forall iv, exists wrapper,
            encryptSecretValue (Some secret) P iv = Resolved wrapper
            /\ decryptSecretValue (Some secret) wrapper = Resolved P)
       /\ (forall iv1 iv2, iv1 <> iv2 ->
             exists w1 w2 s1 s2,
               encryptSecretValue (Some secret) P iv1 = Resolved w1
               /\ encryptSecretValue (Some secret) P iv2 = Resolved w2
               /\ encryptedString w1 = Some s1
               /\ encryptedString w2 = Some s2
               /\ s1 <> s2))
    /\ (forall key,
          (serializable P ->
           forall iv,
             decryptSecretValueWithKey (encryptSecretValueWithKey P key iv) key
             = Resolved P)
          /\ (forall iv1 iv2, iv1 <> iv2 ->
                encryptSecretValueWithKey P key iv1
                <> encryptSecretValueWithKey P key iv2)).
Proof.
  intros runtime laws P.
  assert (Hdiff : forall key iv1 iv2, iv1 <> iv2 ->
            exists s1 s2,
              encryptSecretValueWithKey P key iv1 = JObject [("__encrypted", JString s1)]
              /\ encryptSecretValueWithKey P key iv2 = JObject [("__encrypted", JString s2)]
              /\ s1 <> s2).
  { intros key iv1 iv2 Hiv. unfold encryptSecretValueWithKey.
    destruct (cipherEncrypt key iv1 (JSON_stringify P)) as [ct1 tag1].
    destruct (cipherEncrypt key iv2 (JSON_stringify P)) as [ct2 tag2].
    exists (envelope iv1 tag1 ct1), (envelope iv2 tag2 ct2).
    split; [reflexivity|]. split; [reflexivity|].
    intro Heq. apply Hiv. exact (envelope_iv_injective Heq). }
  split.
  - intros secret Hne.
    assert (Hkey : getKey (Some secret) = Resolved (deriveKeyFromSecret secret)).
    { unfold getKey. destruct secret; [contradiction Hne; reflexivity | reflexivity]. }
    unfold encryptSecretValue, decryptSecretValue. rewrite Hkey. split.
    + intros HP iv. eexists. split; [reflexivity|].
      rewrite decrypt_encrypt. exact HP.
    + intros iv1 iv2 Hiv.
      destruct (Hdiff (deriveKeyFromSecret secret) iv1 iv2 Hiv) as [s1 [s2 [H1 [H2 Hs]]]].
      exists (encryptSecretValueWithKey P (deriveKeyFromSecret secret) iv1),
             (encryptSecretValueWithKey P (deriveKeyFromSecret secret) iv2), s1, s2.
      split; [reflexivity|]. split; [reflexivity|].
      rewrite H1, H2. split; [reflexivity|]. split; [reflexivity | exact Hs].
  - intro key. split.
    + intros HP iv. rewrite decrypt_encrypt. exact HP.
    + intros iv1 iv2 Hiv Heq.
      destruct (Hdiff key iv1 iv2 Hiv) as [s1 [s2 [H1 [H2 Hs]]]].
      rewrite H1, H2 in Heq. injection Heq as Heq. exact (Hs Heq).
Qed.

End CryptoFacts.

Module RotateFacts.
Import Js Crypto Rotate.

Section WithRuntime.
Context {runtime : Runtime}.

(** The plaintext the script re-encrypts for a row: the decryption under
    the old key of an envelope, the stored value itself otherwise. *)
Definition plaintextOf (oldKey : Key) (r : Row) : Outcome Json :=
  if isEncryptedSecret (secret r)
  then decryptSecretValueWithKey (secret r) oldKey
  else Resolved (secret r).

(** Row [r'] holds, encrypted under [newKey], the plaintext of a row of
    [rows] with the same id. *)
Definition encryptedFrom (oldKey newKey : Key) (rows : list Row) (r' : Row) : Prop :=
  exists r0 plaintext iv,
    In r0 rows /\ id r0 = id r' /\ plaintextOf oldKey r0 = Resolved plaintext
    /\ secret r' = encryptSecretValueWithKey plaintext newKey iv.

Definition countEncrypted (rows : list Row) : nat :=
  List.length (filter (fun r => isEncryptedSecret (secret r)) rows).

Definition countPlaintext (rows : list Row) : nat :=
  List.length (filter (fun r => negb (isEncryptedSecret (secret r))) rows).

Definition listed (rowId : string) (rows : list Row) : bool :=
  existsb (String.eqb rowId) (map id rows).

(** How a row of the table relates to the same row after the loop ran
    over [rows]. *)
Definition rotated (oldKey newKey : Key) (rows : list Row) (r r' : Row) : Prop :=
  id r' = id r /\ name r' = name r
  /\ (if listed (id r) rows
      then encryptedFrom oldKey newKey rows r'
      else secret r' = secret r).

Lemma verifyRows_cons : forall oldKey row rest re nw,
    verifyRows oldKey (row :: rest) re nw =
    match plaintextOf oldKey row with
    | Rejected e => Rejected e
    | Resolved _ =>
        if isEncryptedSecret (secret row)
        then verifyRows oldKey rest (S re) nw
        else verifyRows oldKey rest re (S nw)
    end.
Proof.
  intros. unfold plaintextOf. cbn [verifyRows].
  destruct (isEncryptedSecret (secret row)); [|reflexivity].
  destruct (decryptSecretValueWithKey (secret row) oldKey); reflexivity.
Qed.

Lemma rotateRows_cons : forall oldKey newKey ivs n row rest table log re nw,
    rotateRows oldKey newKey ivs n (row :: rest) table log re nw =
    match plaintextOf oldKey row with
    | Rejected e => (Rejected e, table, log)
    | Resolved plaintext =>
        rotateRows oldKey newKey ivs (S n) rest
          (setSecret (id row) (encryptSecretValueWithKey plaintext newKey (ivs n)) table)
          (log ++ [Update (id row)])%list
          (if isEncryptedSecret (secret row) then S re else re)
          (if isEncryptedSecret (secret row) then nw else S nw)
    end.
Proof.
  intros. unfold plaintextOf. cbn [rotateRows].
  destruct (isEncryptedSecret (secret row)); [|reflexivity].
  destruct (decryptSecretValueWithKey (secret row) oldKey); reflexivity.
Qed.

Lemma verifyRows_ok : forall oldKey rows re nw,
    (forall r, In r rows -> exists plaintext, plaintextOf oldKey r = Resolved plaintext) ->
    verifyRows oldKey rows re nw
    = Resolved (re + countEncrypted rows, nw + countPlaintext rows).
Proof.
  intros oldKey rows. induction rows as [|row rest IH]; intros re nw Hall.
  - cbn. rewrite !Nat.add_0_r. reflexivity.
  - rewrite verifyRows_cons.
    destruct (Hall row (or_introl eq_refl)) as [plaintext ->].
    assert (Hrest : forall r, In r rest ->
                    exists plaintext, plaintextOf oldKey r = Resolved plaintext)
      by (intros r Hr; apply Hall; right; exact Hr).
    unfold countEncrypted, countPlaintext. cbn [filter].
    destruct (isEncryptedSecret (secret row)); cbn [negb List.length];
      rewrite (IH _ _ Hrest); unfold countEncrypted, countPlaintext;
      f_equal; f_equal; lia.
Qed.

Lemma verifyRows_rejected : forall oldKey rows re nw e,
    verifyRows oldKey rows re nw = Rejected e ->
    exists r, In r rows /\ plaintextOf oldKey r = Rejected e.
Proof.
  intros oldKey rows. induction rows as [|row rest IH]; intros re nw e H.
  - discriminate H.
  - rewrite verifyRows_cons in H.
    destruct (plaintextOf oldKey row) as [plaintext|e'] eqn:Hrow.
    + destruct (isEncryptedSecret (secret row));
        destruct (IH _ _ _ H) as [r [Hr He]];
        exists r; (split; [right; exact Hr | exact He]).
    + injection H as <-. exists row. split; [left; reflexivity | exact Hrow].
Qed.

Lemma encryptedFrom_cons : forall oldKey newKey row rest r',
    encryptedFrom oldKey newKey rest r' ->
    encryptedFrom oldKey newKey (row :: rest) r'.
Proof.
  intros oldKey newKey row rest r' [r0 [plaintext [iv [Hin H]]]].
  exists r0, plaintext, iv. split; [right; exact Hin | exact H].
Qed.

Lemma Forall2_same : forall (A : Type) (R : A -> A -> Prop) (l : list A),
    (forall x, R x x) -> Forall2 R l l.
Proof. intros A R l H. induction l; constructor; auto. Qed.

Lemma Forall2_map_left : forall (A B : Type) (g : A -> A) (R : A -> B -> Prop)
                                (l : list A) (l' : list B),
    Forall2 R (map g l) l' -> Forall2 (fun x y => R (g x) y) l l'.
Proof.
  intros A B g R l. induction l as [|a l IH]; intros l' H; simpl in H.
  - inversion H. constructor.
  - inversion H as [|x y lx ly Hxy Hrest]; subst. constructor; auto.
Qed.

Lemma Forall2_weaken : forall (A B : Type) (R S : A -> B -> Prop) (l : list A) (l' : list B),
    (forall x y, R x y -> S x y) -> Forall2 R l l' -> Forall2 S l l'.
Proof. intros A B R S l l' H F. induction F; constructor; auto. Qed.

(** One update followed by the rest of the loop. *)
Lemma rotated_step : forall oldKey newKey row rest plaintext iv r r',
    plaintextOf oldKey row = Resolved plaintext ->
    rotated oldKey newKey rest
            (if String.eqb (id r) (id row)
             then mkRow (id r) (name r) (encryptSecretValueWithKey plaintext newKey iv)
             else r) r' ->
    rotated oldKey newKey (row :: rest) r r'.
Proof.
  intros oldKey newKey row rest plaintext iv r r' Hplain H.
  unfold rotated, listed in *. cbn [map existsb].
  destruct (String.eqb_spec (id r) (id row)) as [Heq|Hne];
    cbn [id name secret orb] in *; destruct H as [Hid [Hname Hsecret]].
  - split; [exact Hid|]. split; [exact Hname|].
    destruct (existsb (String.eqb (id r)) (map id rest)).
    + apply encryptedFrom_cons. exact Hsecret.
    + exists row, plaintext, iv.
      split; [left; reflexivity|]. split; [congruence|].
      split; [exact Hplain | exact Hsecret].
  - split; [exact Hid|]. split; [exact Hname|].
    destruct (existsb (String.eqb (id r)) (map id rest)).
    + apply encryptedFrom_cons. exact Hsecret.
    + exact Hsecret.
Qed.

Lemma rotateRows_ok : forall oldKey newKey ivs rows n table log re nw re' nw' table' log',
    rotateRows oldKey newKey ivs n rows table log re nw
    = (Resolved (re', nw'), table', log') ->
    re' = re + countEncrypted rows /\ nw' = nw + countPlaintext rows
    /\ log' = (log ++ map Update (map id rows))%list
    /\ Forall2 (rotated oldKey newKey rows) table table'.
Proof.
  intros oldKey newKey ivs rows.
  induction rows as [|row rest IH]; intros n table log re nw re' nw' table' log' H.
  - cbn in H. injection H as <- <- <- <-. cbn.
    rewrite !Nat.add_0_r, app_nil_r. repeat split.
    apply Forall2_same. intro r. unfold rotated, listed. cbn. auto.
  - rewrite rotateRows_cons in H.
    destruct (plaintextOf oldKey row) as [plaintext|e] eqn:Hplain; [|discriminate H].
    apply IH in H. destruct H as [Hre [Hnw [Hlog Hrows]]].
    unfold countEncrypted, countPlaintext in *. cbn [filter map].
    split; [|split; [|split]].
    + destruct (isEncryptedSecret (secret row)); cbn [negb List.length]; lia.
    + destruct (isEncryptedSecret (secret row)); cbn [negb List.length]; lia.
    + rewrite Hlog, <- app_assoc. reflexivity.
    + unfold setSecret in Hrows. apply Forall2_map_left in Hrows.
      eapply Forall2_weaken; [|exact Hrows]. intros r r' Hr. cbv beta in Hr.
      eapply rotated_step; [exact Hplain | exact Hr].
Qed.

Lemma rotateRows_log : forall oldKey newKey ivs rows n table log re nw out table' log',
    rotateRows oldKey newKey ivs n rows table log re nw = (out, table', log') ->
    exists ids, log' = (log ++ map Update ids)%list.
Proof.
  intros oldKey newKey ivs rows.
  induction rows as [|row rest IH]; intros n table log re nw out table' log' H.
  - cbn in H. injection H as _ _ <-. exists []. cbn. rewrite app_nil_r. reflexivity.
  - rewrite rotateRows_cons in H.
    destruct (plaintextOf oldKey row) as [plaintext|e].
    + apply IH in H. destruct H as [ids ->].
      exists (id row :: ids). rewrite <- app_assoc. reflexivity.
    + injection H as _ _ <-. exists []. cbn. rewrite app_nil_r. reflexivity.
Qed.

Lemma listed_self : forall r rows, In r rows -> listed (id r) rows = true.
Proof.
  intros r rows Hin. unfold listed. apply existsb_exists.
  exists (id r). split; [apply in_map; exact Hin | apply String.eqb_refl].
Qed.

Lemma Forall2_weaken_in : forall (A B : Type) (R S : A -> B -> Prop)
                                 (l : list A) (l' : list B),
    (forall x y, In x l -> R x y -> S x y) -> Forall2 R l l' -> Forall2 S l l'.
Proof.
  intros A B R S l l' H F. induction F as [|x y l l' Hxy F IH]; constructor.
  - apply H; [left; reflexivity | exact Hxy].
  - apply IH. intros a b Ha. apply H. right. exact Ha.
Qed.

Lemma NoDup_map_inj : forall (A B : Type) (f : A -> B) (l : list A) (a b : A),
    NoDup (map f l) -> In a l -> In b l -> f a = f b -> a = b.
Proof.
  intros A B f l a b. induction l as [|x l IH]; intros Hnd Ha Hb Hf; [contradiction|].
  cbn [map] in Hnd. inversion Hnd as [|y ys Hnotin Hnd']; subst.
  destruct Ha as [->|Ha]; destruct Hb as [->|Hb].
  - reflexivity.
  - exfalso. apply Hnotin. rewrite Hf. apply in_map. exact Hb.
  - exfalso. apply Hnotin. rewrite <- Hf. apply in_map. exact Ha.
  - apply IH; assumption.
Qed.

End WithRuntime.

Section Runs.
Context {runtime : Runtime}.

(** The transaction's loop throws or returns what the dry run's loop does. *)
Lemma rotateRows_outcome : forall oldKey newKey ivs rows n table log re nw,
    fst (fst (rotateRows oldKey newKey ivs n rows table log re nw))
    = verifyRows oldKey rows re nw.
Proof.
  intros oldKey newKey ivs rows.
  induction rows as [|row rest IH]; intros n table log re nw; [reflexivity|].
  rewrite rotateRows_cons, verifyRows_cons.
  destruct (plaintextOf oldKey row) as [plaintext|e]; [|reflexivity].
  rewrite IH. destruct (isEncryptedSecret (secret row)); reflexivity.
Qed.

Lemma verifyRows_resolved : forall oldKey rows re nw re' nw',
    verifyRows oldKey rows re nw = Resolved (re', nw') ->
    re' = re + countEncrypted rows /\ nw' = nw + countPlaintext rows
    /\ forall r, In r rows -> exists plaintext, plaintextOf oldKey r = Resolved plaintext.
Proof.
  intros oldKey rows.
  induction rows as [|row rest IH]; intros re nw re' nw' H.
  - cbn in H. injection H as <- <-. cbn. rewrite !Nat.add_0_r.
    split; [reflexivity|]. split; [reflexivity|]. intros r [].
  - rewrite verifyRows_cons in H.
    destruct (plaintextOf oldKey row) as [plaintext|e] eqn:Hplain; [|discriminate H].
    unfold countEncrypted, countPlaintext in *. cbn [filter].
    destruct (isEncryptedSecret (secret row)); cbn [negb List.length];
      apply IH in H; destruct H as [Hre [Hnw Hall]];
      (split; [lia|]); (split; [lia|]);
      intros r [<-|Hr]; [exists plaintext; exact Hplain | exact (Hall r Hr)
                        |exists plaintext; exact Hplain | exact (Hall r Hr)].
Qed.

Lemma count_partition : forall rows,
    countEncrypted rows + countPlaintext rows = List.length rows.
Proof.
  intro rows. unfold countEncrypted, countPlaintext.
  induction rows as [|row rest IH]; [reflexivity|]. cbn [filter].
  destruct (isEncryptedSecret (secret row)); cbn [negb List.length]; lia.
Qed.

Lemma rotate_outcome : forall oldSecret newSecret dryRun ivs db,
    oldSecret <> newSecret ->
    fst (rotateSecretEncryptionKey oldSecret newSecret dryRun ivs db)
    = match verifyRows (deriveKeyFromSecret oldSecret) (secretsTable db) 0 0 with
      | Rejected e => Rejected e
      | Resolved (re, nw) => Resolved (mkCounts (List.length (secretsTable db)) re nw)
      end.
Proof.
  intros oldSecret newSecret dryRun ivs db Hne.
  unfold rotateSecretEncryptionKey. apply String.eqb_neq in Hne. rewrite Hne.
  destruct dryRun.
  - destruct (verifyRows _ _ 0 0) as [[re nw]|e]; reflexivity.
  - unfold transaction. cbn [secretsTable statements].
    pose proof (rotateRows_outcome (deriveKeyFromSecret oldSecret)
                  (deriveKeyFromSecret newSecret) ivs (secretsTable db) 0
                  (secretsTable db) ((statements db ++ [Select]) ++ [Begin])%list 0 0)
      as Hout.
    destruct (rotateRows _ _ _ _ _ _ _ _ _) as [[out table'] log'].
    cbn [fst] in Hout. rewrite <- Hout.
    destruct out as [[re nw]|e]; reflexivity.
Qed.

Lemma rotate_rejected_table : forall oldSecret newSecret dryRun ivs db e,
    fst (rotateSecretEncryptionKey oldSecret newSecret dryRun ivs db) = Rejected e ->
    secretsTable (snd (rotateSecretEncryptionKey oldSecret newSecret dryRun ivs db))
    = secretsTable db.
Proof.
  intros oldSecret newSecret dryRun ivs db e. unfold rotateSecretEncryptionKey.
  destruct (String.eqb oldSecret newSecret); [reflexivity|].
  destruct dryRun.
  - destruct (verifyRows _ _ 0 0) as [[re nw]|e']; reflexivity.
  - unfold transaction. cbn [secretsTable statements].
    destruct (rotateRows _ _ _ _ _ _ _ _ _) as [[[[re nw]|e'] table'] log'].
    + discriminate.
    + reflexivity.
Qed.

Lemma rotate_dry_table : forall oldSecret newSecret ivs db,
    secretsTable (snd (rotateSecretEncryptionKey oldSecret newSecret true ivs db))
    = secretsTable db.
Proof.
  intros oldSecret newSecret ivs db. unfold rotateSecretEncryptionKey.
  destruct (String.eqb oldSecret newSecret); [reflexivity|].
  destruct (verifyRows _ _ 0 0) as [[re nw]|e']; reflexivity.
Qed.

Lemma includes_In : forall (x : string) (l : list string),
    existsb (String.eqb x) l = true <-> In x l.
Proof.
  intros x l. rewrite existsb_exists. split.
  - intros [y [Hy Heq]]. apply String.eqb_eq in Heq. subst y. exact Hy.
  - intro H. exists x. split; [exact H | apply String.eqb_refl].
Qed.

End Runs.

(** C1, with the dry run's verification made explicit.  Called with
    identical secrets the script throws and leaves the database alone:
    no statement is issued.  A dry run never changes a row and issues the
    one select; it returns the counts when every envelope decrypts under
    the old key and otherwise rethrows the decryption error of a row: as
    soon as one envelope of the table does not decrypt under the old key
    the run, dry or real, throws and no row is changed.  A real run
    issues all its updates between the begin and the end of one
    transaction: either it commits, and every row then holds its
    plaintext encrypted under the new key, or it rolls back and no row is
    changed. *)
Theorem rotateSecretEncryptionKey_spec :
  forall (runtime : Runtime) (oldSecret newSecret : string) (dryRun : bool)
         (ivs : nat -> string) (db : Database),
    (oldSecret = newSecret ->
     rotateSecretEncryptionKey oldSecret newSecret dryRun ivs db
     = (Rejected (newError "Old and new secrets are identical — nothing to rotate."), db))
    /\ (oldSecret <> newSecret -> dryRun = true ->
        secretsTable (snd (rotateSecretEncryptionKey oldSecret newSecret dryRun ivs db))
        = secretsTable db
        /\ statements (snd (rotateSecretEncryptionKey oldSecret newSecret dryRun ivs db))
           = (statements db ++ [Select])%list
        /\ ((forall r, In r (secretsTable db) ->
                       isEncryptedSecret (secret r) = true ->
                       exists plaintext,
                         decryptSecretValueWithKey (secret r)
                           (deriveKeyFromSecret oldSecret) = Resolved plaintext) ->
            fst (rotateSecretEncryptionKey oldSecret newSecret dryRun ivs db)
            = Resolved (mkCounts (List.length (secretsTable db))
                                 (countEncrypted (secretsTable db))
                                 (countPlaintext (secretsTable db))))
        /\ (forall e,
               fst (rotateSecretEncryptionKey oldSecret newSecret dryRun ivs db)
               = Rejected e ->
               exists r, In r (secretsTable db)
                         /\ isEncryptedSecret (secret r) = true
                         /\ decryptSecretValueWithKey (secret r)
                              (deriveKeyFromSecret oldSecret) = Rejected e))
    /\ (oldSecret <> newSecret -> dryRun = false ->
        (fst (rotateSecretEncryptionKey oldSecret newSecret dryRun ivs db)
         = Resolved (mkCounts (List.length (secretsTable db))
                              (countEncrypted (secretsTable db))
                              (countPlaintext (secretsTable db)))
         /\ statements (snd (rotateSecretEncryptionKey oldSecret newSecret dryRun ivs db))
            = (statements db ++ [Select; Begin]
                 ++ map Update (map id (secretsTable db)) ++ [Commit])%list
         /\ Forall2 (fun r r' =>
                       id r' = id r /\ name r' = name r
                       /\ encryptedFrom (deriveKeyFromSecret oldSecret)
                                        (deriveKeyFromSecret newSecret)
                                        (secretsTable db) r')
                    (secretsTable db)
                    (secretsTable
                       (snd (rotateSecretEncryptionKey oldSecret newSecret dryRun ivs db)))
         /\ (NoDup (map id (secretsTable db)) ->
             Forall2 (fun r r' =>
                        exists plaintext iv,
                          plaintextOf (deriveKeyFromSecret oldSecret) r = Resolved plaintext
                          /\ secret r'
                             = encryptSecretValueWithKey plaintext
                                 (deriveKeyFromSecret newSecret) iv)
                     (secretsTable db)
                     (secretsTable
                        (snd (rotateSecretEncryptionKey oldSecret newSecret dryRun ivs
                                                        db)))))
        \/ (exists e ids,
               fst (rotateSecretEncryptionKey oldSecret newSecret dryRun ivs db)
               = Rejected e
               /\ statements (snd (rotateSecretEncryptionKey oldSecret newSecret
                                                              dryRun ivs db))
                  = (statements db ++ [Select; Begin] ++ map Update ids ++ [Rollback])%list
               /\ secretsTable (snd (rotateSecretEncryptionKey oldSecret newSecret
                                                                dryRun ivs db))
                  = secretsTable db))
    /\ (oldSecret <> newSecret ->
        forall r e,
          In r (secretsTable db) ->
          isEncryptedSecret (secret r) = true ->
          decryptSecretValueWithKey (secret r) (deriveKeyFromSecret oldSecret)
          = Rejected e ->
          exists e' r',
            fst (rotateSecretEncryptionKey oldSecret newSecret dryRun ivs db)
            = Rejected e'
            /\ In r' (secretsTable db)
            /\ isEncryptedSecret (secret r') = true
            /\ decryptSecretValueWithKey (secret r') (deriveKeyFromSecret oldSecret)
               = Rejected e'
            /\ secretsTable (snd (rotateSecretEncryptionKey oldSecret newSecret
                                                            dryRun ivs db))
               = secretsTable db).
Proof.
  intros runtime oldSecret newSecret dryRun ivs db. split; [|split; [|split]].
  - intros <-. unfold rotateSecretEncryptionKey. rewrite String.eqb_refl. reflexivity.
  - intros Hne ->. unfold rotateSecretEncryptionKey.
    apply String.eqb_neq in Hne. rewrite Hne.
    split; [|split; [|split]].
    + destruct (verifyRows _ _ 0 0) as [[re nw]|e]; reflexivity.
    + destruct (verifyRows _ _ 0 0) as [[re nw]|e]; reflexivity.
    + intro Hall. rewrite verifyRows_ok.
      * reflexivity.
      * intros r Hr. unfold plaintextOf.
        destruct (isEncryptedSecret (secret r)) eqn:Henc.
        -- exact (Hall r Hr Henc).
        -- eexists. reflexivity.
    + intros e He.
      destruct (verifyRows _ _ 0 0) as [[re nw]|e'] eqn:Hv; [discriminate He|].
      injection He as ->. apply verifyRows_rejected in Hv.
      destruct Hv as [r [Hr Hp]]. exists r. split; [exact Hr|].
      unfold plaintextOf in Hp.
      destruct (isEncryptedSecret (secret r)); [|discriminate Hp].
      split; [reflexivity | exact Hp].
  - intros Hne ->. unfold rotateSecretEncryptionKey, transaction.
    apply String.eqb_neq in Hne. rewrite Hne. cbn [secretsTable statements].
    destruct (rotateRows (deriveKeyFromSecret oldSecret) (deriveKeyFromSecret newSecret)
                         ivs 0 (secretsTable db) (secretsTable db)
                         ((statements db ++ [Select]) ++ [Begin]) 0 0)
      as [[[[re nw]|e] table'] log'] eqn:Hrun.
    + left. apply rotateRows_ok in Hrun.
      destruct Hrun as [-> [-> [-> Hrows]]]. cbn [fst snd secretsTable statements].
      assert (Hall : Forall2 (fun r r' =>
                       id r' = id r /\ name r' = name r
                       /\ encryptedFrom (deriveKeyFromSecret oldSecret)
                                        (deriveKeyFromSecret newSecret)
                                        (secretsTable db) r')
                    (secretsTable db) table').
      { eapply Forall2_weaken_in; [|exact Hrows].
        intros r r' Hr [Hid [Hname Hsecret]].
        rewrite (listed_self _ _ Hr) in Hsecret. auto. }
      split; [reflexivity|]. split; [|split].
      * rewrite <- !app_assoc. reflexivity.
      * exact Hall.
      * intro Hnodup. eapply Forall2_weaken_in; [|exact Hall].
        intros r r' Hr [Hid [_ [r0 [plaintext [iv [Hr0 [Hid0 [Hplain Hsecret]]]]]]]].
        cbv beta in *.
        assert (r0 = r) as ->
            by (apply (NoDup_map_inj id (secretsTable db)); congruence).
        exists plaintext, iv. split; assumption.
    + right. apply rotateRows_log in Hrun. destruct Hrun as [ids ->].
      exists e, ids. cbn [fst snd secretsTable statements].
      split; [reflexivity|]. split; [|reflexivity].
      rewrite <- !app_assoc. reflexivity.
  - intros Hne r e Hr Henc Hdec.
    pose proof (@rotate_outcome runtime oldSecret newSecret dryRun ivs db Hne) as Hout.
    pose proof (@rotate_rejected_table runtime oldSecret newSecret dryRun ivs db) as Htable.
    destruct (verifyRows (deriveKeyFromSecret oldSecret) (secretsTable db) 0 0)
      as [[re nw]|e'] eqn:Hv.
    + exfalso. apply verifyRows_resolved in Hv. destruct Hv as [_ [_ Hall]].
      destruct (Hall r Hr) as [plaintext Hplain].
      unfold plaintextOf in Hplain. rewrite Henc, Hdec in Hplain. discriminate Hplain.
    + apply verifyRows_rejected in Hv. destruct Hv as [r' [Hr' Hp]].
      unfold plaintextOf in Hp.
      destruct (isEncryptedSecret (secret r')) eqn:Henc'; [|discriminate Hp].
      exists e', r'. split; [exact Hout|]. split; [exact Hr'|].
      split; [exact Henc'|]. split; [exact Hp|]. exact (Htable e' Hout).
Qed.


(** A dry run predicts the real run: over the same table and secrets it
    returns the counts the real run returns, or throws the error the real
    run throws, whatever initialization vectors the real run draws. *)
Theorem dryRun_predicts_run :
  forall (runtime : Runtime) (oldSecret newSecret : string)
         (ivs ivs' : nat -> string) (db : Database),
    fst (rotateSecretEncryptionKey oldSecret newSecret true ivs db)
    = fst (rotateSecretEncryptionKey oldSecret newSecret false ivs' db).
Proof.
  intros runtime oldSecret newSecret ivs ivs' db.
  destruct (String.eqb_spec oldSecret newSecret) as [Heq|Hne].
  - unfold rotateSecretEncryptionKey. apply String.eqb_eq in Heq. rewrite Heq.
    reflexivity.
  - rewrite !rotate_outcome by exact Hne. reflexivity.
Qed.

(** Whenever the script returns, dry run or not, the secrets differed,
    every row was readable under the old key, and the counts are those of
    the table it read: [total] is the number of rows, [reEncrypted] the
    number of envelopes, [newlyEncrypted] the number of plaintext rows,
    and the two add up to [total]. *)
Theorem rotation_counts :
  forall (runtime : Runtime) (oldSecret newSecret : string) (dryRun : bool)
         (ivs : nat -> string) (db : Database) (counts : Counts),
    fst (rotateSecretEncryptionKey oldSecret newSecret dryRun ivs db) = Resolved counts ->
    oldSecret <> newSecret
    /\ total counts = List.length (secretsTable db)
    /\ reEncrypted counts = countEncrypted (secretsTable db)
    /\ newlyEncrypted counts = countPlaintext (secretsTable db)
    /\ total counts = reEncrypted counts + newlyEncrypted counts
    /\ (forall r, In r (secretsTable db) ->
          exists plaintext,
            plaintextOf (deriveKeyFromSecret oldSecret) r = Resolved plaintext).
Proof.
  intros runtime oldSecret newSecret dryRun ivs db counts H.
  assert (Hne : oldSecret <> newSecret).
  { intro Heq. unfold rotateSecretEncryptionKey in H.
    apply String.eqb_eq in Heq. rewrite Heq in H. discriminate H. }
  split; [exact Hne|].
  rewrite rotate_outcome in H by exact Hne.
  destruct (verifyRows _ _ 0 0) as [[re nw]|e] eqn:Hv; [|discriminate H].
  injection H as <-. cbn [total reEncrypted newlyEncrypted].
  apply verifyRows_resolved in Hv. destruct Hv as [-> [-> Hall]]. cbn [Nat.add].
  split; [reflexivity|]. split; [reflexivity|]. split; [reflexivity|].
  split; [symmetry; apply count_partition | exact Hall].
Qed.

(** The command line.  With [--help] or [-h] among the arguments the
    script exits 0 and does not touch the database, whatever the
    environment.  Otherwise it exits 0 or 1; it exits 0 only when both
    secrets are set and non-empty, the database initialized and the
    rotation returned; and whenever it exits 1 no row has changed.  The
    run is a dry run exactly when [DRY_RUN] is the string "true", and a
    dry run changes no row. *)
Theorem main_exit_codes :
  forall (runtime : Runtime) (argv : list string) (env : Env)
         (initializeDatabase : Outcome unit) (ivs : nat -> string) (db : Database),
    (In "--help" argv \/ In "-h" argv ->
     main argv env initializeDatabase ivs db = (0%Z, db))
    /\ (fst (main argv env initializeDatabase ivs db) = 0%Z
        \/ fst (main argv env initializeDatabase ivs db) = 1%Z)
    /\ (fst (main argv env initializeDatabase ivs db) = 1%Z ->
        secretsTable (snd (main argv env initializeDatabase ivs db)) = secretsTable db)
    /\ (~ In "--help" argv -> ~ In "-h" argv ->
        fst (main argv env initializeDatabase ivs db) = 0%Z ->
        exists oldSecret newSecret counts,
          OLD_ARCHESTRA_AUTH_SECRET env = Some oldSecret /\ oldSecret <> ""
          /\ ARCHESTRA_AUTH_SECRET env = Some newSecret /\ newSecret <> ""
          /\ initializeDatabase = Resolved tt
          /\ rotateSecretEncryptionKey oldSecret newSecret (dryRunOf env) ivs db
             = (Resolved counts, snd (main argv env initializeDatabase ivs db)))
    /\ (dryRunOf env = true <-> DRY_RUN env = Some "true")
    /\ (DRY_RUN env = Some "true" ->
        secretsTable (snd (main argv env initializeDatabase ivs db)) = secretsTable db).
Proof.
  intros runtime argv env initializeDatabase ivs db.
  assert (Hhelp : existsb (String.eqb "--help") argv || existsb (String.eqb "-h") argv = true
                  <-> In "--help" argv \/ In "-h" argv).
  { rewrite orb_true_iff, !includes_In. reflexivity. }
  assert (Hdry : dryRunOf env = true <-> DRY_RUN env = Some "true").
  { unfold dryRunOf. destruct (DRY_RUN env) as [value|].
    - rewrite String.eqb_eq. split; [intros ->; reflexivity | intro H; congruence].
    - split; discriminate. }
  split; [|split; [|split; [|split; [|split]]]].
  - intro H. apply Hhelp in H. unfold main. rewrite H. reflexivity.
  - unfold main.
    destruct (existsb (String.eqb "--help") argv || existsb (String.eqb "-h") argv);
      [left; reflexivity|].
    destruct (OLD_ARCHESTRA_AUTH_SECRET env) as [oldSecret|]; [|right; reflexivity].
    destruct (negb (truthyString oldSecret)); [right; reflexivity|].
    destruct (ARCHESTRA_AUTH_SECRET env) as [newSecret|]; [|right; reflexivity].
    destruct (negb (truthyString newSecret)); [right; reflexivity|].
    destruct initializeDatabase as [u|e]; [|right; reflexivity].
    destruct (rotateSecretEncryptionKey _ _ _ _ _) as [[counts|e] db'];
      [left | right]; reflexivity.
  - unfold main.
    destruct (existsb (String.eqb "--help") argv || existsb (String.eqb "-h") argv);
      [reflexivity|].
    destruct (OLD_ARCHESTRA_AUTH_SECRET env) as [oldSecret|]; [|reflexivity].
    destruct (negb (truthyString oldSecret)); [reflexivity|].
    destruct (ARCHESTRA_AUTH_SECRET env) as [newSecret|]; [|reflexivity].
    destruct (negb (truthyString newSecret)); [reflexivity|].
    destruct initializeDatabase as [u|e]; [|reflexivity].
    pose proof (@rotate_rejected_table runtime oldSecret newSecret (dryRunOf env) ivs db)
      as Hrej.
    destruct (rotateSecretEncryptionKey _ _ _ _ _) as [[counts|e] db'].
    + discriminate.
    + intros _. cbn [snd fst] in *. exact (Hrej e eq_refl).
  - intros Hno1 Hno2. unfold main.
    destruct (existsb (String.eqb "--help") argv || existsb (String.eqb "-h") argv)
      eqn:Hh.
    { exfalso. destruct (proj1 Hhelp eq_refl); contradiction. }
    destruct (OLD_ARCHESTRA_AUTH_SECRET env) as [oldSecret|]; [|discriminate].
    destruct oldSecret as [|c1 s1]; [discriminate|]. cbn [truthyString negb].
    destruct (ARCHESTRA_AUTH_SECRET env) as [newSecret|]; [|discriminate].
    destruct newSecret as [|c2 s2]; [discriminate|]. cbn [truthyString negb].
    destruct initializeDatabase as [[]|e]; [|discriminate].
    destruct (rotateSecretEncryptionKey _ _ _ _ _) as [[counts|e] db'] eqn:Hrun;
      [|discriminate].
    intros _. exists (String c1 s1), (String c2 s2), counts.
    split; [reflexivity|]. split; [discriminate|].
    split; [reflexivity|]. split; [discriminate|].
    split; [reflexivity|]. cbn [snd]. exact Hrun.
  - exact Hdry.
  - intro H. apply Hdry in H. unfold main. rewrite H.
    destruct (existsb (String.eqb "--help") argv || existsb (String.eqb "-h") argv);
      [reflexivity|].
    destruct (OLD_ARCHESTRA_AUTH_SECRET env) as [oldSecret|]; [|reflexivity].
    destruct (negb (truthyString oldSecret)); [reflexivity|].
    destruct (ARCHESTRA_AUTH_SECRET env) as [newSecret|]; [|reflexivity].
    destruct (negb (truthyString newSecret)); [reflexivity|].
    destruct initializeDatabase as [u|e]; [|reflexivity].
    pose proof (@rotate_dry_table runtime oldSecret newSecret ivs db) as Htable.
    destruct (rotateSecretEncryptionKey _ _ _ _ _) as [[counts|e] db'];
      cbn [snd] in *; exact Htable.
Qed.

End RotateFacts.

Module SecretModelFacts.
Import Js Crypto CryptoFacts Rotate RotateFacts SecretModel.

Lemma first_by_id : forall (table : list Row) (r : Row),
    NoDup (map id table) -> In r table ->
    hd_error (filter (fun x => String.eqb (id x) (id r)) table) = Some r.
Proof.
  intros table r. induction table as [|a l IH]; intros Hnd Hin; [contradiction|].
  cbn [map] in Hnd. inversion Hnd as [|y ys Hnotin Hnd']; subst.
  cbn [filter]. destruct Hin as [->|Hin].
  - rewrite String.eqb_refl. reflexivity.
  - destruct (String.eqb_spec (id a) (id r)) as [Heq|Hne].
    + exfalso. apply Hnotin. rewrite Heq. apply in_map. exact Hin.
    + apply IH; assumption.
Qed.

Lemma hd_error_In : forall (A : Type) (l : list A) (x : A),
    hd_error l = Some x -> In x l.
Proof. intros A [|a l] x H; [discriminate H | injection H as ->; left; reflexivity]. Qed.

Lemma Forall2_In_l : forall (A B : Type) (R : A -> B -> Prop) (l : list A) (l' : list B) x,
    Forall2 R l l' -> In x l -> exists y, In y l' /\ R x y.
Proof.
  intros A B R l l' x F. induction F as [|a b l l' Hab F IH]; intros Hin; [contradiction|].
  destruct Hin as [->|Hin].
  - exists b. split; [left; reflexivity | exact Hab].
  - destruct (IH Hin) as [y [Hy Hxy]]. exists y. split; [right; exact Hy | exact Hxy].
Qed.

Lemma Forall2_In_r : forall (A B : Type) (R : A -> B -> Prop) (l : list A) (l' : list B) y,
    Forall2 R l l' -> In y l' -> exists x, In x l /\ R x y.
Proof.
  intros A B R l l' y F. induction F as [|a b l l' Hab F IH]; intros Hin; [contradiction|].
  destruct Hin as [->|Hin].
  - exists a. split; [left; reflexivity | exact Hab].
  - destruct (IH Hin) as [x [Hx Hxy]]. exists x. split; [right; exact Hx | exact Hxy].
Qed.

(** The first rows two tables select correspond when the tables do. *)
Lemma Forall2_first : forall (R : Row -> Row -> Prop) (p q : Row -> bool)
                             (l l' : list Row),
    Forall2 (fun x y => p x = q y /\ R x y) l l' ->
    match hd_error (filter p l), hd_error (filter q l') with
    | Some x, Some y => R x y
    | None, None => True
    | _, _ => False
    end.
Proof.
  intros R p q l l' F. induction F as [|a b l l' [Hpq Hab] F IH]; [exact I|].
  cbn [filter]. rewrite Hpq. destruct (q b); [exact Hab | exact IH].
Qed.

Section Reads.
Context {runtime : Runtime}.
Variable configSecret : option string.

Lemma decryptRow_id : forall r r',
    decryptRow configSecret r = Resolved r' -> id r' = id r /\ name r' = name r.
Proof.
  intros r r'. unfold decryptRow.
  destruct (isEncryptedSecret (secret r)).
  - destruct (decryptSecretValue configSecret (secret r)); [|discriminate].
    intro H. injection H as <-. split; reflexivity.
  - intro H. injection H as <-. split; reflexivity.
Qed.

Lemma decryptRows_resolved : forall rows out,
    decryptRows configSecret rows = Resolved out ->
    Forall2 (fun r r' => decryptRow configSecret r = Resolved r') rows out.
Proof.
  induction rows as [|row rest IH]; intros out H; cbn [decryptRows] in H.
  - injection H as <-. constructor.
  - destruct (decryptRow configSecret row) as [decrypted|e] eqn:Hrow; [|discriminate H].
    destruct (decryptRows configSecret rest) as [others|e]; [|discriminate H].
    injection H as <-. constructor; [exact Hrow | apply IH; reflexivity].
Qed.

Lemma decryptRows_rejected : forall rows e,
    decryptRows configSecret rows = Rejected e ->
    exists r, In r rows /\ decryptRow configSecret r = Rejected e.
Proof.
  induction rows as [|row rest IH]; intros e H; cbn [decryptRows] in H; [discriminate H|].
  destruct (decryptRow configSecret row) as [decrypted|e'] eqn:Hrow.
  - destruct (decryptRows configSecret rest) as [others|e'']; [discriminate H|].
    injection H as ->. destruct (IH e eq_refl) as [r [Hr He]].
    exists r. split; [right; exact Hr | exact He].
  - injection H as ->. exists row. split; [left; reflexivity | exact Hrow].
Qed.

Lemma findById_first : forall i table,
    findById configSecret i table
    = match hd_error (filter (fun r => String.eqb (id r) i) table) with
      | None => Resolved None
      | Some r =>
          match decryptRow configSecret r with
          | Resolved decrypted => Resolved (Some decrypted)
          | Rejected e => Rejected e
          end
      end.
Proof. reflexivity. Qed.

End Reads.

Lemma getKey_configured : forall (runtime : Runtime) (s : string),
    s <> "" -> getKey (Some s) = Resolved (deriveKeyFromSecret s).
Proof.
  intros runtime s Hne. unfold getKey.
  destruct s; [contradiction Hne; reflexivity | reflexivity].
Qed.

Lemma isEncryptedSecret_encrypt : forall (runtime : Runtime) (P : Json) (key : Key) iv,
    isEncryptedSecret (encryptSecretValueWithKey P key iv) = true.
Proof.
  intros runtime P key iv. unfold encryptSecretValueWithKey.
  destruct (cipherEncrypt key iv (JSON_stringify P)) as [ciphertext authTag].
  reflexivity.
Qed.

(** A row written by [encryptSecretValue] reads back as its plaintext
    under the same configured secret. *)
Lemma decryptRow_encrypted :
  forall (runtime : Runtime) (laws : RuntimeLaws runtime) (s : string)
         (i n : string) (P : Json) (iv : string),
    s <> "" -> serializable P ->
    decryptRow (Some s) (mkRow i n (encryptSecretValueWithKey P (deriveKeyFromSecret s) iv))
    = Resolved (mkRow i n P).
Proof.
  intros runtime laws s i n P iv Hne HP. unfold decryptRow. cbn [secret id name].
  rewrite isEncryptedSecret_encrypt. unfold decryptSecretValue.
  rewrite (@getKey_configured runtime s Hne), decrypt_encrypt, HP. reflexivity.
Qed.

Lemma filter_map_update : forall (f : Row -> Row) (i : string) (table : list Row),
    (forall r, id (f r) = id r) ->
    filter (fun r => String.eqb (id r) i)
           (map (fun r => if String.eqb (id r) i then f r else r) table)
    = map f (filter (fun r => String.eqb (id r) i) table).
Proof.
  intros f i table Hid. induction table as [|r l IH]; [reflexivity|]. cbn [map filter].
  destruct (String.eqb (id r) i) eqn:Hr.
  - rewrite Hid, Hr. cbn [map]. f_equal. exact IH.
  - rewrite Hr. exact IH.
Qed.

(** [SecretModel.findByIds] is the batch of [SecretModel.findById]: on a
    table with unique ids it returns exactly the rows [findById] returns
    for the requested ids, and when it throws, [findById] throws the same
    error for one of them.  With no ids it returns the empty list without
    reading the table. *)
Theorem findByIds_agrees_with_findById :
  forall (runtime : Runtime) (configSecret : option string)
         (ids : list string) (table : list Row),
    NoDup (map id table) ->
    findByIds configSecret [] table = Resolved []
    /\ (forall rows, findByIds configSecret ids table = Resolved rows ->
          forall r, In r rows <->
                    (In (id r) ids
                     /\ findById configSecret (id r) table = Resolved (Some r)))
    /\ (forall e, findByIds configSecret ids table = Rejected e ->
          exists i, In i ids /\ findById configSecret i table = Rejected e).
Proof.
  intros runtime configSecret ids table Hnd.
  split; [reflexivity|].
  assert (Hbatch : ids <> [] ->
            findByIds configSecret ids table
            = decryptRows configSecret
                (filter (fun r => existsb (String.eqb (id r)) ids) table)).
  { destruct ids; [intro H; contradiction H; reflexivity | reflexivity]. }
  split.
  - intros rows Hrows r.
    destruct ids as [|i0 ids'] eqn:Hids.
    { cbn in Hrows. injection Hrows as <-. split; [intros [] | intros [[] _]]. }
    rewrite <- Hids in *. rewrite Hbatch in Hrows by (rewrite Hids; discriminate).
    apply decryptRows_resolved in Hrows. split.
    + intro Hin. destruct (Forall2_In_r _ Hrows Hin) as [r0 [Hr0 Hdec]].
      apply filter_In in Hr0. destruct Hr0 as [Htable Hreq].
      apply includes_In in Hreq.
      destruct (decryptRow_id _ _ Hdec) as [Hid _]. rewrite Hid.
      split; [exact Hreq|].
      rewrite findById_first, (@first_by_id table r0 Hnd Htable), Hdec. reflexivity.
    + intros [Hreq Hfind]. rewrite findById_first in Hfind.
      destruct (hd_error (filter (fun x => String.eqb (id x) (id r)) table))
        as [r0|] eqn:Hfirst; [|discriminate Hfind].
      destruct (decryptRow configSecret r0) as [decrypted|e] eqn:Hdec;
        [|discriminate Hfind].
      injection Hfind as ->.
      apply hd_error_In, filter_In in Hfirst. destruct Hfirst as [Htable Hid].
      apply String.eqb_eq in Hid.
      assert (Hsel : In r0 (filter (fun x => existsb (String.eqb (id x)) ids) table)).
      { apply filter_In. split; [exact Htable|]. apply includes_In.
        rewrite Hid. exact Hreq. }
      destruct (Forall2_In_l _ Hrows Hsel) as [r' [Hr' Hdec']].
      rewrite Hdec in Hdec'. injection Hdec' as <-. exact Hr'.
  - intros e He.
    destruct ids as [|i0 ids'] eqn:Hids; [discriminate He|].
    rewrite <- Hids in *. rewrite Hbatch in He by (rewrite Hids; discriminate).
    apply decryptRows_rejected in He. destruct He as [r0 [Hr0 Hdec]].
    apply filter_In in Hr0. destruct Hr0 as [Htable Hreq].
    apply includes_In in Hreq. exists (id r0). split; [exact Hreq|].
    rewrite findById_first, (@first_by_id table r0 Hnd Htable), Hdec. reflexivity.
Qed.

(** [SecretModel.update] with a (truthy) secret value encrypts on write.
    Without a configured secret it throws before the table is touched.
    With one, every row keeps its place and its id, a row with another
    id is left as it was, and the row with the id holds an encrypted
    wrapper, never the value itself; when the value is JSON-serializable
    the caller gets the row back with the value in clear, and so does a
    [findById] afterwards; and when no row has the id the table is
    unchanged and the result is undefined. *)
Theorem update_encrypts_on_write :
  forall (runtime : Runtime) (laws : RuntimeLaws runtime) (s : string)
         (i : string) (input : UpdateSecret) (iv : string) (table : list Row)
         (value : Json),
    setSecretValue input = Some value -> truthyJson value = true ->
    update None i input iv table
    = (Rejected (newError "ARCHESTRA_AUTH_SECRET is required"), table)
    /\ update (Some "") i input iv table
       = (Rejected (newError "ARCHESTRA_AUTH_SECRET is required"), table)
    /\ (s <> "" ->
        Forall2 (fun r r' =>
                   id r' = id r
                   /\ (id r <> i -> r' = r)
                   /\ (id r = i ->
                       isEncryptedSecret (secret r') = true
                       /\ name r' = match setName input with
                                    | Some n => n
                                    | None => name r
                                    end))
                table (snd (update (Some s) i input iv table))
        /\ (forall r, hd_error (filter (fun x => String.eqb (id x) i) table) = Some r ->
              serializable value ->
              fst (update (Some s) i input iv table)
              = Resolved (Some (mkRow (id r)
                                      (match setName input with
                                       | Some n => n
                                       | None => name r
                                       end) value))
              /\ findById (Some s) i (snd (update (Some s) i input iv table))
                 = fst (update (Some s) i input iv table))
        /\ (hd_error (filter (fun x => String.eqb (id x) i) table) = None ->
            update (Some s) i input iv table = (Resolved None, table))).
Proof.
  intros runtime laws s i input iv table value Hvalue Htruthy.
  split; [|split].
  - unfold update. rewrite Hvalue, Htruthy. reflexivity.
  - unfold update. rewrite Hvalue, Htruthy. reflexivity.
  - intro Hne.
    assert (Hupdate :
              update (Some s) i input iv table
              = (decryptSecretRow (Some s)
                   (hd_error
                      (map (applyValues
                              (mkUpdateSecret (setName input)
                                 (Some (encryptSecretValueWithKey value
                                          (deriveKeyFromSecret s) iv))))
                           (filter (fun r => String.eqb (id r) i) table))),
                 map (fun r => if String.eqb (id r) i
                               then applyValues
                                      (mkUpdateSecret (setName input)
                                         (Some (encryptSecretValueWithKey value
                                                  (deriveKeyFromSecret s) iv))) r
                               else r) table)).
    { unfold update, encryptSecretValue.
      rewrite Hvalue, Htruthy, (@getKey_configured runtime s Hne).
      destruct (setName input); reflexivity. }
    rewrite Hupdate. cbn [fst snd]. split; [|split].
    + clear Hupdate. induction table as [|r l IH]; cbn [map]; constructor; [|exact IH].
      destruct (String.eqb_spec (id r) i) as [Heq|Hneq].
      * split; [reflexivity|]. split; [intro H; contradiction|].
        intros _. cbn [applyValues secret name setSecretValue setName].
        split; [apply isEncryptedSecret_encrypt | reflexivity].
      * split; [reflexivity|]. split; [reflexivity | intro H; contradiction].
    + intros r Hr HP. rewrite findById_first, filter_map_update by reflexivity.
      destruct (filter (fun x => String.eqb (id x) i) table) as [|r0 rest];
        [discriminate Hr|].
      injection Hr as ->. cbn [map hd_error decryptSecretRow].
      unfold applyValues at 1. cbn [setName setSecretValue].
      rewrite (@decryptRow_encrypted runtime laws s (id r)
                 (match setName input with Some n => n | None => name r end)
                 value iv Hne HP).
      split; reflexivity.
    + intro Hnone.
      destruct (filter (fun x => String.eqb (id x) i) table) as [|r0 rest] eqn:Hf;
        [|discriminate Hnone].
      cbn [map hd_error decryptSecretRow]. f_equal.
      pose proof (ListFacts.filter_nil_none _ _ Hf) as Hno. clear Hf Hnone Hupdate.
      induction table as [|r l IH]; [reflexivity|]. cbn [map].
      rewrite (Hno r (or_introl eq_refl)). f_equal.
      apply IH. intros x Hx. apply Hno. right. exact Hx.
Qed.

(** [SecretModel.delete] answers true exactly when a row had the id;
    afterwards [findById] finds nothing under that id and finds under
    every other id what it found before. *)
Theorem delete_then_find :
  forall (runtime : Runtime) (configSecret : option string) (i : string)
         (table : list Row),
    (fst (delete i table) = true <-> exists r, In r table /\ id r = i)
    /\ findById configSecret i (snd (delete i table)) = Resolved None
    /\ (forall j, j <> i ->
          findById configSecret j (snd (delete i table))
          = findById configSecret j table).
Proof.
  intros runtime configSecret i table. unfold delete. cbn [fst snd].
  split; [|split].
  - destruct (filter (fun r => String.eqb (id r) i) table) as [|r0 rest] eqn:Hf.
    + cbn. split; [discriminate|].
      intros [r [Hr Hid]]. pose proof (ListFacts.filter_nil_none _ _ Hf r Hr) as Hno.
      cbv beta in Hno. apply String.eqb_neq in Hno. contradiction.
    + cbn. split; [|reflexivity]. intros _. exists r0.
      assert (Hin : In r0 (filter (fun r => String.eqb (id r) i) table))
        by (rewrite Hf; left; reflexivity).
      apply filter_In in Hin. destruct Hin as [Hin Hid].
      split; [exact Hin | apply String.eqb_eq; exact Hid].
  - rewrite findById_first.
    assert (Hnone : filter (fun r => String.eqb (id r) i)
                           (filter (fun r => negb (String.eqb (id r) i)) table) = []).
    { induction table as [|r l IH]; [reflexivity|]. cbn [filter].
      destruct (String.eqb (id r) i) eqn:Hr; cbn [negb filter]; [exact IH|].
      rewrite Hr. exact IH. }
    rewrite Hnone. reflexivity.
  - intros j Hj. rewrite !findById_first.
    assert (Hsame : filter (fun r => String.eqb (id r) j)
                           (filter (fun r => negb (String.eqb (id r) i)) table)
                    = filter (fun r => String.eqb (id r) j) table).
    { induction table as [|r l IH]; [reflexivity|]. cbn [filter].
      destruct (String.eqb_spec (id r) i) as [Hi|Hi]; cbn [negb filter].
      - destruct (String.eqb_spec (id r) j) as [Hj'|_]; [congruence | exact IH].
      - rewrite IH. reflexivity. }
    rewrite Hsame. reflexivity.
Qed.

(** Rotation is invisible to readers.  Over a table with unique ids
    whose every row is readable under the old secret and holds a
    JSON-serializable value, the rotation commits, every row then holds
    an encrypted wrapper, and [SecretModel.findById] and [findByName]
    under the new secret return for every id and name what they returned
    under the old secret before the rotation. *)
Theorem rotation_transparent_to_readers :
  forall (runtime : Runtime) (laws : RuntimeLaws runtime)
         (oldSecret newSecret : string) (ivs : nat -> string) (db : Database),
    oldSecret <> newSecret -> oldSecret <> "" -> newSecret <> "" ->
    NoDup (map id (secretsTable db)) ->
    (forall r, In r (secretsTable db) ->
       exists plaintext,
         plaintextOf (deriveKeyFromSecret oldSecret) r = Resolved plaintext
         /\ serializable plaintext) ->
    (exists counts,
        fst (rotateSecretEncryptionKey oldSecret newSecret false ivs db) = Resolved counts)
    /\ (forall r',
          In r' (secretsTable
                   (snd (rotateSecretEncryptionKey oldSecret newSecret false ivs db))) ->
          isEncryptedSecret (secret r') = true)
    /\ (forall i,
          findById (Some newSecret) i
            (secretsTable (snd (rotateSecretEncryptionKey oldSecret newSecret false ivs db)))
          = findById (Some oldSecret) i (secretsTable db))
    /\ (forall n,
          findByName (Some newSecret) n
            (secretsTable (snd (rotateSecretEncryptionKey oldSecret newSecret false ivs db)))
          = findByName (Some oldSecret) n (secretsTable db)).
Proof.
  intros runtime laws oldSecret newSecret ivs db Hne Hold Hnew Hnd Hall.
  assert (Hreadable : forall r, In r (secretsTable db) ->
            exists plaintext,
              plaintextOf (deriveKeyFromSecret oldSecret) r = Resolved plaintext).
  { intros r Hr. destruct (Hall r Hr) as [P [HP _]]. exists P. exact HP. }
  pose proof (@rotate_outcome runtime oldSecret newSecret false ivs db Hne) as Hout.
  rewrite (verifyRows_ok _ _ 0 0 Hreadable) in Hout.
  split; [eexists; exact Hout|].
  clear Hout.
  (* the table the committed transaction leaves *)
  assert (Hrows :
            Forall2 (fun r r' =>
                       id r' = id r /\ name r' = name r
                       /\ exists plaintext iv,
                            plaintextOf (deriveKeyFromSecret oldSecret) r
                            = Resolved plaintext
                            /\ serializable plaintext
                            /\ secret r'
                               = encryptSecretValueWithKey plaintext
                                   (deriveKeyFromSecret newSecret) iv)
                    (secretsTable db)
                    (secretsTable
                       (snd (rotateSecretEncryptionKey oldSecret newSecret false ivs db)))).
  { unfold rotateSecretEncryptionKey, transaction.
    pose proof Hne as Hneb. apply String.eqb_neq in Hneb. rewrite Hneb.
    cbn [secretsTable statements].
    pose proof (rotateRows_outcome (deriveKeyFromSecret oldSecret)
                  (deriveKeyFromSecret newSecret) ivs (secretsTable db) 0
                  (secretsTable db) ((statements db ++ [Select]) ++ [Begin])%list 0 0)
      as Hv.
    rewrite (verifyRows_ok _ _ 0 0 Hreadable) in Hv.
    destruct (rotateRows _ _ _ _ _ _ _ _ _) as [[out table'] log'] eqn:Hrun.
    cbn [fst] in Hv. subst out. cbn [snd secretsTable].
    apply rotateRows_ok in Hrun. destruct Hrun as [_ [_ [_ Hrot]]].
    eapply Forall2_weaken_in; [|exact Hrot].
    intros r r' Hr [Hid [Hname Hsecret]]. cbv beta.
    rewrite (listed_self _ _ Hr) in Hsecret.
    destruct Hsecret as [r0 [plaintext [iv [Hr0 [Hid0 [Hplain Hsec]]]]]].
    assert (r0 = r) as ->
        by (apply (NoDup_map_inj id (secretsTable db)); congruence).
    split; [exact Hid|]. split; [exact Hname|].
    destruct (Hall r Hr) as [P [HP Hser]].
    rewrite HP in Hplain. injection Hplain as <-.
    exists P, iv. split; [exact HP|]. split; [exact Hser | exact Hsec]. }
  (* a rotated row reads under the new secret as the row read under the old *)
  assert (Hread : forall r r',
            id r' = id r /\ name r' = name r
            /\ (exists plaintext iv,
                   plaintextOf (deriveKeyFromSecret oldSecret) r = Resolved plaintext
                   /\ serializable plaintext
                   /\ secret r'
                      = encryptSecretValueWithKey plaintext
                          (deriveKeyFromSecret newSecret) iv) ->
            decryptRow (Some newSecret) r' = decryptRow (Some oldSecret) r).
  { intros r r' [Hid [Hname [P [iv [HP [Hser Hsec]]]]]].
    destruct r' as [i' n' s']. cbn [id name secret] in Hid, Hname, Hsec. subst i' n' s'.
    rewrite (@decryptRow_encrypted runtime laws newSecret (id r) (name r) P iv Hnew Hser).
    unfold decryptRow, plaintextOf in *.
    destruct (isEncryptedSecret (secret r)).
    - unfold decryptSecretValue. rewrite (@getKey_configured runtime oldSecret Hold), HP. reflexivity.
    - injection HP as <-. destruct r; reflexivity. }
  split; [|split].
  - intros r' Hr'. destruct (Forall2_In_r _ Hrows Hr') as [r [_ [_ [_ H]]]].
    destruct H as [P [iv [_ [_ ->]]]]. apply isEncryptedSecret_encrypt.
  - intro i. rewrite !findById_first.
    pose proof (@Forall2_first
                  (fun r r' => decryptRow (Some newSecret) r' = decryptRow (Some oldSecret) r)
                  (fun r => String.eqb (id r) i) (fun r => String.eqb (id r) i)
                  (secretsTable db)
                  (secretsTable
                     (snd (rotateSecretEncryptionKey oldSecret newSecret false ivs db))))
      as Hfirst.
    lapply Hfirst.
    + destruct (hd_error (filter _ (secretsTable db))) as [r|];
        destruct (hd_error (filter _ (secretsTable (snd _)))) as [r'|];
        intro H; try contradiction; [rewrite H|]; reflexivity.
    + eapply Forall2_weaken; [|exact Hrows].
      intros r r' H. cbv beta. split; [|apply Hread; exact H].
      destruct H as [-> _]. reflexivity.
  - intro n. unfold findByName, decryptSecretRow.
    pose proof (@Forall2_first
                  (fun r r' => decryptRow (Some newSecret) r' = decryptRow (Some oldSecret) r)
                  (fun r => String.eqb (name r) n) (fun r => String.eqb (name r) n)
                  (secretsTable db)
                  (secretsTable
                     (snd (rotateSecretEncryptionKey oldSecret newSecret false ivs db))))
      as Hfirst.
    lapply Hfirst.
    + destruct (hd_error (filter _ (secretsTable db))) as [r|];
        destruct (hd_error (filter _ (secretsTable (snd _)))) as [r'|];
        intro H; try contradiction; [rewrite H|]; reflexivity.
    + eapply Forall2_weaken; [|exact Hrows].
      intros r r' H. cbv beta. split; [|apply Hread; exact H].
      destruct H as [_ [-> _]]. reflexivity.
Qed.

End SecretModelFacts.

Module TeamFacts.
Import TeamModel AgentTeamModel.

Lemma limit1_nonempty : forall (A : Type) (l : list A),
    (0 <? List.length (firstn 1 l))%nat = true <-> exists x, In x l.
Proof.
  intros A [|x l]; cbn.
  - split; [discriminate | intros [x []]].
  - split; [intros _; exists x; left; reflexivity | reflexivity].
Qed.

Lemma filter_nonempty : forall (A : Type) (p : A -> bool) (l : list A),
    (exists x, In x (filter p l)) <-> exists x, In x l /\ p x = true.
Proof.
  intros A p l. split; intros [x H]; exists x; apply filter_In; exact H.
Qed.

Lemma count_positive : forall (A : Type) (l : list A),
    negb (Nat.eqb (List.length l) 0) = true <-> exists x, In x l.
Proof.
  intros A [|x l]; cbn.
  - split; [discriminate | intros [x []]].
  - split; [intros _; exists x; left; reflexivity | reflexivity].
Qed.

Lemma inArray_In : forall x values, inArray x values = true <-> In x values.
Proof.
  intros x values. unfold inArray. rewrite existsb_exists. split.
  - intros [y [Hy Heq]]. apply String.eqb_eq in Heq. subst y. exact Hy.
  - intro H. exists x. split; [exact H | apply String.eqb_refl].
Qed.

Lemma getUserTeamIds_In : forall t u members,
    In t (getUserTeamIds u members)
    <-> exists m, In m members /\ TeamModel.teamId m = t /\ userId m = u.
Proof.
  intros t u members. unfold getUserTeamIds. rewrite in_map_iff. split.
  - intros [m [Ht Hm]]. apply filter_In in Hm. destruct Hm as [Hm Hu].
    apply String.eqb_eq in Hu. exists m. auto.
  - intros [m [Hm [Ht Hu]]]. exists m. split; [exact Ht|].
    apply filter_In. split; [exact Hm | apply String.eqb_eq; exact Hu].
Qed.

Lemma isUserInTeam_In : forall t u members,
    isUserInTeam t u members = true
    <-> exists m, In m members /\ TeamModel.teamId m = t /\ userId m = u.
Proof.
  intros t u members. unfold isUserInTeam.
  destruct (filter (fun m => String.eqb (TeamModel.teamId m) t && String.eqb (userId m) u)
                   members) as [|m0 rest] eqn:Hf; cbn.
  - split; [discriminate|]. intros [m [Hm [Ht Hu]]].
    pose proof (ListFacts.filter_nil_none _ _ Hf m Hm) as Hno. cbv beta in Hno.
    apply String.eqb_eq in Ht, Hu. rewrite Ht, Hu in Hno. discriminate Hno.
  - split; [|reflexivity]. intros _.
    assert (Hin : In m0 (filter (fun m => String.eqb (TeamModel.teamId m) t
                                          && String.eqb (userId m) u) members))
      by (rewrite Hf; left; reflexivity).
    apply filter_In in Hin. destruct Hin as [Hin Hp].
    apply andb_true_iff in Hp. destruct Hp as [Ht Hu].
    apply String.eqb_eq in Ht, Hu. exists m0. auto.
Qed.

Lemma getTeamsForAgent_In : forall t a db,
    In t (getTeamsForAgent a db)
    <-> In (mkAgentTeam a t) (agentTeamsTable db).
Proof.
  intros t a db. unfold getTeamsForAgent. rewrite in_map_iff. split.
  - intros [r [Ht Hr]]. apply filter_In in Hr. destruct Hr as [Hr Ha].
    apply String.eqb_eq in Ha. destruct r as [a' t']. cbn in *. subst. exact Hr.
  - intro H. exists (mkAgentTeam a t). split; [reflexivity|].
    apply filter_In. split; [exact H | apply String.eqb_refl].
Qed.

Lemma userHasAgentAccess_In : forall u a db,
    userHasAgentAccess u a false db = true
    <-> exists t, In t (getUserTeamIds u (teamMembersTable db))
                  /\ In (mkAgentTeam a t) (agentTeamsTable db).
Proof.
  intros u a db. unfold userHasAgentAccess.
  change (map TeamModel.teamId
              (filter (fun m => String.eqb (userId m) u) (teamMembersTable db)))
    with (getUserTeamIds u (teamMembersTable db)).
  destruct (getUserTeamIds u (teamMembersTable db)) as [|t0 ts] eqn:Hteams.
  - split; [discriminate | intros [t [[] _]]].
  - rewrite <- Hteams. rewrite limit1_nonempty, filter_nonempty. split.
    + intros [r [Hr Hp]]. apply andb_true_iff in Hp. destruct Hp as [Ha Ht].
      apply String.eqb_eq in Ha. apply inArray_In in Ht.
      exists (teamId r). split; [exact Ht|]. destruct r as [a' t']. cbn in *.
      subst. exact Hr.
    + intros [t [Ht Hr]]. exists (mkAgentTeam a t). split; [exact Hr|].
      cbn. rewrite String.eqb_refl. apply inArray_In. exact Ht.
Qed.

(** The two access paths agree.  For a user who is not an agent admin,
    [userHasAgentAccess] holds exactly for the agents
    [getUserAccessibleAgentIds] lists, and exactly when some team has the
    user as a member ([TeamModel.isUserInTeam]) and is assigned to the
    agent ([getTeamsForAgent]).  For an agent admin the check holds for
    every agent id, listed in the agents table or not. *)
Theorem userHasAgentAccess_spec :
  forall (u a : string) (db : Database),
    (userHasAgentAccess u a false db = true
     <-> In a (getUserAccessibleAgentIds u false db))
    /\ (userHasAgentAccess u a false db = true
        <-> exists t, isUserInTeam t u (teamMembersTable db) = true
                      /\ In t (getTeamsForAgent a db))
    /\ userHasAgentAccess u a true db = true
    /\ (forall isAgentAdmin,
          In a (getUserAccessibleAgentIds u isAgentAdmin db) ->
          userHasAgentAccess u a isAgentAdmin db = true).
Proof.
  intros u a db.
  assert (Hlist : In a (getUserAccessibleAgentIds u false db)
                  <-> exists t, In t (getUserTeamIds u (teamMembersTable db))
                                /\ In (mkAgentTeam a t) (agentTeamsTable db)).
  { unfold getUserAccessibleAgentIds.
    change (map TeamModel.teamId
                (filter (fun m => String.eqb (userId m) u) (teamMembersTable db)))
      with (getUserTeamIds u (teamMembersTable db)).
    destruct (getUserTeamIds u (teamMembersTable db)) as [|t0 ts] eqn:Hteams.
    - split; [intros [] | intros [t [[] _]]].
    - rewrite <- Hteams. rewrite in_map_iff. split.
      + intros [r [Ha Hr]]. apply filter_In in Hr. destruct Hr as [Hr Ht].
        apply inArray_In in Ht. exists (teamId r). split; [exact Ht|].
        destruct r as [a' t']. cbn in *. subst. exact Hr.
      + intros [t [Ht Hr]]. exists (mkAgentTeam a t). split; [reflexivity|].
        apply filter_In. split; [exact Hr | apply inArray_In; exact Ht]. }
  split; [|split; [|split]].
  - rewrite userHasAgentAccess_In, Hlist. reflexivity.
  - rewrite userHasAgentAccess_In. split.
    + intros [t [Ht Hr]]. exists t. split.
      * apply isUserInTeam_In. apply getUserTeamIds_In. exact Ht.
      * apply getTeamsForAgent_In. exact Hr.
    + intros [t [Ht Hr]]. exists t. split.
      * apply getUserTeamIds_In. apply isUserInTeam_In. exact Ht.
      * apply getTeamsForAgent_In. exact Hr.
  - reflexivity.
  - intros [|] Hin; [reflexivity|].
    apply userHasAgentAccess_In. apply Hlist. exact Hin.
Qed.

(** An agent and an MCP server share a team exactly when some team
    assigned to the agent is also assigned to the server. *)
Theorem agentAndMcpServerShareTeam_spec :
  forall (a s : string) (db : Database),
    agentAndMcpServerShareTeam a s db = true
    <-> exists t, In t (getTeamsForAgent a db)
                  /\ In (mkMcpServerTeam s t) (mcpServerTeamsTable db).
Proof.
  intros a s db. unfold agentAndMcpServerShareTeam.
  rewrite limit1_nonempty. split.
  - intros [t Ht]. apply in_map_iff in Ht. destruct Ht as [[r st] [Heq Hrow]].
    apply filter_In in Hrow. destruct Hrow as [Hjoin Hp]. cbn [fst snd] in *.
    apply andb_true_iff in Hp. destruct Hp as [Ha Hs].
    apply String.eqb_eq in Ha, Hs.
    unfold innerJoin in Hjoin. apply in_flat_map in Hjoin.
    destruct Hjoin as [r' [Hr' Hpair]]. apply in_map_iff in Hpair.
    destruct Hpair as [st' [Hpair Hst']]. injection Hpair as -> ->.
    apply filter_In in Hst'. destruct Hst' as [Hst' Hteam].
    apply String.eqb_eq in Hteam.
    exists (teamId r). split.
    + apply getTeamsForAgent_In. destruct r as [a' t']. cbn in *. subst. exact Hr'.
    + destruct st as [s' t']. cbn in *. subst. exact Hst'.
  - intros [t [Ht Hs]]. apply getTeamsForAgent_In in Ht.
    exists t. apply in_map_iff.
    exists (mkAgentTeam a t, mkMcpServerTeam s t). split; [reflexivity|].
    apply filter_In. split.
    + unfold innerJoin. apply in_flat_map. exists (mkAgentTeam a t).
      split; [exact Ht|]. apply in_map_iff. exists (mkMcpServerTeam s t).
      split; [reflexivity|]. apply filter_In. split; [exact Hs|].
      cbn. apply String.eqb_refl.
    + cbn. rewrite !String.eqb_refl. reflexivity.
Qed.

(** Removing a team from an agent answers true exactly when the team
    was assigned; afterwards the team is no longer among the agent's
    teams, every other assignment is as before, the other tables are
    untouched, and no user who is not an agent admin has gained access to
    any agent. *)
Theorem removeTeamFromAgent_spec :
  forall (a t : string) (db : Database),
    (fst (removeTeamFromAgent a t db) = true <-> In t (getTeamsForAgent a db))
    /\ ~ In t (getTeamsForAgent a (snd (removeTeamFromAgent a t db)))
    /\ (forall a' t', (a' <> a \/ t' <> t) ->
          (In t' (getTeamsForAgent a' (snd (removeTeamFromAgent a t db)))
           <-> In t' (getTeamsForAgent a' db)))
    /\ teamMembersTable (snd (removeTeamFromAgent a t db)) = teamMembersTable db
    /\ mcpServerTeamsTable (snd (removeTeamFromAgent a t db)) = mcpServerTeamsTable db
    /\ (forall u a',
          userHasAgentAccess u a' false (snd (removeTeamFromAgent a t db)) = true ->
          userHasAgentAccess u a' false db = true).
Proof.
  intros a t db.
  assert (Hkept : forall a' t',
            In (mkAgentTeam a' t') (agentTeamsTable (snd (removeTeamFromAgent a t db)))
            <-> In (mkAgentTeam a' t') (agentTeamsTable db) /\ (a' <> a \/ t' <> t)).
  { intros a' t'. cbn [removeTeamFromAgent snd agentTeamsTable].
    rewrite filter_In. cbn [agentId teamId].
    rewrite negb_true_iff, andb_false_iff, !String.eqb_neq. reflexivity. }
  split; [|split; [|split; [|split; [|split]]]].
  - cbn [removeTeamFromAgent fst]. rewrite count_positive, filter_nonempty.
    rewrite getTeamsForAgent_In. split.
    + intros [r [Hr Hp]]. apply andb_true_iff in Hp. destruct Hp as [Ha Ht].
      apply String.eqb_eq in Ha, Ht. destruct r as [a' t']. cbn in *. subst. exact Hr.
    + intro H. exists (mkAgentTeam a t). split; [exact H|].
      cbn. rewrite !String.eqb_refl. reflexivity.
  - rewrite getTeamsForAgent_In, Hkept. intros [_ [H|H]]; apply H; reflexivity.
  - intros a' t' Hother. rewrite !getTeamsForAgent_In, Hkept. tauto.
  - reflexivity.
  - reflexivity.
  - intros u a'. rewrite !userHasAgentAccess_In.
    intros [t' [Hmember Hassigned]]. exists t'.
    split; [exact Hmember|]. apply Hkept in Hassigned. tauto.
Qed.

(** The membership queries agree: [isUserInTeam] holds exactly when the
    team is among [getUserTeamIds] of the user and exactly when the user
    is among [getTeamMembers] of the team.  [removeMember] answers
    whether the user was a member; afterwards the user is not, and every
    other membership is as before. *)
Theorem membership_queries_agree :
  forall (t u : string) (members : list TeamMember),
    (isUserInTeam t u members = true <-> In t (getUserTeamIds u members))
    /\ (isUserInTeam t u members = true
        <-> exists m, In m (getTeamMembers t members) /\ userId m = u)
    /\ fst (removeMember t u members) = isUserInTeam t u members
    /\ isUserInTeam t u (snd (removeMember t u members)) = false
    /\ (forall t' u', (t' <> t \/ u' <> u) ->
          isUserInTeam t' u' (snd (removeMember t u members))
          = isUserInTeam t' u' members).
Proof.
  intros t u members.
  assert (Hkept : forall m,
            In m (snd (removeMember t u members))
            <-> In m members /\ (TeamModel.teamId m <> t \/ userId m <> u)).
  { intro m. cbn [removeMember snd]. rewrite filter_In.
    rewrite negb_true_iff, andb_false_iff, !String.eqb_neq. reflexivity. }
  split; [|split; [|split; [|split]]].
  - rewrite isUserInTeam_In, getUserTeamIds_In. reflexivity.
  - rewrite isUserInTeam_In. unfold getTeamMembers. split.
    + intros [m [Hm [Ht Hu]]]. exists m. split; [|exact Hu].
      apply filter_In. split; [exact Hm | apply String.eqb_eq; exact Ht].
    + intros [m [Hm Hu]]. apply filter_In in Hm. destruct Hm as [Hm Ht].
      apply String.eqb_eq in Ht. exists m. auto.
  - cbn [removeMember fst]. unfold isUserInTeam.
    destruct (filter _ members); reflexivity.
  - apply not_true_is_false. rewrite isUserInTeam_In.
    intros [m [Hm [Ht Hu]]]. apply Hkept in Hm. tauto.
  - intros t' u' Hother.
    destruct (isUserInTeam t' u' members) eqn:Hbefore.
    + apply isUserInTeam_In. apply isUserInTeam_In in Hbefore.
      destruct Hbefore as [m [Hm [Ht Hu]]]. exists m.
      split; [|split; assumption]. apply Hkept. split; [exact Hm|].
      subst t' u'. exact Hother.
    + apply not_true_is_false. rewrite isUserInTeam_In.
      intros [m [Hm [Ht Hu]]]. apply Hkept in Hm.
      assert (Htrue : isUserInTeam t' u' members = true).
      { apply isUserInTeam_In. exists m. tauto. }
      rewrite Htrue in Hbefore. discriminate Hbefore.
Qed.

(** Two teams: ada is in the platform team, which runs the support
    agent and the search server; bob is in no team. *)
Definition sampleTeams : Database :=
  mkDatabase ["agent-support"; "agent-billing"]
             [mkTeamMember "m1" "team-platform" "ada" "member" 1]
             [mkAgentTeam "agent-support" "team-platform";
              mkAgentTeam "agent-billing" "team-finance"]
             [mkMcpServerTeam "server-search" "team-platform"].

Lemma userHasAgentAccess_spec_witness :
  In "agent-support" (getUserAccessibleAgentIds "ada" false sampleTeams)
  /\ userHasAgentAccess "ada" "agent-support" false sampleTeams = true.
Proof.
  split.
  - apply (proj1 (@userHasAgentAccess_spec "ada" "agent-support" sampleTeams)).
    reflexivity.
  - apply (proj2 (proj2 (proj2 (@userHasAgentAccess_spec "ada" "agent-support"
                                                         sampleTeams)))).
    left. reflexivity.
Defined.

Lemma agentAndMcpServerShareTeam_spec_witness :
  agentAndMcpServerShareTeam "agent-support" "server-search" sampleTeams = true.
Proof.
  apply (proj2 (@agentAndMcpServerShareTeam_spec "agent-support" "server-search"
                                                 sampleTeams)).
  exists "team-platform". split; left; reflexivity.
Defined.

Lemma removeTeamFromAgent_spec_witness :
  In "team-platform" (getTeamsForAgent "agent-support" sampleTeams)
  /\ userHasAgentAccess "ada" "agent-support" false sampleTeams = true.
Proof.
  pose proof (@removeTeamFromAgent_spec "agent-billing" "team-finance" sampleTeams)
    as Hother.
  pose proof (@removeTeamFromAgent_spec "agent-support" "team-platform" sampleTeams)
    as Hsame.
  split.
  - apply (proj1 Hsame). reflexivity.
  - apply (proj2 (proj2 (proj2 (proj2 (proj2 Hother)))) "ada" "agent-support").
    reflexivity.
Defined.

Lemma membership_queries_agree_witness :
  In "team-platform" (getUserTeamIds "ada" (teamMembersTable sampleTeams))
  /\ isUserInTeam "team-platform" "ada"
       (snd (removeMember "team-platform" "bob" (teamMembersTable sampleTeams)))
     = isUserInTeam "team-platform" "ada" (teamMembersTable sampleTeams).
Proof.
  split.
  - apply (proj1 (@membership_queries_agree "team-platform" "ada"
                                            (teamMembersTable sampleTeams))).
    reflexivity.
  - apply (proj2 (proj2 (proj2 (proj2
             (@membership_queries_agree "team-platform" "bob"
                                        (teamMembersTable sampleTeams)))))).
    right. discriminate.
Defined.

End TeamFacts.

Module AgentLabelFacts.
Import Js AgentLabelModel.

Lemma filter_nil_existsb : forall (A : Type) (p : A -> bool) (l : list A),
    filter p l = [] <-> existsb p l = false.
Proof.
  intros A p l. induction l as [|a l IH]; cbn; [tauto|].
  destruct (p a); cbn; [split; discriminate | exact IH].
Qed.

Lemma no_member_nil : forall (A : Type) (l : list A), (forall x, ~ In x l) -> l = [].
Proof.
  intros A [|a l] H; [reflexivity|]. exfalso. apply (H a). left. reflexivity.
Qed.

Lemma leftJoin_null : forall (A B : Type) (on : A -> B -> bool) left right a,
    In (a, None) (leftJoin on left right) <-> In a left /\ filter (on a) right = [].
Proof.
  intros A B on left right a. unfold leftJoin. rewrite in_flat_map. split.
  - intros [a' [Ha' Hrow]].
    destruct (filter (on a') right) as [|b bs] eqn:Hf.
    + destruct Hrow as [Heq|[]]. injection Heq as ->. split; assumption.
    + apply in_map_iff in Hrow. destruct Hrow as [b' [Heq _]]. discriminate Heq.
  - intros [Ha Hf]. exists a. split; [exact Ha|]. rewrite Hf. left. reflexivity.
Qed.

Lemma NoDup_snoc : forall (A : Type) (l : list A) (x : A),
    NoDup l -> ~ In x l -> NoDup (l ++ [x]).
Proof.
  intros A l x. induction l as [|a l IH]; cbn; intros Hnd Hx.
  - constructor; [intros [] | constructor].
  - inversion Hnd as [|y ys Hnotin Hnd']; subst. constructor.
    + intro Hin. apply in_app_or in Hin. destruct Hin as [Hin|[Heq|[]]].
      * contradiction.
      * subst. apply Hx. left. reflexivity.
    + apply IH; [exact Hnd'|]. intro Hin. apply Hx. right. exact Hin.
Qed.

(** Whether a junction row references the id. *)
Definition referenced (agentColumn : AgentLabel -> string)
           (catalogColumn : McpCatalogLabel -> string) (db : Database)
           (rowId : string) : bool :=
  existsb (fun l => String.eqb rowId (agentColumn l)) (agentLabelsTable db)
  || existsb (fun c => String.eqb rowId (catalogColumn c)) (mcpCatalogLabelsTable db).

Lemma orphans_In :
  forall (A : Type) (rowId : A -> string) (agentColumn : AgentLabel -> string)
         (catalogColumn : McpCatalogLabel -> string) (table : list A) (db : Database)
         (i : string),
    In i (map (fun row => rowId (fst (fst row)))
              (filter (fun row => isNull (snd (fst row)) && isNull (snd row))
                      (leftJoin (fun row c => String.eqb (rowId (fst row)) (catalogColumn c))
                                (leftJoin (fun k l => String.eqb (rowId k) (agentColumn l))
                                          table (agentLabelsTable db))
                                (mcpCatalogLabelsTable db))))
    <-> exists k, In k table /\ rowId k = i
                  /\ referenced agentColumn catalogColumn db i = false.
Proof.
  intros A rowId agentColumn catalogColumn table db i.
  unfold referenced. rewrite in_map_iff. split.
  - intros [[[k x] y] [Hid Hrow]]. cbn [fst snd] in Hid.
    apply filter_In in Hrow. destruct Hrow as [Hrow Hnull]. cbn [fst snd] in Hnull.
    destruct x as [x|]; [discriminate Hnull|]. destruct y as [y|]; [discriminate Hnull|].
    apply leftJoin_null in Hrow. destruct Hrow as [Hrow Hcatalog].
    apply leftJoin_null in Hrow. destruct Hrow as [Hk Hagent].
    cbn [fst] in Hcatalog. apply filter_nil_existsb in Hagent, Hcatalog.
    exists k. subst i. rewrite Hagent, Hcatalog. auto.
  - intros [k [Hk [Hid Href]]]. subst i.
    apply orb_false_iff in Href. destruct Href as [Hagent Hcatalog].
    exists ((k, None), None). split; [reflexivity|].
    apply filter_In. split; [|reflexivity].
    apply leftJoin_null. cbn [fst]. split; [|apply filter_nil_existsb; exact Hcatalog].
    apply leftJoin_null. split; [exact Hk | apply filter_nil_existsb; exact Hagent].
Qed.

Lemma deleteIn_spec :
  forall (A : Type) (rowId : A -> string) (keep : string -> bool)
         (ids : list string) (table : list A),
    (forall i, In i ids <-> exists k, In k table /\ rowId k = i /\ keep i = false) ->
    snd (deleteIn rowId ids table) = filter (fun r => keep (rowId r)) table
    /\ fst (deleteIn rowId ids table)
       + List.length (filter (fun r => keep (rowId r)) table)
       = List.length table.
Proof.
  intros A rowId keep ids table Hids.
  assert (Hrow : forall r, In r table ->
            existsb (String.eqb (rowId r)) ids = negb (keep (rowId r))).
  { intros r Hr. destruct (keep (rowId r)) eqn:Hkeep; cbn [negb].
    - apply not_true_is_false. intro H. apply existsb_exists in H.
      destruct H as [i [Hi Heq]]. apply String.eqb_eq in Heq. subst i.
      apply Hids in Hi. destruct Hi as [k [_ [Hk Hfalse]]]. congruence.
    - apply existsb_exists. exists (rowId r). split; [|apply String.eqb_refl].
      apply Hids. exists r. auto. }
  assert (Hkept : filter (fun r => negb (existsb (String.eqb (rowId r)) ids)) table
                  = filter (fun r => keep (rowId r)) table).
  { apply filter_ext_in. intros r Hr. rewrite (Hrow r Hr). apply negb_involutive. }
  assert (Hcount : forall (p : A -> bool) (l : list A),
            List.length (filter p l) + List.length (filter (fun r => negb (p r)) l)
            = List.length l).
  { intros p l. induction l as [|a l IH]; [reflexivity|]. cbn [filter].
    destruct (p a); cbn [negb List.length]; lia. }
  destruct ids as [|i0 ids'] eqn:Hshape.
  - cbn [deleteIn fst snd].
    assert (Hall : filter (fun r => keep (rowId r)) table = table).
    { apply ListFacts.filter_all. intros r Hr.
      pose proof (Hrow r Hr) as H. cbn in H. destruct (keep (rowId r)); [reflexivity|].
      discriminate H. }
    rewrite Hall. split; reflexivity.
  - rewrite <- Hshape in *.
    assert (Hdel : deleteIn rowId ids table
                   = (List.length (filter (fun r => existsb (String.eqb (rowId r)) ids) table),
                      filter (fun r => negb (existsb (String.eqb (rowId r)) ids)) table)).
    { rewrite Hshape. reflexivity. }
    rewrite Hdel. cbn [fst snd]. split; [exact Hkept|].
    rewrite <- Hkept. apply Hcount.
Qed.

(** Pruning keeps exactly the referenced.  After [pruneKeysAndValues]
    the key table holds, in their order, the keys some agent label or
    catalog label references, and likewise the value table; the label
    tables are untouched; the counts returned are the numbers of rows
    removed; and pruning again removes nothing. *)
Theorem pruneKeysAndValues_spec :
  forall (db : Database),
    labelKeysTable (snd (pruneKeysAndValues db))
    = filter (fun k => referenced keyId catalogKeyId db (keyRowId k)) (labelKeysTable db)
    /\ labelValuesTable (snd (pruneKeysAndValues db))
       = filter (fun v => referenced valueId catalogValueId db (valueRowId v))
                (labelValuesTable db)
    /\ agentLabelsTable (snd (pruneKeysAndValues db)) = agentLabelsTable db
    /\ mcpCatalogLabelsTable (snd (pruneKeysAndValues db)) = mcpCatalogLabelsTable db
    /\ fst (fst (pruneKeysAndValues db))
       + List.length (labelKeysTable (snd (pruneKeysAndValues db)))
       = List.length (labelKeysTable db)
    /\ snd (fst (pruneKeysAndValues db))
       + List.length (labelValuesTable (snd (pruneKeysAndValues db)))
       = List.length (labelValuesTable db)
    /\ pruneKeysAndValues (snd (pruneKeysAndValues db))
       = ((0, 0), snd (pruneKeysAndValues db)).
Proof.
  assert (Hprune : forall db,
            pruneKeysAndValues db
            = ((fst (deleteIn keyRowId (orphanedKeys db) (labelKeysTable db)),
                fst (deleteIn valueRowId (orphanedValues db) (labelValuesTable db))),
               mkDatabase
                 (snd (deleteIn keyRowId (orphanedKeys db) (labelKeysTable db)))
                 (snd (deleteIn valueRowId (orphanedValues db) (labelValuesTable db)))
                 (agentLabelsTable db) (mcpCatalogLabelsTable db))).
  { intro db. unfold pruneKeysAndValues.
    destruct (deleteIn keyRowId (orphanedKeys db) (labelKeysTable db)).
    destruct (deleteIn valueRowId (orphanedValues db) (labelValuesTable db)).
    reflexivity. }
  intro db.
  destruct (@deleteIn_spec LabelKey keyRowId (referenced keyId catalogKeyId db)
              (orphanedKeys db) (labelKeysTable db)
              (fun i => @orphans_In LabelKey keyRowId keyId catalogKeyId
                          (labelKeysTable db) db i))
    as [Hkeys HkeyCount].
  destruct (@deleteIn_spec LabelValue valueRowId (referenced valueId catalogValueId db)
              (orphanedValues db) (labelValuesTable db)
              (fun i => @orphans_In LabelValue valueRowId valueId catalogValueId
                          (labelValuesTable db) db i))
    as [Hvalues HvalueCount].
  rewrite (Hprune db). cbn [fst snd labelKeysTable labelValuesTable agentLabelsTable
                            mcpCatalogLabelsTable].
  rewrite Hkeys, Hvalues.
  split; [reflexivity|]. split; [reflexivity|]. split; [reflexivity|].
  split; [reflexivity|]. split; [exact HkeyCount|]. split; [exact HvalueCount|].
  set (db' := mkDatabase
                (filter (fun k => referenced keyId catalogKeyId db (keyRowId k))
                        (labelKeysTable db))
                (filter (fun v => referenced valueId catalogValueId db (valueRowId v))
                        (labelValuesTable db))
                (agentLabelsTable db) (mcpCatalogLabelsTable db)).
  assert (HnoKeys : orphanedKeys db' = []).
  { apply no_member_nil. intros i Hi.
    apply (@orphans_In LabelKey keyRowId keyId catalogKeyId (labelKeysTable db') db' i)
      in Hi.
    destruct Hi as [k [Hk [Hid Href]]]. cbn [db' labelKeysTable] in Hk.
    apply filter_In in Hk. destruct Hk as [_ Hk]. subst i.
    unfold referenced in *. cbn [db' agentLabelsTable mcpCatalogLabelsTable] in Href.
    rewrite Hk in Href. discriminate Href. }
  assert (HnoValues : orphanedValues db' = []).
  { apply no_member_nil. intros i Hi.
    apply (@orphans_In LabelValue valueRowId valueId catalogValueId
                       (labelValuesTable db') db' i) in Hi.
    destruct Hi as [v [Hv [Hid Href]]]. cbn [db' labelValuesTable] in Hv.
    apply filter_In in Hv. destruct Hv as [_ Hv]. subst i.
    unfold referenced in *. cbn [db' agentLabelsTable mcpCatalogLabelsTable] in Href.
    rewrite Hv in Href. discriminate Href. }
  rewrite (Hprune db'), HnoKeys, HnoValues. reflexivity.
Qed.

(** Get-or-create of a label key.  The call always returns an id, and a
    row with that id and the key is in the table afterwards; rows already
    there stay as they were, and when the key was there nothing is
    inserted; a second call, whatever id the database would give, returns
    the same id and changes nothing; and a table with one row per key
    stays so. *)
Theorem getOrCreateKey_spec :
  forall (k newId : string) (keys : list LabelKey),
    exists i,
      fst (getOrCreateKey k newId keys) = Resolved i
      /\ In (mkLabelKey i k) (snd (getOrCreateKey k newId keys))
      /\ (exists inserted, snd (getOrCreateKey k newId keys) = (keys ++ inserted)%list)
      /\ (In k (map key keys) -> snd (getOrCreateKey k newId keys) = keys)
      /\ (forall otherId,
            getOrCreateKey k otherId (snd (getOrCreateKey k newId keys))
            = (Resolved i, snd (getOrCreateKey k newId keys)))
      /\ (NoDup (map key keys) -> NoDup (map key (snd (getOrCreateKey k newId keys)))).
Proof.
  intros k newId keys.
  assert (Hexists : forall l, existsb (fun r => String.eqb (key r) k) l = true
                              <-> In k (map key l)).
  { intro l. rewrite existsb_exists, in_map_iff. split.
    - intros [r [Hr Heq]]. apply String.eqb_eq in Heq. exists r. auto.
    - intros [r [Heq Hr]]. exists r. split; [exact Hr | apply String.eqb_eq; exact Heq]. }
  assert (Hfound : forall l, In k (map key l) ->
            exists r, hd_error (firstn 1 (filter (fun r => String.eqb (key r) k) l)) = Some r
                      /\ In r l /\ key r = k).
  { intros l Hin. apply in_map_iff in Hin. destruct Hin as [r [Heq Hr]].
    destruct (filter (fun r => String.eqb (key r) k) l) as [|r0 rest] eqn:Hf.
    - pose proof (ListFacts.filter_nil_none _ _ Hf r Hr) as Hno. cbv beta in Hno.
      rewrite Heq, String.eqb_refl in Hno. discriminate Hno.
    - exists r0. split; [reflexivity|].
      assert (Hin : In r0 (filter (fun r => String.eqb (key r) k) l))
        by (rewrite Hf; left; reflexivity).
      apply filter_In in Hin. destruct Hin as [Hin Hkey].
      split; [exact Hin | apply String.eqb_eq; exact Hkey]. }
  assert (Hstable : forall l otherId r,
            hd_error (firstn 1 (filter (fun r => String.eqb (key r) k) l)) = Some r ->
            In k (map key l) ->
            getOrCreateKey k otherId l = (Resolved (keyRowId r), l)).
  { intros l otherId r Hr Hin. unfold getOrCreateKey.
    rewrite (proj2 (Hexists l) Hin), Hr. reflexivity. }
  destruct (existsb (fun r => String.eqb (key r) k) keys) eqn:Hthere.
  - pose proof (proj1 (Hexists keys) Hthere) as Hin.
    destruct (Hfound keys Hin) as [r [Hr [Hrin Hkey]]].
    rewrite (Hstable keys newId r Hr Hin). cbn [fst snd].
    exists (keyRowId r). split; [reflexivity|]. split.
    { destruct r as [i' k']. cbn in *. subst k'. exact Hrin. }
    split; [exists []; rewrite app_nil_r; reflexivity|].
    split; [reflexivity|]. split; [|tauto].
    intro otherId. apply Hstable; assumption.
  - assert (Hin' : In k (map key (keys ++ [mkLabelKey newId k])%list)).
    { rewrite map_app. apply in_or_app. right. left. reflexivity. }
    destruct (Hfound _ Hin') as [r [Hr [Hrin Hkey]]].
    assert (Hrun : getOrCreateKey k newId keys
                   = (Resolved (keyRowId r), (keys ++ [mkLabelKey newId k])%list)).
    { unfold getOrCreateKey. rewrite Hthere, Hr. reflexivity. }
    rewrite Hrun. cbn [fst snd].
    exists (keyRowId r). split; [reflexivity|]. split.
    { destruct r as [i' k']. cbn in *. subst k'. exact Hrin. }
    split; [eexists; reflexivity|]. split.
    { intro Hin. apply Hexists in Hin. rewrite Hin in Hthere. discriminate Hthere. }
    split.
    { intro otherId. apply Hstable; assumption. }
    intro Hnd. rewrite map_app. cbn [map key].
    apply NoDup_snoc; [exact Hnd|].
    intro Hin. apply Hexists in Hin. rewrite Hin in Hthere. discriminate Hthere.
Qed.

(** Two keys, of which only the first is used by an agent label. *)
Definition sampleLabels : Database :=
  mkDatabase [mkLabelKey "k1" "env"; mkLabelKey "k2" "tier"]
             [mkLabelValue "v1" "prod"]
             [mkAgentLabel "agent-1" "k1" "v1"]
             [].

Lemma getOrCreateKey_spec_witness :
  exists i,
    fst (getOrCreateKey "env" "k9" (labelKeysTable sampleLabels)) = Resolved i
    /\ snd (getOrCreateKey "env" "k9" (labelKeysTable sampleLabels))
       = labelKeysTable sampleLabels
    /\ NoDup (map key (snd (getOrCreateKey "env" "k9" (labelKeysTable sampleLabels)))).
Proof.
  destruct (@getOrCreateKey_spec "env" "k9" (labelKeysTable sampleLabels))
    as [i [Hid [_ [_ [Hsame [_ Hunique]]]]]].
  exists i. split; [exact Hid|]. split.
  - apply Hsame. left. reflexivity.
  - apply Hunique. cbn. constructor.
    + intros [H|[]]. discriminate H.
    + constructor; [intros [] | constructor].
Defined.

End AgentLabelFacts.

Module AuthHookFacts.
Import AuthHook.

Lemma get_assign : forall acc resource actions r,
    get (assign acc resource actions) r
    = if String.eqb resource r then Some actions else get acc r.
Proof.
  intros acc resource actions r. induction acc as [|[r0 a0] rest IH]; cbn.
  - rewrite String.eqb_sym. destruct (String.eqb r resource); reflexivity.
  - destruct (String.eqb_spec r0 resource) as [->|Hne]; cbn.
    + destruct (String.eqb resource r); reflexivity.
    + destruct (String.eqb_spec r0 r) as [->|Hne'].
      * destruct (String.eqb_spec resource r) as [->|_]; [contradiction Hne|]; reflexivity.
      * exact IH.
Qed.

Lemma get_fold_other : forall permissions acc r,
    (forall q, In q permissions -> resourceOf q <> r) ->
    get (fold_left (fun acc permission =>
                      assign acc (resourceOf permission) [actionOf permission])
                   permissions acc) r
    = get acc r.
Proof.
  induction permissions as [|p rest IH]; intros acc r Hother; [reflexivity|].
  cbn [fold_left]. rewrite IH by (intros q Hq; apply Hother; right; exact Hq).
  rewrite get_assign.
  destruct (String.eqb_spec (resourceOf p) r) as [Heq|_]; [|reflexivity].
  exfalso. apply (Hother p); [left; reflexivity | exact Heq].
Qed.

(** The permission map keeps one action per resource, that of the last
    permission naming the resource: an earlier permission on the same
    resource is dropped from the check.  A resource no permission names
    is absent from the map. *)
Theorem permissionMap_last_wins :
  forall (before after : list string) (permission : string),
    (forall q, In q after -> resourceOf q <> resourceOf permission) ->
    get (permissionMap (before ++ permission :: after)) (resourceOf permission)
    = Some [actionOf permission]
    /\ (forall r, (forall q, In q (before ++ permission :: after) -> resourceOf q <> r) ->
          get (permissionMap (before ++ permission :: after)) r = None).
Proof.
  intros before after permission Hafter. unfold permissionMap. split.
  - rewrite fold_left_app. cbn [fold_left].
    rewrite get_fold_other by exact Hafter.
    rewrite get_assign, String.eqb_refl. reflexivity.
  - intros r Hnone. rewrite get_fold_other by exact Hnone. reflexivity.
Qed.

Lemma permissionMap_last_wins_witness :
  get (permissionMap ["tool:read"; "tool:create"; "agent:read"]) "tool"
  = Some [Some "create"].
Proof.
  assert (Hafter : forall q, In q ["agent:read"] ->
                             resourceOf q <> resourceOf "tool:create").
  { intros q [<-|[]]. discriminate. }
  apply (proj1 (@permissionMap_last_wins ["tool:read"] ["agent:read"] "tool:create"
                                         Hafter)).
Defined.

End AuthHookFacts.

(** A small runtime that satisfies the contracts: the key is the secret
    itself, the tag binds key, vector and text, bytes are written as two
    letters each, and the JSON codec knows the empty object. *)
Module SampleRuntime.
Import Js Crypto CryptoFacts.

Definition letter (n : nat) : ascii := ascii_of_nat (65 + n).

Definition encodeByte (c : ascii) : string :=
  String (letter (nat_of_ascii c / 16)) (String (letter (nat_of_ascii c mod 16)) "").

Fixpoint encode (s : string) : string :=
  match s with
  | EmptyString => ""
  | String c rest => encodeByte c ++ encode rest
  end.

Fixpoint decode (s : string) : string :=
  match s with
  | String high (String low rest) =>
      String (ascii_of_nat ((nat_of_ascii high - 65) * 16 + (nat_of_ascii low - 65)))
             (decode rest)
  | _ => ""
  end.

Definition seal (key iv text : string) : string := key ++ "|" ++ iv ++ "|" ++ text.

Definition stringify (P : Json) : string :=
  match P with
  | JObject [] => "{}"
  | _ => "null"
  end.

Definition parse (s : string) : Outcome Json :=
  if String.eqb s "{}" then Resolved (JObject [])
  else Rejected (newError "Unexpected token").

#[export] Instance sampleRuntime : Runtime := {|
  Key := string;
  deriveKey := fun secret => secret;
  cipherEncrypt := fun key iv text => (text, seal key iv text);
  cipherDecrypt := fun key iv authTag ciphertext =>
    if String.eqb authTag (seal key iv ciphertext) then Some ciphertext else None;
  base64url := encode;
  base64urlDecode := decode;
  JSON_stringify := stringify;
  JSON_parse := parse
|}.

Lemma decode_encodeByte : forall c rest,
    decode (encodeByte c ++ rest) = String c (decode rest).
Proof.
  intros c rest. destruct c as [[] [] [] [] [] [] [] []]; reflexivity.
Qed.

Lemma decode_encode : forall s, decode (encode s) = s.
Proof.
  induction s as [|c s IH]; [reflexivity|].
  cbn [encode]. rewrite decode_encodeByte, IH. reflexivity.
Qed.

Lemma encodeByte_alphabet : forall c rest,
    allBase64url (encodeByte c ++ rest) = allBase64url rest.
Proof.
  intros c rest. destruct c as [[] [] [] [] [] [] [] []]; reflexivity.
Qed.

Lemma encode_alphabet : forall s, allBase64url (encode s) = true.
Proof.
  induction s as [|c s IH]; [reflexivity|].
  cbn [encode]. rewrite encodeByte_alphabet. exact IH.
Qed.

#[export] Instance sampleLaws : RuntimeLaws sampleRuntime.
Proof.
  split.
  - intros key iv m. cbn. rewrite String.eqb_refl. reflexivity.
  - exact decode_encode.
  - exact encode_alphabet.
Qed.

End SampleRuntime.

Module Samples.
Import Js Crypto CryptoFacts Rotate RotateFacts SampleRuntime.

Lemma encrypt_decrypt_roundtrip_witness :
  (exists wrapper,
      encryptSecretValue (Some "configured-secret") (JObject []) "iv-1" = Resolved wrapper
      /\ decryptSecretValue (Some "configured-secret") wrapper = Resolved (JObject []))
  /\ (exists w1 w2 s1 s2,
         encryptSecretValue (Some "configured-secret") (JObject []) "iv-1" = Resolved w1
         /\ encryptSecretValue (Some "configured-secret") (JObject []) "iv-2" = Resolved w2
         /\ encryptedString w1 = Some s1
         /\ encryptedString w2 = Some s2
         /\ s1 <> s2).
Proof.
  assert (Hne : "configured-secret" <> "") by discriminate.
  destruct (proj1 (encrypt_decrypt_roundtrip sampleLaws (JObject []))
                  "configured-secret" Hne) as [Hround Hfresh].
  split.
  - apply Hround. reflexivity.
  - apply Hfresh. discriminate.
Defined.

Definition OLD_SECRET : string := "old-test-secret-that-is-at-least-32-chars".
Definition NEW_SECRET : string := "new-test-secret-that-is-at-least-32-chars".

Definition sampleIvs (n : nat) : string := String (ascii_of_nat (48 + n)) "".

(** One row encrypted under the old secret, one legacy plaintext row. *)
Definition mixedDb : Database :=
  mkDatabase
    [ mkRow "s1" "rotate-test"
            (encryptSecretValueWithKey (JObject []) (deriveKeyFromSecret OLD_SECRET) "iv");
      mkRow "s2" "plaintext-test" (JObject [("token", JString "plain-token-value")]) ]
    [].

(** A row whose envelope is cut short, and a row encrypted under a secret
    that is not the old one. *)
Definition truncatedDb : Database :=
  mkDatabase [ mkRow "s1" "cut" (JObject [("__encrypted", JString "v1:abc")]) ] [].

Definition foreignDb : Database :=
  mkDatabase
    [ mkRow "s1" "foreign"
            (encryptSecretValueWithKey (JObject []) (deriveKeyFromSecret "third-secret") "iv") ]
    [].

Lemma rotateSecretEncryptionKey_spec_witness :
  rotateSecretEncryptionKey OLD_SECRET OLD_SECRET false sampleIvs mixedDb
  = (Rejected (newError "Old and new secrets are identical — nothing to rotate."), mixedDb)
  /\ fst (rotateSecretEncryptionKey OLD_SECRET NEW_SECRET true sampleIvs mixedDb)
     = Resolved (mkCounts (List.length (secretsTable mixedDb))
                          (countEncrypted (secretsTable mixedDb))
                          (countPlaintext (secretsTable mixedDb)))
  /\ secretsTable (snd (rotateSecretEncryptionKey OLD_SECRET NEW_SECRET true sampleIvs mixedDb))
     = secretsTable mixedDb
  /\ fst (rotateSecretEncryptionKey OLD_SECRET NEW_SECRET false sampleIvs mixedDb)
     = Resolved (mkCounts (List.length (secretsTable mixedDb))
                          (countEncrypted (secretsTable mixedDb))
                          (countPlaintext (secretsTable mixedDb)))
  /\ (exists e' r',
         fst (rotateSecretEncryptionKey OLD_SECRET NEW_SECRET true sampleIvs truncatedDb)
         = Rejected e'
         /\ In r' (secretsTable truncatedDb)
         /\ isEncryptedSecret (secret r') = true
         /\ decryptSecretValueWithKey (secret r') (deriveKeyFromSecret OLD_SECRET)
            = Rejected e'
         /\ secretsTable (snd (rotateSecretEncryptionKey OLD_SECRET NEW_SECRET true
                                                         sampleIvs truncatedDb))
            = secretsTable truncatedDb).
Proof.
  pose proof (rotateSecretEncryptionKey_spec sampleRuntime OLD_SECRET NEW_SECRET
                                             false sampleIvs mixedDb) as Hreal.
  pose proof (rotateSecretEncryptionKey_spec sampleRuntime OLD_SECRET OLD_SECRET
                                             false sampleIvs mixedDb) as Hsame.
  pose proof (rotateSecretEncryptionKey_spec sampleRuntime OLD_SECRET NEW_SECRET
                                             true sampleIvs mixedDb) as Hdry.
  split; [exact (proj1 Hsame eq_refl)|].
  assert (Hne : OLD_SECRET <> NEW_SECRET) by discriminate.
  destruct (proj1 (proj2 Hdry) Hne eq_refl) as [Htable [_ [Hcounts _]]].
  split; [|split; [exact Htable|split]].
  - apply Hcounts. intros r Hr Henc. simpl in Hr.
    destruct Hr as [<-|[<-|[]]].
    + exists (JObject []). reflexivity.
    + discriminate Henc.
  - destruct (proj1 (proj2 (proj2 Hreal)) Hne eq_refl)
      as [[Hcommitted _] | [e [ids [Hthrown _]]]].
    + exact Hcommitted.
    + vm_compute in Hthrown. discriminate Hthrown.
  - apply (proj2 (proj2 (proj2
             (rotateSecretEncryptionKey_spec sampleRuntime OLD_SECRET NEW_SECRET
                                             true sampleIvs truncatedDb)))
             Hne
             (mkRow "s1" "cut" (JObject [("__encrypted", JString "v1:abc")]))
             (newError "Invalid encrypted secret format")).
    + left. reflexivity.
    + reflexivity.
    + reflexivity.
Defined.

(** The claim as C1 words it has every dry run return counts.  A dry run
    over a row whose envelope does not decrypt under the old secret throws
    instead (and changes nothing). *)
Lemma dryRun_throws_on_undecryptable_row :
  fst (rotateSecretEncryptionKey OLD_SECRET NEW_SECRET true sampleIvs truncatedDb)
  = Rejected (newError "Invalid encrypted secret format")
  /\ fst (rotateSecretEncryptionKey OLD_SECRET NEW_SECRET true sampleIvs foreignDb)
     = Rejected (newError "Unsupported state or unable to authenticate data")
  /\ (forall counts,
         fst (rotateSecretEncryptionKey OLD_SECRET NEW_SECRET true sampleIvs truncatedDb)
         <> Resolved counts)
  /\ secretsTable (snd (rotateSecretEncryptionKey OLD_SECRET NEW_SECRET true sampleIvs
                                                  truncatedDb))
     = secretsTable truncatedDb.
Proof.
  split; [reflexivity|]. split; [reflexivity|]. split; [|reflexivity].
  intros counts H. discriminate H.
Qed.

(** One row encrypted under the old secret, one legacy plaintext row,
    both holding the empty object. *)
Definition legacyDb : Database :=
  mkDatabase
    [ mkRow "s1" "rotate-test"
            (encryptSecretValueWithKey (JObject []) (deriveKeyFromSecret OLD_SECRET) "iv");
      mkRow "s2" "legacy" (JObject []) ]
    [].

Definition scriptArgv : list string := ["node"; "rotate-secret-encryption-key.ts"].

Definition scriptEnv : Env := mkEnv (Some OLD_SECRET) (Some NEW_SECRET) None.

Lemma legacyDb_NoDup : NoDup (map id (secretsTable legacyDb)).
Proof.
  cbn. constructor.
  - intros [H|[]]. discriminate H.
  - constructor; [intros [] | constructor].
Qed.

Lemma rotation_counts_witness :
  OLD_SECRET <> NEW_SECRET
  /\ total (mkCounts 2 1 1) = List.length (secretsTable mixedDb)
  /\ reEncrypted (mkCounts 2 1 1) = countEncrypted (secretsTable mixedDb)
  /\ newlyEncrypted (mkCounts 2 1 1) = countPlaintext (secretsTable mixedDb)
  /\ total (mkCounts 2 1 1) = reEncrypted (mkCounts 2 1 1) + newlyEncrypted (mkCounts 2 1 1)
  /\ (forall r, In r (secretsTable mixedDb) ->
        exists plaintext,
          plaintextOf (deriveKeyFromSecret OLD_SECRET) r = Resolved plaintext).
Proof.
  apply (@rotation_counts sampleRuntime OLD_SECRET NEW_SECRET false sampleIvs mixedDb
                          (mkCounts 2 1 1)).
  vm_compute. reflexivity.
Defined.

Lemma main_exit_codes_witness :
  main (scriptArgv ++ ["--help"]) scriptEnv (Resolved tt) sampleIvs mixedDb = (0%Z, mixedDb)
  /\ secretsTable (snd (main scriptArgv (mkEnv (Some OLD_SECRET) (Some "") None)
                             (Resolved tt) sampleIvs mixedDb))
     = secretsTable mixedDb
  /\ (exists oldSecret newSecret counts,
         OLD_ARCHESTRA_AUTH_SECRET scriptEnv = Some oldSecret /\ oldSecret <> ""
         /\ ARCHESTRA_AUTH_SECRET scriptEnv = Some newSecret /\ newSecret <> ""
         /\ Resolved tt = Resolved tt
         /\ rotateSecretEncryptionKey oldSecret newSecret (dryRunOf scriptEnv)
                                      sampleIvs mixedDb
            = (Resolved counts,
               snd (main scriptArgv scriptEnv (Resolved tt) sampleIvs mixedDb)))
  /\ secretsTable (snd (main scriptArgv
                             (mkEnv (Some OLD_SECRET) (Some NEW_SECRET) (Some "true"))
                             (Resolved tt) sampleIvs mixedDb))
     = secretsTable mixedDb.
Proof.
  split; [|split; [|split]].
  - apply (proj1 (@main_exit_codes sampleRuntime (scriptArgv ++ ["--help"]) scriptEnv
                                   (Resolved tt) sampleIvs mixedDb)).
    left. cbn. right. right. left. reflexivity.
  - apply (proj1 (proj2 (proj2
             (@main_exit_codes sampleRuntime scriptArgv
                               (mkEnv (Some OLD_SECRET) (Some "") None)
                               (Resolved tt) sampleIvs mixedDb)))).
    reflexivity.
  - apply (proj1 (proj2 (proj2 (proj2
             (@main_exit_codes sampleRuntime scriptArgv scriptEnv
                               (Resolved tt) sampleIvs mixedDb))))).
    + intros [H|[H|[]]]; discriminate H.
    + intros [H|[H|[]]]; discriminate H.
    + vm_compute. reflexivity.
  - apply (proj2 (proj2 (proj2 (proj2 (proj2
             (@main_exit_codes sampleRuntime scriptArgv
                               (mkEnv (Some OLD_SECRET) (Some NEW_SECRET) (Some "true"))
                               (Resolved tt) sampleIvs mixedDb)))))).
    reflexivity.
Defined.

Lemma findByIds_agrees_with_findById_witness :
  SecretModel.findByIds (Some OLD_SECRET) [] (secretsTable legacyDb) = Resolved []
  /\ (forall rows,
         SecretModel.findByIds (Some OLD_SECRET) ["s1"; "s9"] (secretsTable legacyDb)
         = Resolved rows ->
         forall r, In r rows <->
                   (In (id r) ["s1"; "s9"]
                    /\ SecretModel.findById (Some OLD_SECRET) (id r) (secretsTable legacyDb)
                       = Resolved (Some r)))
  /\ (forall e,
         SecretModel.findByIds (Some OLD_SECRET) ["s1"; "s9"] (secretsTable legacyDb)
         = Rejected e ->
         exists i, In i ["s1"; "s9"]
                   /\ SecretModel.findById (Some OLD_SECRET) i (secretsTable legacyDb)
                      = Rejected e).
Proof.
  apply (@SecretModelFacts.findByIds_agrees_with_findById
           sampleRuntime (Some OLD_SECRET) ["s1"; "s9"] (secretsTable legacyDb)).
  exact legacyDb_NoDup.
Defined.

Lemma update_encrypts_on_write_witness :
  fst (SecretModel.update (Some NEW_SECRET) "s2"
         (SecretModel.mkUpdateSecret (Some "renamed") (Some (JObject []))) "iv-9"
         (secretsTable legacyDb))
  = Resolved (Some (mkRow "s2" "renamed" (JObject [])))
  /\ SecretModel.findById (Some NEW_SECRET) "s2"
       (snd (SecretModel.update (Some NEW_SECRET) "s2"
               (SecretModel.mkUpdateSecret (Some "renamed") (Some (JObject []))) "iv-9"
               (secretsTable legacyDb)))
     = fst (SecretModel.update (Some NEW_SECRET) "s2"
              (SecretModel.mkUpdateSecret (Some "renamed") (Some (JObject []))) "iv-9"
              (secretsTable legacyDb)).
Proof.
  assert (Hne : NEW_SECRET <> "") by discriminate.
  destruct (@SecretModelFacts.update_encrypts_on_write
              sampleRuntime sampleLaws NEW_SECRET "s2"
              (SecretModel.mkUpdateSecret (Some "renamed") (Some (JObject []))) "iv-9"
              (secretsTable legacyDb) (JObject []) eq_refl eq_refl)
    as [_ [_ Hconfigured]].
  destruct (Hconfigured Hne) as [_ [Hfound _]].
  apply (Hfound (mkRow "s2" "legacy" (JObject [])) eq_refl).
  reflexivity.
Defined.

Lemma rotation_transparent_to_readers_witness :
  (exists counts,
      fst (rotateSecretEncryptionKey OLD_SECRET NEW_SECRET false sampleIvs legacyDb)
      = Resolved counts)
  /\ (forall r',
         In r' (secretsTable
                  (snd (rotateSecretEncryptionKey OLD_SECRET NEW_SECRET false sampleIvs
                                                  legacyDb))) ->
         isEncryptedSecret (secret r') = true)
  /\ (forall i,
         SecretModel.findById (Some NEW_SECRET) i
           (secretsTable (snd (rotateSecretEncryptionKey OLD_SECRET NEW_SECRET false
                                                         sampleIvs legacyDb)))
         = SecretModel.findById (Some OLD_SECRET) i (secretsTable legacyDb))
  /\ (forall n,
         SecretModel.findByName (Some NEW_SECRET) n
           (secretsTable (snd (rotateSecretEncryptionKey OLD_SECRET NEW_SECRET false
                                                         sampleIvs legacyDb)))
         = SecretModel.findByName (Some OLD_SECRET) n (secretsTable legacyDb)).
Proof.
  apply (@SecretModelFacts.rotation_transparent_to_readers
           sampleRuntime sampleLaws OLD_SECRET NEW_SECRET sampleIvs legacyDb).
  - discriminate.
  - discriminate.
  - discriminate.
  - exact legacyDb_NoDup.
  - intros r [<-|[<-|[]]]; exists (JObject []); split; reflexivity.
Defined.

Lemma delete_then_find_witness :
  SecretModel.findById (Some OLD_SECRET) "s1"
    (snd (SecretModel.delete "s2" (secretsTable legacyDb)))
  = SecretModel.findById (Some OLD_SECRET) "s1" (secretsTable legacyDb).
Proof.
  apply (proj2 (proj2 (@SecretModelFacts.delete_then_find
                         sampleRuntime (Some OLD_SECRET) "s2" (secretsTable legacyDb)))).
  discriminate.
Defined.

End Samples.
